(** * Shopping assistant: scoring, ranking and caching pipeline

    A shallow embedding of the analysis core of the shopping assistant
    ([modules/product_analyzer.py], [modules/recommendation.py],
    [modules/data_collector.py], [utils/helpers.py]) together with the
    properties its specification states about it.

    Conventions of the embedding.
    - Python numbers (int and float) are idealised as rationals [Q]; the
      comparisons and the arithmetic are the ones the source writes.
      Where the code makes a float of a text or of an int, with
      [float(...)], the embedding rounds to the nearest double as Python
      does, with its infinities and NaN ([pyfloat]).
    - A product is a Python dict.  It is embedded as a record whose fields
      are the keys the code reads or writes; a key that may be missing (or
      hold [None]) is an [option].  In-place mutation of a product is
      embedded by returning the updated record.
    - Text is ASCII text ([string]); [str.lower] is the ASCII lower-casing.
    - An exception is a value of [exn]; code that may raise returns a
      [result]. *)

From Stdlib Require Import String Ascii DecimalString.
From Stdlib Require Import ZArith QArith Qminmax List Bool Lia Lqa.
From Stdlib Require Import Permutation Sorted.
From Stdlib Require Qcanon.
Import ListNotations.

Open Scope string_scope.
Open Scope list_scope.
Open Scope nat_scope.

(* ================================================================== *)
(** ** Stable sorting, as [list.sort] and [sorted] do it *)
(* ================================================================== *)

(** Python's [list.sort] and [sorted] are stable: elements that compare
    equal keep their relative order, also under [reverse=True].
    [before a b] says that [a] may stand in front of [b]; an element is
    inserted in front of the first element it may stand in front of, so
    that among equals the earlier one stays first. *)
Section StableSort.
Context {A : Type}.
Variable before : A -> A -> bool.

Fixpoint insert (a : A) (l : list A) : list A :=
  match l with
  | [] => [a]
  | b :: l' => if before a b then a :: l else b :: insert a l'
  end.

Definition stable_sort (l : list A) : list A := fold_right insert [] l.

Definition ordered (a b : A) : Prop := before a b = true.

End StableSort.

(* ================================================================== *)
(** ** Data model *)
(* ================================================================== *)

(** The product dict.  [over_budget] and the five score fields are the
    keys the analyzer adds; [None] is a key that is absent. *)
Record product : Type := mkProduct {
  name : option string;
  price : option Q;
  rating : option Q;
  review_count : option Z;
  features : option (list string);
  platform : option string;
  over_budget : option bool;
  preference_score : option Q;
  matched_preferences : option (list string);
  combined_score : option Q;
  review_score : option Q;
  price_score : option Q
}.

(** [d.get(k, default)] *)
Definition get {V : Type} (field : option V) (default : V) : V :=
  match field with Some v => v | None => default end.

(** [product['over_budget'] = True] *)
Definition set_over_budget (p : product) : product :=
  mkProduct (name p) (price p) (rating p) (review_count p) (features p)
            (platform p) (Some true) (preference_score p)
            (matched_preferences p) (combined_score p) (review_score p)
            (price_score p).

(** The settings of [config.py] the analysis reads. *)
Record config : Type := mkConfig {
  BUDGET_FLEXIBILITY : Q;
  MIN_REVIEWS : Z;
  TOP_RECOMMENDATIONS : nat;
  CACHE_EXPIRY : Q
}.

Definition default_config : config :=
  {| BUDGET_FLEXIBILITY := 1 # 10; MIN_REVIEWS := 10;
     TOP_RECOMMENDATIONS := 5; CACHE_EXPIRY := 86400 |}.

(* ================================================================== *)
(** ** [ProductAnalyzer.filter_by_budget] *)
(* ================================================================== *)

(** The sort key [p.get('price', float('inf'))]. *)
Inductive price_key : Type :=
| Finite (q : Q)
| Infinity.

Definition key_of (p : product) : price_key :=
  match price p with Some q => Finite q | None => Infinity end.

Definition key_le (a b : price_key) : bool :=
  match a, b with
  | Finite x, Finite y => Qle_bool x y
  | _, Infinity => true
  | Infinity, Finite _ => false
  end.

Definition by_price (a b : product) : bool := key_le (key_of a) (key_of b).

(** One turn of the loop over [products]; the state is the pair
    [(filtered_products, over_budget_products)]. *)
Definition filter_step (budget max_price : Q)
    (st : list product * list product) (p : product)
    : list product * list product :=
  let (filtered_products, over_budget_products) := st in
  match price p with
  | None => st
  | Some pr =>
      if Qle_bool pr budget then (filtered_products ++ [p], over_budget_products)
      else if Qle_bool pr max_price
           then (filtered_products, over_budget_products ++ [set_over_budget p])
           else st
  end.

(** [max_price = budget * (1 + self.budget_flexibility)] *)
Definition max_price_of (cfg : config) (budget : Q) : Q :=
  (budget * (1 + BUDGET_FLEXIBILITY cfg))%Q.

Definition filter_by_budget (cfg : config) (products : list product)
    (budget : Q) : list product :=
  let max_price := max_price_of cfg budget in
  let (filtered_products, over_budget_products) :=
    fold_left (filter_step budget max_price) products ([], []) in
  if (length filtered_products <? 3)
     && negb (match over_budget_products with [] => true | _ => false end)
  then
    let sorted_over := stable_sort by_price over_budget_products in
    filtered_products ++ firstn (3 - length filtered_products) sorted_over
  else filtered_products.

(** The two pools of the budget filter, described on the input list:
    the products priced within the budget, and the products priced over
    the budget but within the flexibility, the latter marked. *)
Definition within (bound : Q) (p : product) : bool :=
  match price p with Some pr => Qle_bool pr bound | None => false end.

Definition in_band (budget cap : Q) (p : product) : bool :=
  negb (within budget p) && within cap p.

Definition primary_pool (products : list product) (budget : Q) : list product :=
  filter (within budget) products.

Definition secondary_pool (products : list product) (budget cap : Q)
    : list product :=
  map set_over_budget (filter (in_band budget cap) products).

(** Ascending price, said of the prices themselves: both products have
    a price and the first costs no more than the second. *)
Definition no_dearer (a b : product) : Prop :=
  exists x y, price a = Some x /\ price b = Some y /\ (x <= y)%Q.

(* ================================================================== *)
(** ** Text helpers: [str.lower], [in], [str.split], [str.join] *)
(* ================================================================== *)

Definition is_upper (c : ascii) : bool :=
  (65 <=? nat_of_ascii c) && (nat_of_ascii c <=? 90).

Definition lower_char (c : ascii) : ascii :=
  if is_upper c then ascii_of_nat (nat_of_ascii c + 32) else c.

(** [s.lower()] *)
Fixpoint lower (s : string) : string :=
  match s with
  | EmptyString => EmptyString
  | String c s' => String (lower_char c) (lower s')
  end.

(** [sub in s] *)
Fixpoint contains (sub s : string) : bool :=
  String.prefix sub s
  || match s with
     | EmptyString => false
     | String _ s' => contains sub s'
     end.

(** The characters [str.split()] and [str.strip()] treat as white space:
    tab, line feed, vertical tab, form feed, carriage return, the four
    separators 28 to 31, and the space. *)
Definition is_space (c : ascii) : bool :=
  let n := nat_of_ascii c in
  ((9 <=? n) && (n <=? 13)) || ((28 <=? n) && (n <=? 31)) || (n =? 32).

Definition is_empty (s : string) : bool :=
  match s with EmptyString => true | _ => false end.

Fixpoint split_from (word s : string) : list string :=
  match s with
  | EmptyString => if is_empty word then [] else [word]
  | String c s' =>
      if is_space c
      then (if is_empty word then split_from "" s' else word :: split_from "" s')
      else split_from (word ++ String c "") s'
  end.

(** [s.split()]: the maximal runs of characters that are not white space. *)
Definition split (s : string) : list string := split_from "" s.

(** [sep.join(l)] *)
Definition join (sep : string) (l : list string) : string := String.concat sep l.

(* ================================================================== *)
(** ** [ProductAnalyzer.score_by_preferences] *)
(* ================================================================== *)

(** [product['preference_score'] = s; product['matched_preferences'] = m] *)
Definition set_preferences (p : product) (s : Q) (m : list string) : product :=
  mkProduct (name p) (price p) (rating p) (review_count p) (features p)
            (platform p) (over_budget p) (Some s) (Some m)
            (combined_score p) (review_score p) (price_score p).

(** [name + ' ' + ' '.join(features)], both lower-cased. *)
Definition product_text (p : product) : string :=
  lower (get (name p) "") ++ " " ++ join " " (map lower (get (features p) [])).

(** One turn of the loop over [preferences]; the state is the pair
    [(preference_score, matched_preferences)]. *)
Definition preference_step (text : string) (st : Q * list string)
    (preference : string) : Q * list string :=
  let (score, matched) := st in
  let pref_lower := lower preference in
  if contains pref_lower text then ((score + 1)%Q, matched ++ [preference])
  else
    let pref_words := split pref_lower in
    if 1 <? length pref_words then
      let matches := length (filter (fun word => contains word text) pref_words) in
      if Qle_bool (1 # 2)
           (inject_Z (Z.of_nat matches) / inject_Z (Z.of_nat (length pref_words)))
      then ((score + (1 # 2))%Q, matched ++ [preference])
      else st
    else st.

Definition score_by_preferences (products : list product)
    (preferences : list string) : list product :=
  match preferences with
  | [] => map (fun p => set_preferences p 0 []) products
  | _ =>
      map (fun p =>
             let (score, matched) :=
               fold_left (preference_step (product_text p)) preferences (0%Q, []) in
             set_preferences p score matched)
          products
  end.

(* ================================================================== *)
(** ** [calculate_review_score] and [rank_products] *)
(* ================================================================== *)

Section Ranking.
Variable cfg : config.
(** [math.log10] on a review count, a function of the Python library. *)
Variable log10 : Z -> Q.

Definition calculate_review_score (p : product) : Q :=
  let count := get (review_count p) 0%Z in
  match rating p with
  | None => 0
  | Some r =>
      if (count <? MIN_REVIEWS cfg)%Z then 0
      else
        let review_bonus :=
          if (0 <? count)%Z then Qmin 1 (log10 count / 3) else 0 in
        r + review_bonus
  end%Q.

(** The price score of [rank_products]: the body of its
    [if price <= 0: ... else: ...]. *)
Definition price_score_of (price budget : Q) : Q :=
  (if Qle_bool price 0 then 0
   else
     let price_ratio := price / budget in
     if Qle_bool price_ratio 1 then 1 - price_ratio * (1 # 2)
     else Qmax 0 ((1 # 2) - (price_ratio - 1) * 2))%Q.

(** [product['combined_score'] = c; product['review_score'] = r;
     product['price_score'] = s] *)
Definition set_scores (p : product) (c r s : Q) : product :=
  mkProduct (name p) (price p) (rating p) (review_count p) (features p)
            (platform p) (over_budget p) (preference_score p)
            (matched_preferences p) (Some c) (Some r) (Some s).

(** One turn of the scoring loop of [rank_products]. *)
Definition score_product (budget : Q) (p : product) : product :=
  let pref := get (preference_score p) 0%Q in
  let rev := calculate_review_score p in
  let pr := get (price p) budget in
  let ps := price_score_of pr budget in
  let combined := (pref * 2 + rev * (8 # 10) + ps * 2)%Q in
  set_scores p combined rev ps.

(** The sort key [p.get('combined_score', 0)], with [reverse=True]. *)
Definition combined_of (p : product) : Q := get (combined_score p) 0%Q.

Definition by_combined_desc (a b : product) : bool :=
  Qle_bool (combined_of b) (combined_of a).

(** The list that [rank_products] hands to [sorted]. *)
Definition scored_products (products : list product) (budget : Q)
    (preferences : list string) : list product :=
  map (score_product budget)
      (score_by_preferences (filter_by_budget cfg products budget) preferences).

Definition rank_products (products : list product) (budget : Q)
    (preferences : list string) : list product :=
  stable_sort by_combined_desc (scored_products products budget preferences).

End Ranking.

(** The price score as the specification words it, with
    [r = price / budget]. *)
Definition spec_price_score (r : Q) : Q :=
  (if Qle_bool r 1 then 1 - (1 # 2) * r
   else Qmax 0 ((1 # 2) - 2 * (r - 1)))%Q.

(* ================================================================== *)
(** ** [re.findall] for the two patterns of [extract_key_features] *)
(* ================================================================== *)

Definition is_digit (c : ascii) : bool :=
  (48 <=? nat_of_ascii c) && (nat_of_ascii c <=? 57).

Definition is_lower_letter (c : ascii) : bool :=
  (97 <=? nat_of_ascii c) && (nat_of_ascii c <=? 122).

(** [\w] on ASCII text: letters, digits and the underscore. *)
Definition is_word (c : ascii) : bool :=
  is_digit c || is_upper c || is_lower_letter c || (nat_of_ascii c =? 95).

(** The longest prefix of characters that satisfy [f], and the rest. *)
Fixpoint span (f : ascii -> bool) (s : string) : string * string :=
  match s with
  | EmptyString => (EmptyString, EmptyString)
  | String c s' =>
      if f c then let (taken, rest) := span f s' in (String c taken, rest)
      else (EmptyString, s)
  end.

(** [re.findall]: scan from left to right; [attempt prev s] tries the
    pattern at the start of [s], where [prev] is the character in front
    of it, and gives the text to report and the number of characters the
    match took (at least one); the scan goes on behind a match, and one
    character further after a failure. *)
Fixpoint findall_from (attempt : option ascii -> string -> option (string * nat))
    (prev : option ascii) (skip : nat) (s : string) : list string :=
  match s with
  | EmptyString => []
  | String c s' =>
      match skip with
      | S k => findall_from attempt (Some c) k s'
      | O =>
          match attempt prev s with
          | Some (found, taken) =>
              found :: findall_from attempt (Some c) (taken - 1) s'
          | None => findall_from attempt (Some c) 0 s'
          end
      end
  end.

Definition findall (attempt : option ascii -> string -> option (string * nat))
    (s : string) : list string :=
  findall_from attempt None 0 s.

Definition units : list string :=
  ["GB"; "TB"; "MP"; "GHz"; "inch"; "cm"; "mm"; "mAh"].

(** [\b] behind a unit: the text ends or goes on with a character that
    is not a word character. *)
Definition boundary_after (rest : string) : bool :=
  match rest with
  | EmptyString => true
  | String c _ => negb (is_word c)
  end.

Fixpoint drop (n : nat) (s : string) : string :=
  match n, s with
  | O, _ => s
  | S k, String _ s' => drop k s'
  | S _, EmptyString => EmptyString
  end.

(** The alternation [(?:GB|TB|...)\b]: the first unit that starts the
    text and ends at a word boundary. *)
Fixpoint match_unit (us : list string) (s : string) : option string :=
  match us with
  | [] => None
  | u :: us' =>
      if String.prefix u s && boundary_after (drop (String.length u) s)
      then Some u
      else match_unit us' s
  end.

(** The pattern [\b\d+(?:\.\d+)?(?:GB|TB|MP|GHz|inch|cm|mm|mAh)\b].
    The digits are taken greedily; giving digits back never helps, since
    what follows them then is a digit, which starts neither the fraction
    nor a unit. *)
Definition spec_attempt (prev : option ascii) (s : string)
    : option (string * nat) :=
  if match prev with Some c => is_word c | None => false end then None
  else
    let (whole, rest1) := span is_digit s in
    if is_empty whole then None
    else
      let (fraction, rest2) :=
        match rest1 with
        | String "."%char r =>
            let (digits, r') := span is_digit r in
            if is_empty digits then (EmptyString, rest1)
            else (String "."%char digits, r')
        | _ => (EmptyString, rest1)
        end in
      match match_unit units rest2 with
      | Some u =>
          let found := (whole ++ fraction ++ u)%string in
          Some (found, String.length found)
      | None => None
      end.

(** The pattern [\(([^)]+)\)]; the text reported is the group. *)
Definition paren_attempt (prev : option ascii) (s : string)
    : option (string * nat) :=
  match s with
  | String "("%char r =>
      let (inner, rest) := span (fun c => negb (Ascii.eqb c ")"%char)) r in
      if is_empty inner then None
      else match rest with
           | String ")"%char _ => Some (inner, String.length inner + 2)
           | _ => None
           end
  | _ => None
  end.

(** [s.split(',')]: every comma separates, empty pieces are kept. *)
Fixpoint split_commas_from (piece s : string) : list string :=
  match s with
  | EmptyString => [piece]
  | String c s' =>
      if Ascii.eqb c ","%char then piece :: split_commas_from "" s'
      else split_commas_from (piece ++ String c "") s'
  end.

Definition split_commas (s : string) : list string := split_commas_from "" s.

Fixpoint lstrip (s : string) : string :=
  match s with
  | String c s' => if is_space c then lstrip s' else s
  | EmptyString => EmptyString
  end.

(** Drop the white space at the end: a character is kept when something
    that is kept follows it or when it is not white space. *)
Fixpoint rstrip (s : string) : string :=
  match s with
  | EmptyString => EmptyString
  | String c s' =>
      let kept := rstrip s' in
      if is_empty kept && is_space c then EmptyString else String c kept
  end.

(** [s.strip()] *)
Definition strip (s : string) : string := rstrip (lstrip s).

(* ================================================================== *)
(** ** [ProductAnalyzer.extract_key_features] *)
(* ================================================================== *)

Definition mem (x : string) (l : list string) : bool :=
  existsb (String.eqb x) l.

(** One turn of the loop that removes duplicates. *)
Definition unique_step (unique_features : list string) (feature : string)
    : list string :=
  if negb (is_empty feature) && negb (mem feature unique_features)
  then unique_features ++ [feature]
  else unique_features.

(** The nested function [preference_match_score]. *)
Definition preference_match_score (preferences : list string)
    (feature : string) : nat :=
  let feature_lower := lower feature in
  fold_left
    (fun score pref =>
       let pref_lower := lower pref in
       if String.eqb pref_lower feature_lower then score + 2
       else if contains pref_lower feature_lower
               || contains feature_lower pref_lower
            then score + 1
            else score)
    preferences 0.

(** The order of [sort(key=preference_match_score, reverse=True)]. *)
Definition by_match_desc (preferences : list string) (a b : string) : bool :=
  preference_match_score preferences b <=? preference_match_score preferences a.

(** [product['features']] holds the list [fs]. *)
Definition set_features (p : product) (fs : list string) : product :=
  mkProduct (name p) (price p) (rating p) (review_count p) (Some fs)
            (platform p) (over_budget p) (preference_score p)
            (matched_preferences p) (combined_score p) (review_score p)
            (price_score p).

(** What the three [features.extend(...)] append, in their order. *)
Definition extensions (p : product) : list string :=
  let n := get (name p) "" in
  findall spec_attempt n
  ++ flat_map (fun pf => map strip (split_commas pf)) (findall paren_attempt n)
  ++ get (matched_preferences p) [].

(** [extract_key_features] returns the key features; it is embedded with
    the product as the call leaves it.  [features = product.get('features',
    [])] is the very list the product holds when the key is there, so
    that [features.extend] writes into the product; when the key is
    missing the list is a fresh one and the product stays as it is. *)
Definition extract_key_features (p : product) (preferences : list string)
    : list string * product :=
  let all_features := get (features p) [] ++ extensions p in
  let p_after :=
    match features p with
    | Some fs => set_features p (fs ++ extensions p)
    | None => p
    end in
  let unique_features := fold_left unique_step all_features [] in
  let unique_features :=
    match preferences with
    | [] => unique_features
    | _ => stable_sort (by_match_desc preferences) unique_features
    end in
  (firstn 5 unique_features, p_after).

(* ================================================================== *)
(** ** Exceptions, results, and computations with a log *)
(* ================================================================== *)

(** The classes of [utils/exceptions.py] and the built-in classes the
    code meets.  All of them derive from [Exception]. *)
Inductive exn_class : Type :=
| ShoppingAssistantError | InputError | ScrapingError | NetworkError
| ParsingError | CacheError | AnalysisError | RecommendationError
| NoResultsError
| OSError | ValueError | JSONDecodeError | UnicodeDecodeError
| TypeError | AttributeError | KeyError | IndexError | ZeroDivisionError
| OverflowError.

Scheme Equality for exn_class.

(** The base class, where it is not [Exception] itself.  [IOError] is
    another name of [OSError]; [UnicodeDecodeError] reaches [ValueError]
    through [UnicodeError]. *)
Definition base (c : exn_class) : option exn_class :=
  match c with
  | InputError | ScrapingError | CacheError | AnalysisError
  | RecommendationError | NoResultsError => Some ShoppingAssistantError
  | NetworkError | ParsingError => Some ScrapingError
  | JSONDecodeError | UnicodeDecodeError => Some ValueError
  | _ => None
  end.

Fixpoint issubclass_upto (depth : nat) (c d : exn_class) : bool :=
  exn_class_beq c d
  || match depth, base c with
     | S k, Some b => issubclass_upto k b d
     | _, _ => false
     end.

Definition issubclass (c d : exn_class) : bool := issubclass_upto 2 c d.

(** An exception: its class and [str(e)]. *)
Record exn : Type := mkExn { class_of : exn_class; str : string }.

(** [except (c1, c2, ...)] catches [e]. *)
Definition caught_by (classes : list exn_class) (e : exn) : bool :=
  existsb (issubclass (class_of e)) classes.

Inductive result (A : Type) : Type :=
| Return (a : A)
| Raise (e : exn).
Arguments Return {A} a.
Arguments Raise {A} e.

Inductive level : Type := DEBUG | INFO | WARNING | ERROR.

Definition log_entry : Type := level * string.

(** What a computation works on: the objects it may change, and the log
    the logger writes. *)
Record state (X : Type) : Type := mkState { store : X; log : list log_entry }.
Arguments mkState {X} store log.
Arguments store {X} s.
Arguments log {X} s.

Definition comp (X A : Type) : Type := state X -> state X * result A.

Section Computations.
Context {X : Type}.

Definition ret {A : Type} (a : A) : comp X A := fun st => (st, Return a).

Definition bind {A B : Type} (m : comp X A) (f : A -> comp X B) : comp X B :=
  fun st =>
    match m st with
    | (st', Return a) => f a st'
    | (st', Raise e) => (st', Raise e)
    end.

(** [raise e] *)
Definition raise {A : Type} (e : exn) : comp X A := fun st => (st, Raise e).

(** [try: body except classes as e: handler e]; what the body changed
    before it raised stays changed. *)
Definition try_except {A : Type} (body : comp X A) (classes : list exn_class)
    (handler : exn -> comp X A) : comp X A :=
  fun st =>
    match body st with
    | (st', Return a) => (st', Return a)
    | (st', Raise e) =>
        if caught_by classes e then handler e st' else (st', Raise e)
    end.

(** [try: body except Exception as e: handler e] *)
Definition try_except_Exception {A : Type} (body : comp X A)
    (handler : exn -> comp X A) : comp X A :=
  fun st =>
    match body st with
    | (st', Return a) => (st', Return a)
    | (st', Raise e) => handler e st'
    end.

(** [logger.debug], [logger.info], [logger.warning], [logger.error] *)
Definition logger (l : level) (msg : string) : comp X unit :=
  fun st => (mkState (store st) (log st ++ [(l, msg)]), Return tt).

Definition read : comp X X := fun st => (st, Return (store st)).

Definition write (x : X) : comp X unit :=
  fun st => (mkState x (log st), Return tt).

End Computations.

Declare Scope comp_scope.
Delimit Scope comp_scope with comp.
Notation "x <- m ;; k" := (bind m (fun x => k))
  (at level 100, m at next level, right associativity) : comp_scope.
Notation "m ;;; k" := (bind m (fun _ => k))
  (at level 100, right associativity) : comp_scope.

(** [str(n)] for a length. *)
Definition str_of_nat (n : nat) : string :=
  NilEmpty.string_of_uint (Nat.to_uint n).

(* ================================================================== *)
(** ** [hashlib.md5] and [generate_cache_key] *)
(* ================================================================== *)

(** MD5 (RFC 1321) on 32-bit words held in [Z], the wrap-around written
    out with [wrap32]. *)
Module MD5.

Definition wrap32 (x : Z) : Z := Z.land x 0xFFFFFFFF.

Definition rotl32 (x : Z) (n : Z) : Z :=
  wrap32 (Z.lor (Z.shiftl x n) (Z.shiftr x (32 - n))).

Definition not32 (x : Z) : Z := Z.lxor x 0xFFFFFFFF.

(** [floor(2^32 * abs(sin(i + 1)))] for [i] from 0 to 63. *)
Definition K : list Z :=
  [
    0xd76aa478; 0xe8c7b756; 0x242070db; 0xc1bdceee;
    0xf57c0faf; 0x4787c62a; 0xa8304613; 0xfd469501;
    0x698098d8; 0x8b44f7af; 0xffff5bb1; 0x895cd7be;
    0x6b901122; 0xfd987193; 0xa679438e; 0x49b40821;
    0xf61e2562; 0xc040b340; 0x265e5a51; 0xe9b6c7aa;
    0xd62f105d; 0x02441453; 0xd8a1e681; 0xe7d3fbc8;
    0x21e1cde6; 0xc33707d6; 0xf4d50d87; 0x455a14ed;
    0xa9e3e905; 0xfcefa3f8; 0x676f02d9; 0x8d2a4c8a;
    0xfffa3942; 0x8771f681; 0x6d9d6122; 0xfde5380c;
    0xa4beea44; 0x4bdecfa9; 0xf6bb4b60; 0xbebfbc70;
    0x289b7ec6; 0xeaa127fa; 0xd4ef3085; 0x04881d05;
    0xd9d4d039; 0xe6db99e5; 0x1fa27cf8; 0xc4ac5665;
    0xf4292244; 0x432aff97; 0xab9423a7; 0xfc93a039;
    0x655b59c3; 0x8f0ccc92; 0xffeff47d; 0x85845dd1;
    0x6fa87e4f; 0xfe2ce6e0; 0xa3014314; 0x4e0811a1;
    0xf7537e82; 0xbd3af235; 0x2ad7d2bb; 0xeb86d391
  ]%Z.

Definition shifts : list Z :=
  [ 7; 12; 17; 22; 7; 12; 17; 22; 7; 12; 17; 22; 7; 12; 17; 22;
    5; 9; 14; 20; 5; 9; 14; 20; 5; 9; 14; 20; 5; 9; 14; 20;
    4; 11; 16; 23; 4; 11; 16; 23; 4; 11; 16; 23; 4; 11; 16; 23;
    6; 10; 15; 21; 6; 10; 15; 21; 6; 10; 15; 21; 6; 10; 15; 21 ]%Z.

Definition bytes_of_string (s : string) : list Z :=
  map (fun c => Z.of_nat (nat_of_ascii c)) (list_ascii_of_string s).

(** The [n] low bytes of [x], the lowest first. *)
Fixpoint le_bytes (n : nat) (x : Z) : list Z :=
  match n with
  | O => []
  | S k => Z.land x 0xFF :: le_bytes k (Z.shiftr x 8)
  end.

(** The message, the byte 0x80, zero bytes up to 56 modulo 64, and the
    length in bits on eight bytes. *)
Definition pad (msg : list Z) : list Z :=
  let len := Z.of_nat (length msg) in
  msg ++ [0x80%Z]
      ++ repeat 0%Z (Z.to_nat ((55 - len) mod 64))
      ++ le_bytes 8 (8 * len).

Fixpoint chunks (n : nat) (l : list Z) : list (list Z) :=
  match n with
  | O => []
  | S k => firstn 64 l :: chunks k (skipn 64 l)
  end.

Fixpoint le_word (bytes : list Z) : Z :=
  match bytes with
  | [] => 0
  | b :: rest => Z.lor b (Z.shiftl (le_word rest) 8)
  end.

Fixpoint words (n : nat) (l : list Z) : list Z :=
  match n with
  | O => []
  | S k => le_word (firstn 4 l) :: words k (skipn 4 l)
  end.

Definition quad : Type := (Z * Z * Z * Z)%type.

Definition step (M : list Z) (st : quad) (i : nat) : quad :=
  let '(A, B, C, D) := st in
  let '(F, g) :=
    if i <? 16 then (Z.lor (Z.land B C) (Z.land (not32 B) D), i)
    else if i <? 32 then
      (Z.lor (Z.land D B) (Z.land (not32 D) C), (5 * i + 1) mod 16)
    else if i <? 48 then (Z.lxor B (Z.lxor C D), (3 * i + 5) mod 16)
    else (Z.lxor C (Z.lor B (not32 D)), (7 * i) mod 16) in
  let F' := wrap32 (F + A + nth i K 0 + nth g M 0)%Z in
  (D, wrap32 (B + rotl32 F' (nth i shifts 0))%Z, B, C).

Definition process (st : quad) (chunk : list Z) : quad :=
  let '(a0, b0, c0, d0) := st in
  let '(A, B, C, D) := fold_left (step (words 16 chunk)) (seq 0 64) st in
  (wrap32 (a0 + A), wrap32 (b0 + B), wrap32 (c0 + C), wrap32 (d0 + D))%Z.

Definition initial : quad :=
  (0x67452301, 0xefcdab89, 0x98badcfe, 0x10325476)%Z.

Definition digest (msg : list Z) : list Z :=
  let padded := pad msg in
  let '(a, b, c, d) :=
    fold_left process (chunks (length padded / 64) padded) initial in
  le_bytes 4 a ++ le_bytes 4 b ++ le_bytes 4 c ++ le_bytes 4 d.

Definition hex_digit (x : Z) : ascii :=
  nth (Z.to_nat x) (list_ascii_of_string "0123456789abcdef") "0"%char.

Fixpoint hex (bytes : list Z) : string :=
  match bytes with
  | [] => EmptyString
  | b :: rest =>
      String (hex_digit (Z.shiftr b 4)) (String (hex_digit (Z.land b 0xF)) (hex rest))
  end.

(** [hashlib.md5(s.encode()).hexdigest()] for ASCII text. *)
Definition hexdigest (s : string) : string := hex (digest (bytes_of_string s)).

End MD5.

(** [generate_cache_key]: the MD5 of [f"{platform}:{query}".lower()]. *)
Definition generate_cache_key (query platform : string) : string :=
  let key_string := lower (platform ++ ":" ++ query) in
  MD5.hexdigest key_string.

(** Runs of white space made one space, none at the ends:
    [re.sub(r'\s+', ' ', s).strip()], as [sanitize_query] collapses it. *)
Definition collapse_whitespace (s : string) : string := join " " (split s).

(** The normal form the specification names for a query: lower-cased
    and white space collapsed. *)
Definition spec_normalize (query : string) : string :=
  collapse_whitespace (lower query).

(** The invariance of the cache key as the specification states it. *)
Definition cache_key_normalized_claim : Prop :=
  forall platform q1 q2,
    spec_normalize q1 = spec_normalize q2 ->
    generate_cache_key q1 platform = generate_cache_key q2 platform.

(* ================================================================== *)
(** ** The cache: [get_cached_data] and [save_to_cache] *)
(* ================================================================== *)

(** The value under the key ['timestamp'] as the code looks at it: a
    string, or something else of which only the truth value matters. *)
Inductive timestamp_value : Type :=
| TsText (s : string)
| TsOther (truthy : bool).

(** A cache file as [get_cached_data] meets it; [D] is the type of the
    payload.  Of a JSON object only the keys ['timestamp'] and ['data']
    are looked at. *)
Inductive cache_file (D : Type) : Type :=
| Unreadable (msg : string)
| NotUtf8 (msg : string)
| Malformed (msg : string)
| NotAnObject
| Object (timestamp : option timestamp_value) (data : option D).
Arguments Unreadable {D} msg.
Arguments NotUtf8 {D} msg.
Arguments Malformed {D} msg.
Arguments NotAnObject {D}.
Arguments Object {D} timestamp data.

(** How a write fails, where writes fail, with the text of the
    [IOError]: in [open], which leaves the file of the key as it was, or
    after it, in [json.dump] or when the file is closed, when
    [open(cache_file, 'w')] has already emptied the file; [remains] is what
    the file then holds. *)
Inductive write_failure (D : Type) : Type :=
| AtOpen (msg : string)
| AfterOpen (msg : string) (remains : cache_file D).
Arguments AtOpen {D} msg.
Arguments AfterOpen {D} msg remains.

Definition failure_text {D : Type} (failure : write_failure D) : string :=
  match failure with
  | AtOpen msg => msg
  | AfterOpen msg _ => msg
  end.

(** The cache directory: the file of each key, if there is one, and the
    way in which a write fails, if writes fail. *)
Record disk (D : Type) : Type := mkDisk {
  files : string -> option (cache_file D);
  write_error : option (write_failure D)
}.
Arguments mkDisk {D} files write_error.
Arguments files {D} d.
Arguments write_error {D} d.

(** A [datetime] by its time in seconds: naive, as [datetime.now()] and
    what [fromisoformat] reads from a text without a UTC offset are, or
    aware, as what it reads from a text with an offset is. *)
Inductive datetime : Type :=
| Naive (seconds : Q)
| Aware (seconds utcoffset : Q).

Section Cache.
Context {D : Type}.
(** [datetime.fromisoformat], [None] where it raises [ValueError];
    [datetime.isoformat] of a naive time; [datetime.now()], which is
    naive, in seconds. *)
Variable fromisoformat : string -> option datetime.
Variable isoformat : Q -> string.
Variable now : Q.

(** [if not timestamp] is not taken. *)
Definition is_true (timestamp : option timestamp_value) : bool :=
  match timestamp with
  | None => false
  | Some (TsText s) => negb (is_empty s)
  | Some (TsOther b) => b
  end.

(** The body of the [try] of [get_cached_data]. *)
Definition read_cache_file (cache_key : string) (expiry_seconds : Q)
    (f : cache_file D) : comp (disk D) (option D) :=
  match f with
  | Unreadable msg => raise (mkExn OSError msg)
  | NotUtf8 msg => raise (mkExn UnicodeDecodeError msg)
  | Malformed msg => raise (mkExn JSONDecodeError msg)
  | NotAnObject => raise (mkExn AttributeError "object has no attribute 'get'")
  | Object timestamp data =>
      if negb (is_true timestamp) then ret None
      else
        match timestamp with
        | Some (TsText s) =>
            match fromisoformat s with
            | None => raise (mkExn ValueError ("Invalid isoformat string: " ++ s))
            | Some (Naive cache_time) =>
                if negb (Qle_bool (now - cache_time) expiry_seconds)
                then (logger DEBUG ("Cache expired for key: " ++ cache_key) ;;;
                      ret None)%comp
                else (logger DEBUG ("Cache hit for key: " ++ cache_key) ;;;
                      ret data)%comp
            | Some (Aware _ _) =>
                raise (mkExn TypeError
                         "can't subtract offset-naive and offset-aware datetimes")
            end
        | _ => raise (mkExn TypeError "fromisoformat: argument must be str")
        end
  end.

Definition get_cached_data (cache_key : string) (expiry_seconds : Q)
    : comp (disk D) (option D) :=
  (d <- read ;;
   match files d cache_key with
   | None => ret None
   | Some f =>
       try_except (read_cache_file cache_key expiry_seconds f)
         [JSONDecodeError; OSError]
         (fun e => logger ERROR ("Error reading cache: " ++ str e) ;;; ret None)
   end)%comp.

(** [save_to_cache]; creating the directory is taken to succeed, the
    write fails with [IOError] when the disk says so, and a write that
    fails after [open] leaves the file of the key with what got
    written. *)
Definition save_to_cache (data : D) (cache_key : string)
    : comp (disk D) bool :=
  (d <- read ;;
   match write_error d with
   | None =>
       write (mkDisk
                (fun k => if String.eqb k cache_key
                          then Some (Object (Some (TsText (isoformat now)))
                                            (Some data))
                          else files d k)
                None) ;;;
       logger DEBUG ("Data saved to cache: " ++ cache_key) ;;;
       ret true
   | Some failure =>
       match failure with
       | AtOpen _ => ret tt
       | AfterOpen _ remains =>
           write (mkDisk
                    (fun k => if String.eqb k cache_key then Some remains
                              else files d k)
                    (write_error d))
       end ;;;
       logger ERROR ("Error saving to cache: " ++ failure_text failure) ;;;
       raise (mkExn CacheError
                ("Failed to save data to cache: " ++ failure_text failure))
   end)%comp.

End Cache.

(* ================================================================== *)
(** ** [DataCollector._collect_from_platform] *)
(* ================================================================== *)

(** [_normalize_data]: listings without a name or a price are skipped,
    the others get the keys of the common format. *)
Definition _normalize_data (products : list product) (platform_name : string)
    : list product :=
  map (fun p =>
         mkProduct (Some (get (name p) "")) (Some (get (price p) 0%Q))
                   (rating p) (Some (get (review_count p) 0%Z))
                   (Some (get (features p) [])) (Some platform_name)
                   None None None None None None)
      (filter (fun p =>
                 negb (is_empty (get (name p) ""))
                 && match price p with
                    | Some pr => negb (Qeq_bool pr 0)
                    | None => false
                    end)
              products).

Section Collector.
Variable cfg : config.
Variable fromisoformat : string -> option datetime.
Variable isoformat : Q -> string.
Variable now : Q.
(** [self.scraper.scrape_amazon] and [self.scraper.scrape_flipkart]. *)
Variable scrape_amazon : string -> result (list product).
Variable scrape_flipkart : string -> result (list product).
(** [self.mock_data_provider.get_products(product_type, budget,
    preferences)] for the three that lines 87 to 103 read off the query. *)
Variable mock_products_for : string -> list product.

(** [[p for p in mock_products if p['platform'].lower() == platform.lower()]] *)
Definition on_platform (platform_name : string) (products : list product)
    : list product :=
  filter (fun p => String.eqb (lower (get (platform p) "")) (lower platform_name))
         products.

(** A call of the scraper inside a computation. *)
Definition scrape {X : Type} (r : result (list product))
    : comp X (list product) :=
  fun st => (st, r).

(** The part of the [try] behind the scrape. *)
Definition store_scraped (platform_name query cache_key : string)
    (products : list product) : comp (disk (list product)) (list product) :=
  (let normalized_products := _normalize_data products platform_name in
   normalized_products <-
     (if match normalized_products with [] => true | _ => false end
      then
        logger INFO ("No products found from " ++ platform_name
                     ++ ", using mock data") ;;;
        ret (on_platform platform_name (mock_products_for query))
      else ret normalized_products) ;;
   save_to_cache isoformat now normalized_products cache_key ;;;
   ret normalized_products)%comp.

Definition _collect_from_platform (platform_name query : string)
    : comp (disk (list product)) (list product) :=
  (logger INFO ("Collecting data from " ++ platform_name
                ++ " with query: " ++ query) ;;;
   let cache_key := generate_cache_key query platform_name in
   cached_data <- get_cached_data fromisoformat now cache_key (CACHE_EXPIRY cfg) ;;
   match cached_data with
   | Some (p :: l) =>
       logger INFO ("Using cached data for " ++ platform_name) ;;;
       ret (p :: l)
   | _ =>
       try_except
         (if String.eqb platform_name "amazon" then
            products <- scrape (scrape_amazon query) ;;
            store_scraped platform_name query cache_key products
          else if String.eqb platform_name "flipkart" then
            products <- scrape (scrape_flipkart query) ;;
            store_scraped platform_name query cache_key products
          else
            logger WARNING ("Unsupported platform: " ++ platform_name) ;;;
            ret [])
         [ScrapingError]
         (fun e =>
            logger ERROR ("Error collecting data from " ++ platform_name
                          ++ ": " ++ str e) ;;;
            logger INFO ("Using mock data for " ++ platform_name
                         ++ " due to scraping error") ;;;
            let mock_products :=
              on_platform platform_name (mock_products_for query) in
            save_to_cache isoformat now mock_products cache_key ;;;
            ret mock_products)
   end)%comp.

End Collector.

(* ================================================================== *)
(** ** [RecommendationEngine] *)
(* ================================================================== *)

(** The engine holds its analyzer in [self.analyzer] and only calls its
    methods; it is embedded over any analyzer.  [P] is what the engine is
    handed as a product, [W] is everything a call of the analyzer may
    change (the products included); each method may raise. *)
Record analyzer (P W : Type) : Type := mkAnalyzer {
  rank_products_of : list P -> Q -> list string -> W -> W * result (list P);
  extract_key_features_of : P -> list string -> W -> W * result (list string);
  explain_recommendation_of : P -> Q -> list string -> W -> W * result string
}.
Arguments rank_products_of {P W} a.
Arguments extract_key_features_of {P W} a.
Arguments explain_recommendation_of {P W} a.

Record recommendation (P : Type) : Type := mkRecommendation {
  product_of : P;
  key_features : list string;
  explanation : string
}.
Arguments mkRecommendation {P} product_of key_features explanation.

(** The dict [alternatives] and its two blocks. *)
Record budget_block (P : Type) : Type := mkBudgetBlock {
  block_budget : Q;
  budget_recommendations : list (recommendation P)
}.
Arguments mkBudgetBlock {P} block_budget budget_recommendations.

Record preference_block (P : Type) : Type := mkPreferenceBlock {
  block_preferences : list string;
  preference_recommendations : list (recommendation P)
}.
Arguments mkPreferenceBlock {P} block_preferences preference_recommendations.

Record alternatives (P : Type) : Type := mkAlternatives {
  increased_budget : option (budget_block P);
  alternative_products : option (preference_block P);
  suggestions : list string
}.
Arguments mkAlternatives {P} increased_budget alternative_products suggestions.
Arguments increased_budget {P} a.
Arguments alternative_products {P} a.
Arguments suggestions {P} a.

Section Engine.
Context {P W : Type}.
Variable self_analyzer : analyzer P W.
(** [self.top_count] *)
Variable top_count : nat.
(** [format_currency] of [utils/helpers.py]; it formats a float and may
    raise on one whose text has no decimal point. *)
Variable format_currency : Q -> result string.

(** A call of a method of the analyzer; [L] is the local object of the
    caller, which the call leaves alone. *)
Definition call {L A : Type} (method : W -> W * result A) : comp (W * L) A :=
  fun st =>
    let (w, l) := store st in
    let (w', r) := method w in
    (mkState (w', l) (log st), r).

Definition eval {L A : Type} (r : result A) : comp (W * L) A :=
  fun st => (st, r).

(** The loop that wraps each of the top products. *)
Fixpoint recommend_each {L : Type} (top_products : list P) (budget : Q)
    (preferences : list string) : comp (W * L) (list (recommendation P)) :=
  match top_products with
  | [] => ret []
  | product :: rest =>
      (key_features <-
         call (extract_key_features_of self_analyzer product preferences) ;;
       explanation <-
         call (explain_recommendation_of self_analyzer product budget preferences) ;;
       recommendations <- recommend_each rest budget preferences ;;
       ret (mkRecommendation product key_features explanation
              :: recommendations))%comp
  end.

Definition generate_recommendations {L : Type} (products : list P)
    (budget : Q) (preferences : list string)
    : comp (W * L) (list (recommendation P)) :=
  (logger INFO "Generating recommendations" ;;;
   match products with
   | [] =>
       logger WARNING "No products to recommend" ;;;
       raise (mkExn NoResultsError "No products found matching your criteria")
   | _ =>
       ranked_products <-
         call (rank_products_of self_analyzer products budget preferences) ;;
       match ranked_products with
       | [] =>
           logger WARNING "No products after ranking" ;;;
           raise (mkExn NoResultsError "No products found within your budget")
       | _ =>
           let top_products := firstn top_count ranked_products in
           recommendations <- recommend_each top_products budget preferences ;;
           logger INFO ("Generated " ++ str_of_nat (length recommendations)
                        ++ " recommendations") ;;;
           ret recommendations
       end
   end)%comp.

(** Reading and writing the dict [alternatives]. *)
Definition the_alternatives : comp (W * alternatives P) (alternatives P) :=
  fun st => (st, Return (snd (store st))).

Definition update (f : alternatives P -> alternatives P)
    : comp (W * alternatives P) unit :=
  fun st =>
    (mkState (fst (store st), f (snd (store st))) (log st), Return tt).

Definition set_increased_budget (b : budget_block P) (a : alternatives P) :=
  mkAlternatives (Some b) (alternative_products a) (suggestions a).

Definition set_alternative_products (b : preference_block P)
    (a : alternatives P) :=
  mkAlternatives (increased_budget a) (Some b) (suggestions a).

Definition append_suggestion (text : string) (a : alternatives P) :=
  mkAlternatives (increased_budget a) (alternative_products a)
                 (suggestions a ++ [text]).

(** The body of the first [try]: ranking with the raised budget. *)
Definition increased_budget_attempt (products : list P)
    (budget increased : Q) (preferences : list string)
    : comp (W * alternatives P) unit :=
  (ranked_products <-
     call (rank_products_of self_analyzer products increased preferences) ;;
   match ranked_products with
   | [] => ret tt
   | _ =>
       let top_products := firstn 3 ranked_products in
       recommendations <- recommend_each top_products budget preferences ;;
       update (set_increased_budget (mkBudgetBlock increased recommendations)) ;;;
       amount <- eval (format_currency increased) ;;
       update (append_suggestion
                 ("Consider increasing your budget to " ++ amount
                  ++ " to get better options."))
   end)%comp.

(** The body of the second [try]: ranking with the first preference
    alone. *)
Definition reduced_preferences_attempt (products : list P) (budget : Q)
    (first_preference : string) : comp (W * alternatives P) unit :=
  (let reduced_preferences := [first_preference] in
   ranked_products <-
     call (rank_products_of self_analyzer products budget reduced_preferences) ;;
   match ranked_products with
   | [] => ret tt
   | _ =>
       let top_products := firstn 3 ranked_products in
       recommendations <-
         recommend_each top_products budget reduced_preferences ;;
       update (set_alternative_products
                 (mkPreferenceBlock reduced_preferences recommendations)) ;;;
       update (append_suggestion
                 ("Consider prioritizing only your most important preference: "
                  ++ first_preference ++ "."))
   end)%comp.

(** The statement [if budget > 0: ... try: ... except Exception as e: ...] *)
Definition increased_budget_block (products : list P) (budget : Q)
    (preferences : list string) : comp (W * alternatives P) unit :=
  if negb (Qle_bool budget 0) then
    let increased := (budget * (12 # 10))%Q in
    try_except_Exception
      (increased_budget_attempt products budget increased preferences)
      (fun e =>
         logger ERROR ("Error generating increased budget alternatives: "
                       ++ str e))
  else ret tt.

(** The statement [if preferences and len(preferences) > 1: ... try: ...
    except Exception as e: ...] *)
Definition reduced_preferences_block (products : list P) (budget : Q)
    (preferences : list string) : comp (W * alternatives P) unit :=
  match preferences with
  | first_preference :: _ :: _ =>
      try_except_Exception
        (reduced_preferences_attempt products budget first_preference)
        (fun e =>
           logger ERROR ("Error generating reduced preference alternatives: "
                         ++ str e))
  | _ => ret tt
  end.

(** The statement [if not alternatives['increased_budget'] and not
    alternatives['alternative_products']: ...] *)
Definition general_suggestions : comp (W * alternatives P) unit :=
  (current <- the_alternatives ;;
   match increased_budget current, alternative_products current with
   | None, None =>
       update (append_suggestion
                 "Try searching for a different product category or model.") ;;;
       update (append_suggestion
                 "Consider waiting for sales or discounts if your budget is fixed.")
   | _, _ => ret tt
   end)%comp.

Definition generate_alternatives (products : list P) (budget : Q)
    (preferences : list string)
    : comp (W * alternatives P) (alternatives P) :=
  (logger INFO "Generating alternatives" ;;;
   update (fun _ => mkAlternatives None None []) ;;;
   match products with
   | [] =>
       update (append_suggestion
                 "No products found. Try a different search term or check your spelling.") ;;;
       the_alternatives
   | _ =>
       increased_budget_block products budget preferences ;;;
       reduced_preferences_block products budget preferences ;;;
       general_suggestions ;;;
       logger INFO "Generated alternatives and suggestions" ;;;
       the_alternatives
   end)%comp.

(** What [ShoppingAssistant.search] hands to the formatter. *)
Inductive response : Type :=
| FormatRecommendations (recommendations : list (recommendation P))
| FormatAlternatives (a : alternatives P)
| FormatError (message : string).

(** [self.data_collector.collect_reviews] *)
Variable collect_reviews : list P -> W -> W * result (list P).

(** [ShoppingAssistant.search] from the collected products on: its inner
    [try], with the formatter calls left as they are made. *)
Definition search (products : list P) (budget : Q)
    (preferences : list string) : comp (W * alternatives P) response :=
  try_except
    (match products with
     | [] =>
         logger WARNING "No products found" ;;;
         unused <- generate_alternatives [] budget preferences ;;
         ret (FormatError "No products found matching your criteria.")
     | _ =>
         logger INFO "Collecting reviews for products" ;;;
         products_with_reviews <- call (collect_reviews products) ;;
         recommendations <-
           generate_recommendations products_with_reviews budget preferences ;;
         logger INFO "Search completed successfully" ;;;
         ret (FormatRecommendations recommendations)
     end)%comp
    [NoResultsError]
    (fun e =>
       logger WARNING ("No results: " ++ str e) ;;;
       a <- generate_alternatives products budget preferences ;;
       ret (FormatAlternatives a))%comp.

End Engine.

(* ================================================================== *)
(** ** Sample listings *)
(* ================================================================== *)

(** A listing as the collector hands it over: name, price, features and
    platform, no derived key yet. *)
Definition listing (n : string) (pr : Q) (fs : list string) : product :=
  mkProduct (Some n) (Some pr) None None (Some fs) (Some "amazon")
            None None None None None None.

Definition sample_products : list product :=
  [ listing "Alpha" 90 []; listing "Bravo" 108 []; listing "Charlie" 300 [];
    listing "Delta" 104 []; listing "Echo" 40 []; listing "Foxtrot" 101 [] ].

(** A listing that already carries the mark of an earlier, tighter
    budget: it was filtered once with a budget it exceeded. *)
Definition stale_listing : product :=
  set_over_budget (listing "Golf" 10 []).

(* ================================================================== *)
(** ** Statements that are compared with the code *)
(* ================================================================== *)

(** The layout of the result of the budget filter as stated for it:
    within-budget products first, in input order, then the backfill in
    ascending price; over-budget products marked, within-budget products
    without a mark. *)
Definition filter_layout_claim : Prop :=
  forall cfg products budget,
    let out := filter_by_budget cfg products budget in
    exists backfill,
      out = primary_pool products budget ++ backfill
      /\ StronglySorted no_dearer backfill
      /\ Forall (fun p => within budget p = false -> over_budget p = Some true) out
      /\ Forall (fun p => within budget p = true -> over_budget p = None) out.

(** The price score as stated for it: the formula of the specification
    for every ranked product with a price that is not negative. *)
Definition price_score_claim : Prop :=
  forall cfg log10 products budget preferences p pr,
    (0 < budget)%Q ->
    In p (rank_products cfg log10 products budget preferences) ->
    price p = Some pr -> (0 <= pr)%Q ->
    exists s, price_score p = Some s /\ (s == spec_price_score (pr / budget))%Q.

Definition free_sample : product := listing "Free sample" 0 [].

(** The listing a product was made from: the keys the collector wrote,
    without the keys the analyzer adds. *)
Definition erase_derived (p : product) : product :=
  mkProduct (name p) (price p) (rating p) (review_count p) (features p)
            (platform p) None None None None None None.

(** [s] picks elements of [l] from left to right. *)
Inductive subseq {A : Type} : list A -> list A -> Prop :=
| subseq_nil : subseq [] []
| subseq_skip x s l : subseq s l -> subseq s (x :: l)
| subseq_take x s l : subseq s l -> subseq (x :: s) (x :: l).

Definition has_combined (k : Q) (p : product) : bool :=
  Qeq_bool (combined_of p) k.

(** Stability of the ranking as stated for it: the products that share a
    combined score stand in the ranking in the order of the input list. *)
Definition ranking_keeps_input_order : Prop :=
  forall cfg log10 products budget preferences k,
    subseq
      (map erase_derived
         (filter (has_combined k)
            (rank_products cfg log10 products budget preferences)))
      (map erase_derived products).

(** Two listings with the same combined score for the budget 64 and the
    preference "gaming laptop": the first is over the budget and matches
    half of the preference, the second is well within the budget. *)
Definition tie_products : list product :=
  [ listing "Gaming Notebook" 68 []; listing "Plain Tablet" 16 [] ].

(** What [score_by_preferences] does to one product. *)
Definition with_preferences (preferences : list string) (p : product) : product :=
  match preferences with
  | [] => set_preferences p 0 []
  | _ =>
      let (score, matched) :=
        fold_left (preference_step (product_text p)) preferences (0%Q, []) in
      set_preferences p score matched
  end.

(** A listing whose name carries a technical detail and a parenthesis. *)
Definition phone : product :=
  listing "Phone 128GB (Black, 5G)" 900 ["OLED display"].

(** [extract_key_features] leaves the product as it found it. *)
Definition extract_key_features_pure : Prop :=
  forall p preferences, snd (extract_key_features p preferences) = p.

(** An analyzer every method of which raises, as a test double. *)
Definition failing_analyzer : analyzer product unit :=
  mkAnalyzer product unit
    (fun _ _ _ w => (w, Raise (mkExn AnalysisError "ranking failed")))
    (fun _ _ w => (w, Raise (mkExn AnalysisError "no features")))
    (fun _ _ _ w => (w, Raise (mkExn AnalysisError "no explanation"))).

(** An analyzer that counts the calls of its methods and ranks the
    products as they come. *)
Definition counting_analyzer : analyzer product nat :=
  mkAnalyzer product nat
    (fun products _ _ calls => (S calls, Return products))
    (fun p _ calls => (S calls, Return (get (features p) [])))
    (fun _ _ _ calls => (S calls, Return "Within your budget")).

Definition fresh {X : Type} (x : X) : state X := mkState x [].

Definition no_alternatives : alternatives product := mkAlternatives None None [].

(** [get_cached_data] reports every state of the cache directory as a
    hit or a miss and never raises. *)
Definition get_cached_data_never_raises : Prop :=
  forall (D : Type) fromisoformat now cache_key expiry_seconds
         (st : state (disk D)),
    exists st' outcome,
      get_cached_data fromisoformat now cache_key expiry_seconds st
      = (st', Return outcome).

(** A cache directory with one file, under the key [k]. *)
Definition one_file {D : Type} (k : string) (f : cache_file D) : disk D :=
  mkDisk (fun k' => if String.eqb k' k then Some f else None) None.

(** A cache write that fails changes nothing in what the collector
    returns. *)
Definition cache_write_failure_swallowed : Prop :=
  forall cfg fromisoformat isoformat now scrape_amazon scrape_flipkart
         mock_products_for platform_name query files failure entries,
    snd (_collect_from_platform cfg fromisoformat isoformat now scrape_amazon
           scrape_flipkart mock_products_for platform_name query
           (mkState (mkDisk files (Some failure)) entries))
    = snd (_collect_from_platform cfg fromisoformat isoformat now scrape_amazon
             scrape_flipkart mock_products_for platform_name query
             (mkState (mkDisk files None) entries)).

Definition empty_disk : disk (list product) := mkDisk (fun _ => None) None.

(** A disk without space: [open] creates the file, the write fails and
    leaves it empty, which is no JSON. *)
Definition full_disk : disk (list product) :=
  mkDisk (fun _ => None)
         (Some (AfterOpen "[Errno 28] No space left on device"
                  (Malformed "Expecting value: line 1 column 1 (char 0)"))).

(** A scraper that finds one listing on Amazon and fails on Flipkart. *)
Definition sample_scrape_amazon (query : string) : result (list product) :=
  Return [listing "Alpha" 90 []].

Definition sample_scrape_flipkart (query : string) : result (list product) :=
  Raise (mkExn NetworkError "connection refused").

(** A computation that comes back with a value from every state. *)
Definition returns {X A : Type} (m : comp X A) : Prop :=
  forall st, exists st' a, m st = (st', Return a).

(** A computation that comes back, from every state, with the dict
    [alternatives] as it then is. *)
Definition yields_alternatives {P W : Type}
    (m : comp (W * alternatives P) (alternatives P)) : Prop :=
  forall st, exists st', m st = (st', Return (snd (store st'))).

Arguments product_of {P} r.
Arguments block_budget {P} b.
Arguments budget_recommendations {P} b.
Arguments block_preferences {P} p.
Arguments preference_recommendations {P} p.

(** The two methods the engine calls for each recommendation come back
    with a value, whatever they are called with. *)
Definition methods_return {P W : Type} (a : analyzer P W) : Prop :=
  (forall p preferences w, exists w' key,
      extract_key_features_of a p preferences w = (w', Return key))
  /\ (forall p budget preferences w, exists w' text,
         explain_recommendation_of a p budget preferences w = (w', Return text)).

(** A computation under which a property of the dict [alternatives]
    stays true, also when the computation raises. *)
Definition keeps {P W A : Type} (I : alternatives P -> Prop)
    (m : comp (W * alternatives P) A) : Prop :=
  forall st st' r, m st = (st', r) -> I (snd (store st)) -> I (snd (store st')).

(** What the two blocks of the dict [alternatives] look like when they
    are there. *)
Definition blocks_ok {P : Type} (budget : Q) (preferences : list string)
    (a : alternatives P) : Prop :=
  (forall b, increased_budget a = Some b ->
     (0 < budget)%Q
     /\ block_budget b = (budget * (12 # 10))%Q
     /\ length (budget_recommendations b) <= 3)
  /\ (forall b, alternative_products a = Some b ->
        exists first second rest,
          preferences = first :: second :: rest
          /\ block_preferences b = [first]
          /\ length (preference_recommendations b) <= 3).

(** A block of the dict comes with a suggestion, but for the block of
    the increased budget when formatting the amount, of which [amount] is
    the outcome, raised. *)
Definition suggested {P : Type} (amount : result string)
    (a : alternatives P) : Prop :=
  (alternative_products a <> None -> suggestions a <> [])
  /\ (increased_budget a <> None ->
      suggestions a <> [] \/ exists e, amount = Raise e).

(* ================================================================== *)
(** ** [sanitize_query] *)
(* ================================================================== *)

(** [re.sub(r'[^\w\s]', ' ', query)] *)
Fixpoint blank_special (s : string) : string :=
  match s with
  | EmptyString => EmptyString
  | String c s' =>
      String (if is_word c || is_space c then c else " "%char) (blank_special s')
  end.

(** [re.sub(r'\s+', ' ', s)]; [in_run] says that the character in front
    was white space. *)
Fixpoint squeeze_from (in_run : bool) (s : string) : string :=
  match s with
  | EmptyString => EmptyString
  | String c s' =>
      if is_space c
      then (if in_run then squeeze_from true s'
            else String " "%char (squeeze_from true s'))
      else String c (squeeze_from false s')
  end.

Definition squeeze (s : string) : string := squeeze_from false s.

Definition sanitize_query (query : string) : string :=
  strip (squeeze (blank_special query)).

(** Text made of word characters and single spaces: [after_space] says
    that a space may not come next. *)
Fixpoint spaced (after_space : bool) (s : string) : bool :=
  match s with
  | EmptyString => true
  | String c s' =>
      if Ascii.eqb c " "%char then negb after_space && spaced true s'
      else is_word c && spaced false s'
  end.

Fixpoint ends_with_space (s : string) : bool :=
  match s with
  | EmptyString => false
  | String c EmptyString => Ascii.eqb c " "%char
  | String _ s' => ends_with_space s'
  end.

(** Words of word characters, one space between two of them, no space at
    either end. *)
Definition tidy (s : string) : bool :=
  spaced true s && negb (ends_with_space s).

(* ================================================================== *)
(** ** [extract_price] *)
(* ================================================================== *)

Definition is_digit_or_comma (c : ascii) : bool :=
  is_digit c || Ascii.eqb c ","%char.

(** [re.search(r'[\d,]+\.?\d*', s).group()]: the match starts at the
    first digit or comma and takes all it can; [None] when there is no
    digit and no comma. *)
Fixpoint price_match (s : string) : option string :=
  match s with
  | EmptyString => None
  | String c s' =>
      if is_digit_or_comma c then
        let (head, rest) := span is_digit_or_comma s in
        match rest with
        | String "."%char r =>
            let (fraction, _) := span is_digit r in
            Some (head ++ String "."%char fraction)%string
        | _ => Some head
        end
      else price_match s'
  end.

(** [s.replace(',', '')] *)
Fixpoint remove_commas (s : string) : string :=
  match s with
  | EmptyString => EmptyString
  | String c s' =>
      if Ascii.eqb c ","%char then remove_commas s'
      else String c (remove_commas s')
  end.

Fixpoint all_digits (s : string) : bool :=
  match s with
  | EmptyString => true
  | String c s' => is_digit c && all_digits s'
  end.

Fixpoint digits_value (acc : Z) (s : string) : Z :=
  match s with
  | EmptyString => acc
  | String c s' => digits_value (10 * acc + (Z.of_nat (nat_of_ascii c) - 48)) s'
  end.

(** A Python float: a number that a double holds, an infinity, or
    NaN. *)
Inductive pyfloat : Type :=
| Real (q : Q)
| PosInf
| NegInf
| NaN.

(** [n / d] rounded to the nearest integer, a tie to the even one, for
    [0 <= n] and [0 < d]. *)
Definition round_half_even (n d : Z) : Z :=
  let q := (n / d)%Z in
  match (2 * (n mod d) ?= d)%Z with
  | Lt => q
  | Gt => (q + 1)%Z
  | Eq => if Z.even q then q else (q + 1)%Z
  end.

(** [n / d < 2 ^ e] *)
Definition scaled_lt (n d e : Z) : bool :=
  if (0 <=? e)%Z then (n <? d * 2 ^ e)%Z else (n * 2 ^ (- e) <? d)%Z.

(** [n / d / 2 ^ shift], rounded. *)
Definition scaled_round (n d shift : Z) : Z :=
  if (0 <=? shift)%Z then round_half_even n (d * 2 ^ shift)
  else round_half_even (n * 2 ^ (- shift)) d.

(** [m * 2 ^ shift], in lowest terms. *)
Definition scaled (m shift : Z) : Q :=
  Qred (if (0 <=? shift)%Z then inject_Z (m * 2 ^ shift)
        else Qmake m (Z.to_pos (2 ^ (- shift)))).

(** The double nearest to [n / d], for [0 < n] and [0 < d]: a mantissa
    of 53 bits, rounded to even on a tie, with an exponent of at least
    -1074, and infinity when the rounded value reaches [2 ^ 1024].  [e]
    is the exponent of [n / d], the floor of its binary logarithm. *)
Definition nearest_double (n d : Z) : pyfloat :=
  let e0 := (Z.log2 n - Z.log2 d)%Z in
  let e := if scaled_lt n d e0 then (e0 - 1)%Z else e0 in
  let shift := Z.max (e - 52) (-1074) in
  let m := scaled_round n d shift in
  if (971 <? shift)%Z || ((shift =? 971)%Z && (m =? 2 ^ 53)%Z) then PosInf
  else Real (scaled m shift).

(** The float nearest to a rational, as the conversions of Python give
    it. *)
Definition float_of_Q (x : Q) : pyfloat :=
  match Qnum x with
  | Z0 => Real 0
  | Zpos n => nearest_double (Zpos n) (Zpos (Qden x))
  | Zneg n =>
      match nearest_double (Zpos n) (Zpos (Qden x)) with
      | Real q => Real (- q)
      | _ => NegInf
      end
  end.

(** [float(n)] for an int, which raises [OverflowError] where the
    nearest double would be an infinity. *)
Definition float_of_int (n : Z) : result pyfloat :=
  match float_of_Q (inject_Z n) with
  | Real q => Return (Real q)
  | _ => Raise (mkExn OverflowError "int too large to convert to float")
  end.

(** The number that a text of digits and points spells: the value of
    the digits with at most one point, and [None], where [float] raises
    [ValueError], when there are two points or no digit. *)
Definition decimal_value (text : string) : option Q :=
  let (whole, rest) := span is_digit text in
  match rest with
  | EmptyString =>
      if is_empty whole then None else Some (inject_Z (digits_value 0 whole))
  | String "."%char fraction =>
      if all_digits fraction && negb (is_empty whole && is_empty fraction)
      then Some (inject_Z (digits_value 0 whole)
                 + inject_Z (digits_value 0 fraction)
                   / inject_Z (10 ^ Z.of_nat (String.length fraction)))%Q
      else None
  | _ => None
  end.

(** [float(text)] for a text of digits and points, which is all its
    callers here hand it: the double nearest to the number the text
    spells, infinity for a number too large, and [None] for
    [ValueError]. *)
Definition float_of_decimal (text : string) : option pyfloat :=
  option_map float_of_Q (decimal_value text).

Definition extract_price (price_str : option string) : option pyfloat :=
  match price_str with
  | None => None
  | Some s =>
      if is_empty s then None
      else match price_match s with
           | None => None
           | Some found => float_of_decimal (remove_commas found)
           end
  end.

(* ================================================================== *)
(** ** [format_currency] *)
(* ================================================================== *)

(** The rupee sign, as its three bytes in UTF-8. *)
Definition rupee : string :=
  String (ascii_of_nat 226) (String (ascii_of_nat 130)
    (String (ascii_of_nat 185) EmptyString)).

(** [s.split('.')] *)
Fixpoint split_points_from (piece s : string) : list string :=
  match s with
  | EmptyString => [piece]
  | String c s' =>
      if Ascii.eqb c "."%char then piece :: split_points_from "" s'
      else split_points_from (piece ++ String c "") s'
  end.

Definition split_points (s : string) : list string := split_points_from "" s.

(** [s[start:stop]] with the indices of Python: a negative index counts
    from the end, and indices beyond the ends are cut. *)
Definition py_slice (s : string) (start stop : Z) : string :=
  let len := Z.of_nat (String.length s) in
  let norm := fun i : Z => if (i <? 0)%Z then Z.max 0 (i + len) else Z.min i len in
  let a := norm start in
  let b := norm stop in
  if (a <? b)%Z then substring (Z.to_nat a) (Z.to_nat (b - a)) s
  else EmptyString.

(** [range(n, 0, -2)] *)
Fixpoint down_by_two (n : nat) : list nat :=
  match n with
  | O => []
  | S O => [1]
  | S (S k) => n :: down_by_two k
  end.

(** [y.ljust(2, '0')] *)
Definition ljust2 (y : string) : string :=
  match y with
  | EmptyString => "00"
  | String c EmptyString => String c "0"
  | _ => y
  end.

(** The function from [x, y = ....split('.')] on; the unpacking raises
    [ValueError] unless there are exactly two pieces. *)
Definition format_currency_text (text : string) : result string :=
  match split_points text with
  | [x; y] =>
      let x := remove_commas x in
      let lastthree := py_slice x (-3) (Z.of_nat (String.length x)) in
      let other := py_slice x 0 (-3) in
      let formatted :=
        if is_empty other then lastthree
        else (String.concat ""
                (map (fun i => py_slice other (Z.of_nat i - 2) (Z.of_nat i) ++ ",")
                     (down_by_two (String.length other)))
              ++ lastthree)%string in
      Return (rupee ++ formatted ++ "." ++ ljust2 y)%string
  | [_] => Raise (mkExn ValueError "not enough values to unpack (expected 2, got 1)")
  | _ => Raise (mkExn ValueError "too many values to unpack (expected 2)")
  end.

(** [format_currency]; [float_text] is [str(round(float(amount), 2))],
    the text Python gives a float. *)
Definition format_currency (float_text : Q -> string) (amount : option Q)
    : result string :=
  match amount with
  | None => Return "N/A"
  | Some a => format_currency_text (float_text a)
  end.

Fixpoint count_points (s : string) : nat :=
  match s with
  | EmptyString => 0
  | String c s' => (if Ascii.eqb c "."%char then 1 else 0) + count_points s'
  end.

(* ================================================================== *)
(** ** [retry_with_backoff] *)
(* ================================================================== *)

Section Retry.
Context {W A : Type}.
(** [func], which works on [W]; the computation also keeps the list of
    the delays it slept, in order. *)
Variable func : W -> W * result A.
Variable max_retries : nat.
Variable backoff_factor : Q.

(** [time.sleep(delay)], which raises [ValueError] for a negative
    delay. *)
Definition sleep (delay : Q) : comp (W * list Q) unit :=
  fun st =>
    if Qle_bool 0 delay
    then (mkState (fst (store st), snd (store st) ++ [delay]) (log st),
          Return tt)
    else (st, Raise (mkExn ValueError "sleep length must be non-negative")).

Definition call_func : comp (W * list Q) A :=
  fun st =>
    let (w', r) := func (fst (store st)) in
    (mkState (w', snd (store st)) (log st), r).

(** The [while retries < max_retries] loop; it is entered at most
    [max_retries] times, which is the fuel.  Falling out of the loop the
    function returns [None]. *)
Fixpoint retry_loop (fuel retries : nat) (delay : Q)
    : comp (W * list Q) (option A) :=
  match fuel with
  | O => ret None
  | S fuel' =>
      if retries <? max_retries then
        try_except_Exception
          (a <- call_func ;; ret (Some a))%comp
          (fun e =>
             let retries := S retries in
             if max_retries <=? retries then raise e
             else
               (logger WARNING
                  ("Retry " ++ str_of_nat retries ++ "/"
                   ++ str_of_nat max_retries ++ " after error: " ++ str e) ;;;
                sleep delay ;;;
                retry_loop fuel' retries (delay * backoff_factor)%Q)%comp)
      else ret None
  end.

Definition retry_with_backoff (initial_delay : Q)
    : comp (W * list Q) (option A) :=
  retry_loop max_retries 0 initial_delay.

End Retry.

(** The first [n] delays of a backoff that starts with [delay]: each is
    the one before times [factor]. *)
Fixpoint backoff_delays (factor : Q) (n : nat) (delay : Q) : list Q :=
  match n with
  | O => []
  | S k => delay :: backoff_delays factor k (delay * factor)%Q
  end.

(* ================================================================== *)
(** ** [RedditScraper._is_relevant] and [_analyze_sentiment] *)
(* ================================================================== *)

Definition _is_relevant (text product_name : string) : bool :=
  let text_lower := lower text in
  let product_lower := lower product_name in
  if contains product_lower text_lower then true
  else
    let product_parts := split product_lower in
    if 1 <? length product_parts then
      let matches :=
        length (filter (fun part => contains part text_lower) product_parts) in
      2 <=? matches
    else false.

Definition positive_words : list string :=
  [ "good"; "great"; "excellent"; "amazing"; "awesome"; "fantastic";
    "love"; "best"; "perfect"; "recommend"; "worth"; "happy"; "satisfied";
    "quality"; "reliable"; "durable"; "impressive"; "solid"; "nice" ].

Definition negative_words : list string :=
  [ "bad"; "poor"; "terrible"; "awful"; "horrible"; "worst";
    "hate"; "disappointing"; "disappointed"; "waste"; "regret"; "unhappy";
    "cheap"; "unreliable"; "break"; "broke"; "issue"; "problem"; "defective";
    "return"; "fail"; "failure"; "avoid" ].

(** [re.search(r'\b' + word + r'\b', s)] for a word of letters: the word
    stands somewhere in [s] with no word character in front of it and none
    behind it; [prev] is the character in front of [s]. *)
Fixpoint search_word (word : string) (prev : option ascii) (s : string) : bool :=
  (negb (match prev with Some c => is_word c | None => false end)
   && String.prefix word s
   && boundary_after (drop (String.length word) s))
  || match s with
     | EmptyString => false
     | String c s' => search_word word (Some c) s'
     end.

Definition count_words (words : list string) (text_lower : string) : nat :=
  length (filter (fun word => search_word word None text_lower) words).

(** [_analyze_sentiment]: the pair [(sentiment, rating)]. *)
Definition _analyze_sentiment (text : string) : Q * Q :=
  let text_lower := lower text in
  let positive_count := count_words positive_words text_lower in
  let negative_count := count_words negative_words text_lower in
  let total := positive_count + negative_count in
  let sentiment :=
    if total =? 0 then 0%Q
    else ((inject_Z (Z.of_nat positive_count)
           - inject_Z (Z.of_nat negative_count))
          / inject_Z (Z.of_nat total))%Q in
  let rating := (3 + sentiment * 2)%Q in
  (sentiment, Qmax 1 (Qmin 5 rating)).

(* ================================================================== *)
(** ** [InputProcessor] *)
(* ================================================================== *)

(** What a caller may hand to [process_input]: [None], a bool, an int,
    a float, a string, a list of such values, or another built-in value
    (a dict, a tuple, bytes), of which only the truth value matters. *)
#[local] Set Warnings "-register-all".
Inductive py_value : Type :=
| PyNone
| PyBool (b : bool)
| PyInt (n : Z)
| PyFloat (x : pyfloat)
| PyText (s : string)
| PyList (l : list py_value)
| PyOther (truthy : bool).

(** [not v] *)
Definition falsy (v : py_value) : bool :=
  match v with
  | PyNone => true
  | PyBool b => negb b
  | PyInt n => (n =? 0)%Z
  | PyFloat (Real q) => Qeq_bool q 0
  | PyFloat _ => false
  | PyText s => is_empty s
  | PyList l => match l with [] => true | _ => false end
  | PyOther truthy => negb truthy
  end.

Definition InputError_ (msg : string) : exn := mkExn InputError msg.

Definition _validate_product (product : py_value) : result unit :=
  if falsy product then Raise (InputError_ "Product cannot be empty")
  else
    match product with
    | PyText s =>
        if String.length (strip s) <? 2
        then Raise (InputError_ "Product must be at least 2 characters long")
        else Return tt
    | _ => Raise (InputError_ "Product must be a string")
    end.

(** [re.sub(r'[^\d.]', '', budget)] *)
Fixpoint keep_digits_and_points (s : string) : string :=
  match s with
  | EmptyString => EmptyString
  | String c s' =>
      if is_digit c || Ascii.eqb c "."%char
      then String c (keep_digits_and_points s')
      else keep_digits_and_points s'
  end.

(** [budget <= 0] for a number; a bool counts as the int 1 or 0, and no
    comparison with NaN holds. *)
Definition at_most_zero (budget : py_value) : bool :=
  match budget with
  | PyBool b => negb b
  | PyInt n => (n <=? 0)%Z
  | PyFloat (Real q) => Qle_bool q 0
  | PyFloat NegInf => true
  | _ => false
  end.

(** [_validate_budget]; the result is what it stores in [self.budget]. *)
Definition _validate_budget (budget : py_value) : result pyfloat :=
  if falsy budget then Raise (InputError_ "Budget cannot be empty")
  else
    let converted :=
      match budget with
      | PyText s =>
          match float_of_decimal (keep_digits_and_points s) with
          | Some x => Return (PyFloat x)
          | None => Raise (InputError_ ("Invalid budget format: " ++ s))
          end
      | _ => Return budget
      end in
    match converted with
    | Raise e => Raise e
    | Return budget =>
        match budget with
        | PyBool _ | PyInt _ | PyFloat _ =>
            if at_most_zero budget
            then Raise (InputError_ "Budget must be greater than zero")
            else
              (* [self.budget = float(budget)] *)
              match budget with
              | PyBool b => Return (Real (if b then 1 else 0))
              | PyInt n => float_of_int n
              | PyFloat x => Return x
              | _ => Raise (InputError_ "Budget must be a number")
              end
        | _ => Raise (InputError_ "Budget must be a number")
        end
    end.

(** The pieces between runs of separators, the empty ones dropped:
    [[p.strip() for p in re.split(r'[,\s]+', s.strip()) if p.strip()]]. *)
Fixpoint pieces_from (piece s : string) : list string :=
  match s with
  | EmptyString => if is_empty piece then [] else [piece]
  | String c s' =>
      if is_space c || Ascii.eqb c ","%char
      then (if is_empty piece then pieces_from "" s'
            else piece :: pieces_from "" s')
      else pieces_from (piece ++ String c "") s'
  end.

(** [[sanitize_query(pref) for pref in pref_list]]: [re.sub] raises
    [TypeError] on the first item that is no string (the text of the
    error differs between versions of Python). *)
Fixpoint sanitize_each (pref_list : list py_value) : result (list string) :=
  match pref_list with
  | [] => Return []
  | PyText pref :: rest =>
      match sanitize_each rest with
      | Return sanitized => Return (sanitize_query pref :: sanitized)
      | Raise e => Raise e
      end
  | _ :: _ => Raise (mkExn TypeError "expected string or bytes-like object")
  end.

(** [_process_preferences]; the result is what it stores in
    [self.preferences]. *)
Definition _process_preferences (preferences : py_value)
    : result (list string) :=
  if falsy preferences then Return []
  else
    match preferences with
    | PyText s => sanitize_each (map PyText (pieces_from "" (strip s)))
    | PyList l => sanitize_each l
    | _ => Raise (InputError_ "Preferences must be a string or list")
    end.

(** The dict [process_input] returns. *)
Record processed_input : Type := mkProcessed {
  input_product : string;
  input_budget : pyfloat;
  input_preferences : list string
}.

Definition process_input (product budget preferences : py_value)
    : result processed_input :=
  match _validate_product product with
  | Raise e => Raise e
  | Return _ =>
      let self_product :=
        match product with PyText s => sanitize_query s | _ => "" end in
      match _validate_budget budget with
      | Raise e => Raise e
      | Return self_budget =>
          match _process_preferences preferences with
          | Raise e => Raise e
          | Return self_preferences =>
              Return (mkProcessed self_product self_budget self_preferences)
          end
      end
  end.

(** A float greater than zero. *)
Definition float_positive (x : pyfloat) : Prop :=
  match x with
  | Real q => (0 < q)%Q
  | PosInf => True
  | _ => False
  end.

(** A float that is not negative. *)
Definition float_nonneg (x : pyfloat) : Prop :=
  match x with
  | Real q => (0 <= q)%Q
  | PosInf => True
  | _ => False
  end.

(* ################################################################## *)
(** * Properties *)
(* ################################################################## *)

(* ================================================================== *)
(** ** The stable sort *)
(* ================================================================== *)

Section StableSortFacts.
Context {A : Type}.
Variable before : A -> A -> bool.

Lemma insert_perm a l : Permutation (insert before a l) (a :: l).
Proof.
  induction l as [|b l IH]; simpl; [reflexivity|].
  destruct (before a b); [reflexivity|].
  rewrite IH. apply perm_swap.
Qed.

Lemma stable_sort_perm l : Permutation (stable_sort before l) l.
Proof.
  induction l as [|a l IH]; simpl; [constructor|].
  rewrite insert_perm. now constructor.
Qed.

Lemma stable_sort_length l : length (stable_sort before l) = length l.
Proof. apply Permutation_length, stable_sort_perm. Qed.

Lemma stable_sort_In x l : In x (stable_sort before l) <-> In x l.
Proof.
  split; apply Permutation_in;
    [apply stable_sort_perm | apply Permutation_sym, stable_sort_perm].
Qed.

(** Stability: the elements of a class whose members may all stand in
    front of one another come out in the order they went in. *)
Lemma insert_filter (P : A -> bool) a l :
  (forall x y, P x = true -> P y = true -> before x y = true) ->
  filter P (insert before a l) = filter P (a :: l).
Proof.
  intros HP. induction l as [|b l IH]; [reflexivity|].
  cbn [insert]. destruct (before a b) eqn:Hab; [reflexivity|].
  cbn [filter] in *. rewrite IH.
  destruct (P a) eqn:Ha; [|reflexivity].
  destruct (P b) eqn:Hb; [|reflexivity].
  rewrite (HP a b Ha Hb) in Hab. discriminate.
Qed.

Lemma stable_sort_filter (P : A -> bool) l :
  (forall x y, P x = true -> P y = true -> before x y = true) ->
  filter P (stable_sort before l) = filter P l.
Proof.
  intros HP. induction l as [|a l IH]; [reflexivity|].
  cbn [stable_sort fold_right]. fold (stable_sort before l).
  rewrite insert_filter by exact HP.
  cbn [filter]. now rewrite IH.
Qed.

Hypothesis before_total : forall a b, before a b = true \/ before b a = true.
Hypothesis before_trans :
  forall a b c, before a b = true -> before b c = true -> before a c = true.

Lemma insert_sorted a l :
  StronglySorted (ordered before) l ->
  StronglySorted (ordered before) (insert before a l).
Proof.
  induction 1 as [|b l Hs IH Hb]; simpl.
  - repeat constructor.
  - destruct (before a b) eqn:Hab.
    + constructor; [now constructor|].
      constructor; [exact Hab|].
      eapply Forall_impl; [|exact Hb].
      intros c Hc. eapply before_trans; eauto.
    + constructor; [exact IH|].
      assert (Hba : before b a = true)
        by (destruct (before_total a b); congruence).
      eapply Permutation_Forall; [symmetry; apply insert_perm|].
      now constructor.
Qed.

Lemma stable_sort_sorted l :
  StronglySorted (ordered before) (stable_sort before l).
Proof.
  induction l; simpl; [constructor | now apply insert_sorted].
Qed.

End StableSortFacts.

(* ================================================================== *)
(** ** The budget filter *)
(* ================================================================== *)

Lemma key_le_total a b : key_le a b = true \/ key_le b a = true.
Proof.
  destruct a as [x|], b as [y|]; simpl; auto.
  rewrite !Qle_bool_iff.
  destruct (Qlt_le_dec x y) as [H|H]; [left; now apply Qlt_le_weak | now right].
Qed.

Lemma key_le_trans a b c :
  key_le a b = true -> key_le b c = true -> key_le a c = true.
Proof.
  destruct a as [x|], b as [y|], c as [z|]; simpl; auto; try discriminate.
  rewrite !Qle_bool_iff. apply Qle_trans.
Qed.

Lemma by_price_total a b : by_price a b = true \/ by_price b a = true.
Proof. apply key_le_total. Qed.

Lemma by_price_trans a b c :
  by_price a b = true -> by_price b c = true -> by_price a c = true.
Proof. apply key_le_trans. Qed.

Lemma by_price_le a b x y :
  price a = Some x -> price b = Some y ->
  (by_price a b = true <-> (x <= y)%Q).
Proof.
  intros Ha Hb. unfold by_price, key_of. rewrite Ha, Hb. apply Qle_bool_iff.
Qed.

Lemma filter_step_fold budget cap products filtered over :
  fold_left (filter_step budget cap) products (filtered, over)
  = (filtered ++ primary_pool products budget,
     over ++ secondary_pool products budget cap).
Proof.
  revert filtered over.
  induction products as [|p products IH]; intros filtered over.
  - unfold primary_pool, secondary_pool. simpl. now rewrite !app_nil_r.
  - cbn [fold_left]. unfold filter_step at 2.
    unfold primary_pool, secondary_pool in *. cbn [filter map].
    unfold in_band, within.
    destruct (price p) as [pr|]; cbn [negb andb].
    + destruct (Qle_bool pr budget); cbn [negb andb].
      * rewrite IH, <- app_assoc. reflexivity.
      * destruct (Qle_bool pr cap).
        -- rewrite IH. cbn [map]. rewrite <- app_assoc. reflexivity.
        -- apply IH.
    + apply IH.
Qed.

(** The filter in closed form: the primary pool, then as many of the
    cheapest of the secondary pool as are missing to three. *)
Lemma filter_by_budget_eq cfg products budget :
  filter_by_budget cfg products budget
  = primary_pool products budget
    ++ firstn (3 - length (primary_pool products budget))
         (stable_sort by_price
            (secondary_pool products budget (max_price_of cfg budget))).
Proof.
  unfold filter_by_budget.
  rewrite filter_step_fold. cbn [app].
  set (prim := primary_pool products budget).
  set (sec := secondary_pool products budget (max_price_of cfg budget)).
  destruct (length prim <? 3) eqn:Hlen; cbn [andb].
  - destruct sec as [|s sec']; cbn [negb]; [|reflexivity].
    simpl. rewrite firstn_nil. now rewrite app_nil_r.
  - apply Nat.ltb_ge in Hlen.
    replace (3 - length prim) with 0 by lia.
    simpl. now rewrite app_nil_r.
Qed.

Lemma within_price bound p :
  within bound p = true <-> exists pr, price p = Some pr /\ (pr <= bound)%Q.
Proof.
  unfold within. destruct (price p) as [pr|].
  - rewrite Qle_bool_iff. split; [eauto|].
    intros (pr' & E & H). now inversion E; subst.
  - split; [discriminate|]. intros (pr' & E & _). discriminate.
Qed.

Lemma in_secondary_pool q products budget cap :
  In q (secondary_pool products budget cap) <->
  exists p, In p products /\ q = set_over_budget p
            /\ within budget p = false /\ within cap p = true.
Proof.
  unfold secondary_pool. rewrite in_map_iff. split.
  - intros (p & <- & Hin). apply filter_In in Hin as [Hin Hb].
    unfold in_band in Hb. apply andb_true_iff in Hb as [H1 H2].
    apply negb_true_iff in H1. eauto.
  - intros (p & Hin & -> & H1 & H2). exists p. split; [reflexivity|].
    apply filter_In. split; [exact Hin|].
    unfold in_band. now rewrite H1, H2.
Qed.

Lemma budget_le_max_price cfg budget :
  (0 <= budget)%Q -> (0 <= BUDGET_FLEXIBILITY cfg)%Q ->
  (budget <= max_price_of cfg budget)%Q.
Proof.
  intros Hb Hf. unfold max_price_of.
  pose proof (Qmult_le_0_compat _ _ Hb Hf). lra.
Qed.

Lemma In_firstn {A : Type} n (l : list A) x : In x (firstn n l) -> In x l.
Proof.
  intros H. rewrite <- (firstn_skipn n l). apply in_or_app. now left.
Qed.

Lemma within_mono lo hi p :
  (lo <= hi)%Q -> within lo p = true -> within hi p = true.
Proof.
  intros Hle. rewrite !within_price. intros (pr & E & H).
  exists pr. split; [exact E | now apply Qle_trans with lo].
Qed.

Lemma pools_count products budget cap :
  (budget <= cap)%Q ->
  length (filter (within cap) products)
  = length (primary_pool products budget)
    + length (secondary_pool products budget cap).
Proof.
  intros Hle. unfold primary_pool, secondary_pool. rewrite length_map.
  induction products as [|p products IH]; [reflexivity|].
  cbn [filter]. unfold in_band at 1.
  destruct (within budget p) eqn:Hb; cbn [negb andb].
  - rewrite (within_mono _ _ _ Hle Hb). simpl. now rewrite IH.
  - destruct (within cap p); simpl; rewrite IH; lia.
Qed.

Lemma sorted_no_dearer l :
  Forall (fun p => price p <> None) l ->
  StronglySorted (ordered by_price) l -> StronglySorted no_dearer l.
Proof.
  intros Hp Hs. induction Hs as [|a l Hs IH Ha]; [constructor|].
  inversion Hp as [|? ? Hpa Hpl]; subst.
  constructor; [now apply IH|].
  rewrite Forall_forall in *. intros b Hb.
  specialize (Ha b Hb). specialize (Hpl b Hb).
  destruct (price a) as [x|] eqn:Ex; [|contradiction].
  destruct (price b) as [y|] eqn:Ey; [|contradiction].
  exists x, y. repeat split; try assumption.
  now apply (by_price_le a b x y Ex Ey).
Qed.

Lemma secondary_pool_priced products budget cap :
  Forall (fun p => exists pr,
            price p = Some pr /\ (budget < pr)%Q /\ (pr <= cap)%Q)
         (secondary_pool products budget cap).
Proof.
  apply Forall_forall. intros q Hq.
  apply in_secondary_pool in Hq as (p & _ & -> & Hlo & Hhi).
  apply within_price in Hhi as (pr & E & Hle).
  exists pr. repeat split; [exact E| |exact Hle].
  unfold within in Hlo. rewrite E in Hlo.
  destruct (Qlt_le_dec budget pr) as [H|H]; [exact H|].
  apply Qle_bool_iff in H. congruence.
Qed.

Lemma sorted_secondary_no_dearer products budget cap :
  StronglySorted no_dearer
    (stable_sort by_price (secondary_pool products budget cap)).
Proof.
  apply sorted_no_dearer.
  - eapply Permutation_Forall; [symmetry; apply stable_sort_perm|].
    eapply Forall_impl; [|apply secondary_pool_priced].
    intros p (pr & E & _). congruence.
  - apply stable_sort_sorted; [apply by_price_total | apply by_price_trans].
Qed.

(** C1.  With a positive budget (and a flexibility that is not negative)
    [filter_by_budget] returns only products with a defined price of at
    most [budget * (1 + flexibility)]; when at least three products have
    such a price it returns at least [min 3 (length products)] of them;
    and its result is the within-budget pool followed by a backfill that
    is the cheapest-first prefix of the over-budget pool (the products
    priced over the budget and at most [budget * (1 + flexibility)],
    marked, in ascending price), as long as is needed to reach three
    members or until that pool is exhausted. *)
Theorem filter_by_budget_backfill cfg products budget :
  (0 < budget)%Q -> (0 <= BUDGET_FLEXIBILITY cfg)%Q ->
  let cap := (budget * (1 + BUDGET_FLEXIBILITY cfg))%Q in
  let out := filter_by_budget cfg products budget in
  let primary := primary_pool products budget in
  let secondary := secondary_pool products budget cap in
  Forall (fun p => exists pr, price p = Some pr /\ (pr <= cap)%Q) out
  /\ (3 <= length (filter (within cap) products) ->
      Nat.min 3 (length products) <= length out)
  /\ exists backfill rest,
       out = primary ++ backfill
       /\ Permutation (backfill ++ rest) secondary
       /\ StronglySorted no_dearer (backfill ++ rest)
       /\ Forall (fun p => exists pr,
                    price p = Some pr /\ (budget < pr)%Q /\ (pr <= cap)%Q)
                 (backfill ++ rest)
       /\ length backfill = Nat.min (3 - length primary) (length secondary).
Proof.
  intros Hb Hf cap out primary secondary.
  assert (Hcap : (budget <= cap)%Q)
    by (apply budget_le_max_price; [now apply Qlt_le_weak | exact Hf]).
  assert (Hout : out = primary
                       ++ firstn (3 - length primary)
                            (stable_sort by_price secondary))
    by apply filter_by_budget_eq.
  split; [|split].
  - rewrite Hout. apply Forall_app. split; apply Forall_forall; intros p Hin.
    + apply within_price. apply within_mono with budget; [exact Hcap|].
      now apply filter_In in Hin.
    + apply In_firstn, stable_sort_In, in_secondary_pool in Hin.
      destruct Hin as (p0 & _ & -> & _ & Hw).
      apply within_price in Hw. exact Hw.
  - intros H3. rewrite (pools_count _ _ _ Hcap) in H3.
    fold primary secondary in H3.
    rewrite Hout, length_app, length_firstn, stable_sort_length. lia.
  - exists (firstn (3 - length primary) (stable_sort by_price secondary)),
           (skipn (3 - length primary) (stable_sort by_price secondary)).
    rewrite firstn_skipn. repeat split.
    + exact Hout.
    + apply stable_sort_perm.
    + apply sorted_secondary_no_dearer.
    + eapply Permutation_Forall; [symmetry; apply stable_sort_perm|].
      apply secondary_pool_priced.
    + now rewrite length_firstn, stable_sort_length.
Qed.

Lemma filter_by_budget_backfill_witness :
  (0 < 100)%Q /\ (0 <= BUDGET_FLEXIBILITY default_config)%Q
  /\ (let cap := (100 * (1 + BUDGET_FLEXIBILITY default_config))%Q in
      let out := filter_by_budget default_config sample_products 100 in
      let primary := primary_pool sample_products 100 in
      let secondary := secondary_pool sample_products 100 cap in
      Forall (fun p => exists pr, price p = Some pr /\ (pr <= cap)%Q) out
      /\ (3 <= length (filter (within cap) sample_products) ->
          Nat.min 3 (length sample_products) <= length out)
      /\ exists backfill rest,
           out = primary ++ backfill
           /\ Permutation (backfill ++ rest) secondary
           /\ StronglySorted no_dearer (backfill ++ rest)
           /\ Forall (fun p => exists pr,
                        price p = Some pr /\ (100 < pr)%Q /\ (pr <= cap)%Q)
                     (backfill ++ rest)
           /\ length backfill
              = Nat.min (3 - length primary) (length secondary)).
Proof.
  split; [reflexivity|]. split; [discriminate|].
  apply (filter_by_budget_backfill default_config sample_products 100);
    [reflexivity | discriminate].
Defined.

(** On the sample the two within-budget listings come first, in input
    order, and the cheapest over-budget listing fills the third place. *)
Example filter_by_budget_sample :
  map name (filter_by_budget default_config sample_products 100)
  = [Some "Alpha"; Some "Echo"; Some "Foxtrot"].
Proof. reflexivity. Qed.

Lemma StronglySorted_app_l {A : Type} (R : A -> A -> Prop) l1 l2 :
  StronglySorted R (l1 ++ l2) -> StronglySorted R l1.
Proof.
  induction l1 as [|a l1 IH]; simpl; intros H; [constructor|].
  inversion H as [|? ? Hs Hall]; subst.
  constructor; [now apply IH|].
  apply Forall_app in Hall. tauto.
Qed.

Lemma within_set_over_budget bound p :
  within bound (set_over_budget p) = within bound p.
Proof. reflexivity. Qed.

Lemma backfill_marked products budget cap k q :
  In q (firstn k (stable_sort by_price (secondary_pool products budget cap))) ->
  within budget q = false /\ over_budget q = Some true.
Proof.
  intros Hq. apply In_firstn, stable_sort_In, in_secondary_pool in Hq.
  destruct Hq as (p & _ & -> & Hw & _).
  rewrite within_set_over_budget. now split.
Qed.

(** C10, as the code has it.  The result of [filter_by_budget] is the
    within-budget products in their input order followed by a backfill of
    over-budget products in ascending price; every over-budget product of
    the result carries [over_budget = True]; the within-budget products
    are handed back as they came in, so they carry a mark only if they
    carried it already, and none if no input product carried one. *)
Theorem filter_by_budget_layout cfg products budget :
  let out := filter_by_budget cfg products budget in
  exists backfill,
    out = primary_pool products budget ++ backfill
    /\ StronglySorted no_dearer backfill
    /\ Forall (fun p => exists pr, price p = Some pr /\ (budget < pr)%Q)
              backfill
    /\ Forall (fun p => within budget p = false -> over_budget p = Some true) out
    /\ Forall (fun p => within budget p = true -> In p products) out
    /\ (Forall (fun p => over_budget p = None) products ->
        Forall (fun p => within budget p = true -> over_budget p = None) out).
Proof.
  intros out. subst out. rewrite filter_by_budget_eq.
  set (sec := secondary_pool products budget (max_price_of cfg budget)).
  set (k := 3 - length (primary_pool products budget)).
  assert (Hback : forall q, In q (firstn k (stable_sort by_price sec)) ->
                    within budget q = false /\ over_budget q = Some true)
    by (intros q; apply backfill_marked).
  assert (Hprim : forall q, In q (primary_pool products budget) ->
                    within budget q = true /\ In q products).
  { intros q Hq. apply filter_In in Hq. tauto. }
  exists (firstn k (stable_sort by_price sec)). repeat split.
  - apply StronglySorted_app_l with (skipn k (stable_sort by_price sec)).
    rewrite firstn_skipn. apply sorted_secondary_no_dearer.
  - apply Forall_forall. intros q Hq.
    apply In_firstn, stable_sort_In in Hq.
    pose proof (secondary_pool_priced products budget
                  (max_price_of cfg budget)) as Hall.
    rewrite Forall_forall in Hall.
    destruct (Hall q Hq) as (pr & E & Hlt & _). eauto.
  - apply Forall_forall. intros q Hq Hw. apply in_app_or in Hq as [Hq|Hq].
    + apply Hprim in Hq. destruct Hq; congruence.
    + now apply Hback.
  - apply Forall_forall. intros q Hq Hw. apply in_app_or in Hq as [Hq|Hq].
    + now apply Hprim.
    + apply Hback in Hq. destruct Hq; congruence.
  - intros Hnone. apply Forall_forall. intros q Hq Hw.
    apply in_app_or in Hq as [Hq|Hq].
    + apply Hprim in Hq. rewrite Forall_forall in Hnone. now apply Hnone.
    + apply Hback in Hq. destruct Hq; congruence.
Qed.

(** A listing priced within the budget that was marked by an earlier
    run keeps its mark: the filter never clears it. *)
Lemma filter_by_budget_keeps_stale_mark :
  filter_by_budget default_config [stale_listing] 100 = [stale_listing]
  /\ within 100 stale_listing = true
  /\ over_budget stale_listing = Some true.
Proof. repeat split. Qed.

(** The stated layout fails on the marked listing. *)
Lemma filter_layout_claim_fails : ~ filter_layout_claim.
Proof.
  intros H.
  destruct (H default_config [stale_listing] 100%Q) as (b & _ & _ & _ & Hflag).
  destruct filter_by_budget_keeps_stale_mark as (E & Hw & Hm).
  rewrite E in Hflag. inversion Hflag as [|? ? Hp _]; subst.
  specialize (Hp Hw). rewrite Hm in Hp. discriminate.
Qed.

(* ================================================================== *)
(** ** Scoring and ranking *)
(* ================================================================== *)

Lemma score_by_preferences_map products preferences :
  score_by_preferences products preferences
  = map (with_preferences preferences) products.
Proof. destruct preferences; reflexivity. Qed.

Lemma with_preferences_frame preferences p :
  price (with_preferences preferences p) = price p
  /\ erase_derived (with_preferences preferences p) = erase_derived p.
Proof.
  unfold with_preferences. destruct preferences as [|a l]; [now split|].
  destruct (fold_left _ _ _). now split.
Qed.

Lemma scored_products_map cfg log10 products budget preferences :
  scored_products cfg log10 products budget preferences
  = map (fun p => score_product cfg log10 budget (with_preferences preferences p))
        (filter_by_budget cfg products budget).
Proof.
  unfold scored_products. now rewrite score_by_preferences_map, map_map.
Qed.

Lemma filter_by_budget_priced cfg products budget p :
  In p (filter_by_budget cfg products budget) -> exists pr, price p = Some pr.
Proof.
  rewrite filter_by_budget_eq. intros Hin. apply in_app_or in Hin as [Hin|Hin].
  - apply filter_In in Hin as [_ Hw]. apply within_price in Hw.
    destruct Hw as (pr & E & _). eauto.
  - apply In_firstn, stable_sort_In, in_secondary_pool in Hin.
    destruct Hin as (p0 & _ & -> & _ & Hw). apply within_price in Hw.
    destruct Hw as (pr & E & _). eauto.
Qed.

Lemma ranked_product cfg log10 products budget preferences p :
  In p (rank_products cfg log10 products budget preferences) ->
  exists p0 pr,
    In p0 (filter_by_budget cfg products budget)
    /\ price p0 = Some pr
    /\ price p = Some pr
    /\ price_score p = Some (price_score_of pr budget).
Proof.
  unfold rank_products. rewrite stable_sort_In, scored_products_map, in_map_iff.
  intros (p0 & <- & Hin).
  destruct (filter_by_budget_priced _ _ _ _ Hin) as (pr & E).
  exists p0, pr. repeat split; try assumption.
  - cbn. now rewrite (proj1 (with_preferences_frame preferences p0)).
  - cbn. now rewrite (proj1 (with_preferences_frame preferences p0)), E.
Qed.

Lemma price_score_of_formula pr budget :
  (0 < pr)%Q -> (0 < budget)%Q ->
  (price_score_of pr budget == spec_price_score (pr / budget))%Q.
Proof.
  intros Hp Hb. unfold price_score_of, spec_price_score.
  destruct (Qle_bool pr 0) eqn:H0.
  - apply Qle_bool_iff in H0. lra.
  - destruct (Qle_bool (pr / budget) 1).
    + ring.
    + assert (E : ((1 # 2) - (pr / budget - 1) * 2
                   == (1 # 2) - 2 * (pr / budget - 1))%Q) by ring.
      now rewrite E.
Qed.

Lemma price_score_of_free pr budget :
  (pr <= 0)%Q -> price_score_of pr budget = 0%Q.
Proof.
  intros H. unfold price_score_of.
  apply Qle_bool_iff in H. now rewrite H.
Qed.

(** C2, as the code has it.  For a positive budget every ranked product
    has a defined price and a price score; for a positive price the score
    is the formula of the specification at [r = price / budget], which
    for [r <= 1] is [1 - 0.5 r] and lies between 0.5 and 1; a price that
    is not positive is scored 0 by the guard [price <= 0]. *)
Theorem ranked_price_score cfg log10 products budget preferences p :
  (0 < budget)%Q ->
  In p (rank_products cfg log10 products budget preferences) ->
  exists pr s,
    price p = Some pr /\ price_score p = Some s
    /\ ((0 < pr)%Q -> (s == spec_price_score (pr / budget))%Q)
    /\ ((0 < pr)%Q -> (pr / budget <= 1)%Q ->
        (s == 1 - (1 # 2) * (pr / budget))%Q /\ ((1 # 2) <= s)%Q /\ (s <= 1)%Q)
    /\ ((0 < pr)%Q -> (1 < pr / budget)%Q ->
        (s == Qmax 0 ((1 # 2) - 2 * (pr / budget - 1)))%Q)
    /\ ((pr <= 0)%Q -> s = 0%Q).
Proof.
  intros Hb Hin.
  destruct (ranked_product _ _ _ _ _ _ Hin) as (p0 & pr & _ & _ & Hp & Hs).
  exists pr, (price_score_of pr budget).
  split; [exact Hp|]. split; [exact Hs|].
  split; [|split; [|split]].
  - intros Hpos. now apply price_score_of_formula.
  - intros Hpos Hr.
    assert (Hr0 : (0 < pr / budget)%Q)
      by (apply Qlt_shift_div_l; [exact Hb | lra]).
    rewrite (price_score_of_formula _ _ Hpos Hb). unfold spec_price_score.
    apply Qle_bool_iff in Hr. rewrite Hr. apply Qle_bool_iff in Hr.
    repeat split; lra.
  - intros Hpos Hr.
    rewrite (price_score_of_formula _ _ Hpos Hb). unfold spec_price_score.
    destruct (Qle_bool (pr / budget) 1) eqn:E; [|reflexivity].
    apply Qle_bool_iff in E. lra.
  - apply price_score_of_free.
Qed.

Lemma ranked_price_score_witness :
  (0 < 100)%Q
  /\ In (hd free_sample
           (rank_products default_config (fun _ => 0%Q) sample_products 100 []))
        (rank_products default_config (fun _ => 0%Q) sample_products 100 [])
  /\ exists pr s,
       price (hd free_sample
                (rank_products default_config (fun _ => 0%Q) sample_products 100 []))
       = Some pr
       /\ price_score
            (hd free_sample
               (rank_products default_config (fun _ => 0%Q) sample_products 100 []))
          = Some s
       /\ ((0 < pr)%Q -> (s == spec_price_score (pr / 100))%Q).
Proof.
  split; [reflexivity|].
  split; [left; reflexivity|].
  destruct (ranked_price_score default_config (fun _ => 0%Q) sample_products 100 []
              (hd free_sample
                 (rank_products default_config (fun _ => 0%Q) sample_products 100 [])))
    as (pr & s & Hp & Hs & Hf & _).
  - reflexivity.
  - left; reflexivity.
  - exists pr, s. auto.
Defined.

(** A listing priced 0 is within every positive budget and gets the
    price score 0, where the formula gives 1. *)
Lemma free_sample_price_score :
  map price_score (rank_products default_config (fun _ => 0%Q) [free_sample] 100 [])
  = [Some 0%Q]
  /\ (spec_price_score (0 / 100) == 1)%Q.
Proof. split; reflexivity. Qed.

(** The stated price score fails on the listing priced 0. *)
Lemma price_score_claim_fails : ~ price_score_claim.
Proof.
  intros H.
  destruct (H default_config (fun _ => 0%Q) [free_sample] 100%Q []
              (score_product default_config (fun _ => 0%Q) 100
                 (with_preferences [] free_sample)) 0%Q)
    as (s & Hs & Heq).
  - reflexivity.
  - left. reflexivity.
  - reflexivity.
  - discriminate.
  - cbn in Hs. inversion Hs; subst. vm_compute in Heq. discriminate.
Qed.

Lemma subseq_refl {A : Type} (l : list A) : subseq l l.
Proof. induction l; now constructor. Qed.

Lemma subseq_map_filter {A B : Type} (g : A -> B) (P : A -> bool) l :
  subseq (map g (filter P l)) (map g l).
Proof.
  induction l as [|a l IH]; simpl; [constructor|].
  destruct (P a); simpl; now constructor.
Qed.

Lemma filter_map_comm {A B : Type} (f : A -> B) (P : B -> bool) l :
  filter P (map f l) = map f (filter (fun a => P (f a)) l).
Proof.
  induction l as [|a l IH]; simpl; [reflexivity|].
  destruct (P (f a)); simpl; now rewrite IH.
Qed.

Lemma has_combined_tie k x y :
  has_combined k x = true -> has_combined k y = true ->
  by_combined_desc x y = true.
Proof.
  unfold has_combined, by_combined_desc. rewrite !Qeq_bool_iff, Qle_bool_iff.
  intros Hx Hy. rewrite Hx, Hy. apply Qle_refl.
Qed.

Lemma by_combined_desc_total a b :
  by_combined_desc a b = true \/ by_combined_desc b a = true.
Proof.
  unfold by_combined_desc. rewrite !Qle_bool_iff.
  destruct (Qlt_le_dec (combined_of a) (combined_of b)) as [H|H];
    [right; now apply Qlt_le_weak | now left].
Qed.

Lemma by_combined_desc_trans a b c :
  by_combined_desc a b = true -> by_combined_desc b c = true ->
  by_combined_desc a c = true.
Proof.
  unfold by_combined_desc. rewrite !Qle_bool_iff. intros H1 H2.
  now apply Qle_trans with (combined_of b).
Qed.

Lemma rescored_frame cfg log10 budget preferences p :
  erase_derived (score_product cfg log10 budget (with_preferences preferences p))
  = erase_derived p
  /\ within budget (score_product cfg log10 budget (with_preferences preferences p))
     = within budget p.
Proof.
  destruct (with_preferences_frame preferences p) as [Hp He].
  split.
  - rewrite <- He. reflexivity.
  - unfold within. cbn. now rewrite Hp.
Qed.

Lemma filter_within_primary products budget :
  filter (within budget) (primary_pool products budget)
  = primary_pool products budget.
Proof.
  unfold primary_pool. induction products as [|p l IH]; [reflexivity|].
  cbn [filter]. destruct (within budget p) eqn:E; [|exact IH].
  cbn [filter]. now rewrite E, IH.
Qed.

Lemma filter_none {A : Type} (P : A -> bool) l :
  Forall (fun a => P a = false) l -> filter P l = [].
Proof.
  induction 1 as [|a l Ha _ IH]; [reflexivity|].
  cbn [filter]. now rewrite Ha.
Qed.

Lemma filter_within_filtered cfg products budget :
  filter (within budget) (filter_by_budget cfg products budget)
  = primary_pool products budget.
Proof.
  rewrite filter_by_budget_eq, filter_app, filter_within_primary.
  rewrite filter_none; [apply app_nil_r|].
  apply Forall_forall. intros q Hq. now apply backfill_marked in Hq.
Qed.

Lemma filter_twice {A : Type} (P Q : A -> bool) l :
  filter P (filter Q l) = filter (fun a => Q a && P a) l.
Proof.
  induction l as [|a l IH]; [reflexivity|].
  cbn [filter]. destruct (Q a); cbn [andb filter]; now rewrite IH.
Qed.

(** C6, as the code has it.  [rank_products] sorts the budget-filtered
    and scored list stably: the products that share a combined score
    stand in the ranking in the order in which [filter_by_budget] returned
    them (within-budget products in input order, then the backfill in
    ascending price).  In particular within-budget products with equal
    scores keep their input order.  The ranking is a permutation of the
    scored list, in descending combined score. *)
Theorem rank_products_stable cfg log10 products budget preferences k :
  let ranked := rank_products cfg log10 products budget preferences in
  let tied := filter (has_combined k) ranked in
  tied = filter (has_combined k)
           (scored_products cfg log10 products budget preferences)
  /\ subseq (map erase_derived tied)
            (map erase_derived (filter_by_budget cfg products budget))
  /\ subseq (map erase_derived (filter (within budget) tied))
            (map erase_derived products)
  /\ Permutation ranked (scored_products cfg log10 products budget preferences)
  /\ StronglySorted (ordered by_combined_desc) ranked.
Proof.
  intros ranked tied.
  set (f := fun p => score_product cfg log10 budget
                       (with_preferences preferences p)).
  assert (Hf : forall l, map erase_derived (map f l) = map erase_derived l).
  { intros l. rewrite map_map. apply map_ext. intros p.
    apply (rescored_frame cfg log10 budget preferences p). }
  assert (Htied : tied = filter (has_combined k)
                           (scored_products cfg log10 products budget preferences)).
  { unfold tied, ranked, rank_products.
    apply stable_sort_filter. apply has_combined_tie. }
  split; [exact Htied|].
  rewrite Htied, scored_products_map. fold f.
  split; [|split; [|split]].
  - rewrite filter_map_comm, Hf. apply subseq_map_filter.
  - rewrite filter_map_comm, filter_map_comm, Hf, filter_twice.
    erewrite filter_ext.
    2:{ intros p. unfold f at 2.
        rewrite (proj2 (rescored_frame cfg log10 budget preferences p)).
        rewrite andb_comm. reflexivity. }
    rewrite <- filter_twice, filter_within_filtered.
    unfold primary_pool. rewrite filter_twice. apply subseq_map_filter.
  - unfold ranked, rank_products. rewrite scored_products_map.
    apply stable_sort_perm.
  - apply stable_sort_sorted;
      [apply by_combined_desc_total | apply by_combined_desc_trans].
Qed.

(** On [tie_products] both listings score 7/4; the ranking puts the
    within-budget listing in front of the backfilled one, which stood
    first in the input. *)
Lemma tie_products_ranking :
  let ranked := rank_products default_config (fun _ => 0%Q) tie_products 64
                  ["gaming laptop"] in
  map name ranked = [Some "Plain Tablet"; Some "Gaming Notebook"]
  /\ map (fun p => Qred (combined_of p)) ranked = [7 # 4; 7 # 4]
  /\ map erase_derived (filter (has_combined (7 # 4)) ranked) = rev tie_products.
Proof. vm_compute. repeat split. Qed.

(** The input order of the tie is not kept. *)
Lemma ranking_keeps_input_order_fails : ~ ranking_keeps_input_order.
Proof.
  intros H.
  specialize (H default_config (fun _ => 0%Q) tie_products 64%Q
                ["gaming laptop"] (7 # 4)%Q).
  destruct tie_products_ranking as (_ & _ & E).
  cbv zeta in E. rewrite E in H. vm_compute in H.
  inversion H as [|x s l Hs|x s l Hs]; subst.
  inversion Hs as [|x s l Hs'|x s l Hs']; subst.
  - inversion Hs'.
  - inversion Hs'.
Qed.

(* ================================================================== *)
(** ** Key features *)
(* ================================================================== *)

(** The product is left as it was exactly when it holds no feature list
    or when nothing is appended. *)
Lemma extract_key_features_frame p preferences :
  snd (extract_key_features p preferences) = p
  <-> features p = None \/ extensions p = [].
Proof.
  unfold extract_key_features. cbn [snd].
  destruct (features p) as [fs|] eqn:E.
  - split.
    + intros H. right.
      assert (Hf : features (set_features p (fs ++ extensions p)) = features p)
        by now rewrite H.
      cbn in Hf. rewrite E in Hf. inversion Hf as [Hfs].
      rewrite <- (app_nil_r fs) in Hfs at 2.
      now apply app_inv_head in Hfs.
    + intros [H|H]; [discriminate|].
      rewrite H, app_nil_r. destruct p; cbn in *. now subst.
  - split; auto.
Qed.

(** C9 on the listing [phone].  The call returns the key features and
    leaves the technical detail and the parenthesised words of the name in
    the product's own feature list; a second call appends them again. *)
Theorem extract_key_features_extends_features :
  features phone = Some ["OLED display"]
  /\ fst (extract_key_features phone [])
     = ["OLED display"; "128GB"; "Black"; "5G"]
  /\ features (snd (extract_key_features phone []))
     = Some ["OLED display"; "128GB"; "Black"; "5G"]
  /\ features (snd (extract_key_features (snd (extract_key_features phone [])) []))
     = Some ["OLED display"; "128GB"; "Black"; "5G"; "128GB"; "Black"; "5G"]
  /\ snd (extract_key_features phone []) <> phone.
Proof.
  repeat split; try reflexivity.
  intros H. apply (f_equal features) in H. vm_compute in H. discriminate.
Qed.

Lemma extract_key_features_pure_fails : ~ extract_key_features_pure.
Proof.
  intros H. specialize (H phone []).
  apply extract_key_features_frame in H as [H|H]; vm_compute in H; discriminate.
Qed.

(* ================================================================== *)
(** ** The cache key *)
(* ================================================================== *)

(** The digest agrees with the test suite of RFC 1321. *)
Example md5_rfc1321 :
  map MD5.hexdigest [""; "a"; "abc"; "message digest"]
  = [ "d41d8cd98f00b204e9800998ecf8427e"; "0cc175b9c0f1b6a831c399e269772661";
      "900150983cd24fb0d6963f7d28e17f72"; "f96b697d7cb7938d525a2f31aaf161d0" ].
Proof. vm_compute. reflexivity. Qed.

Lemma lower_app a b : lower (a ++ b) = (lower a ++ lower b)%string.
Proof. induction a as [|c a IH]; simpl; [reflexivity | now rewrite IH]. Qed.

Lemma lower_idempotent a : lower (lower a) = lower a.
Proof.
  induction a as [|c a IH]; simpl; [reflexivity|]. rewrite IH. f_equal.
  unfold lower_char.
  destruct (is_upper c) eqn:E; [|now rewrite E].
  destruct c as [b0 b1 b2 b3 b4 b5 b6 b7].
  destruct b0, b1, b2, b3, b4, b5, b6, b7; try discriminate E; reflexivity.
Qed.

(** C8, as the code has it.  The cache key depends on the platform and
    the query only through their lower-cased text: two requests whose
    platforms and queries are equal after lower-casing get the same key.
    White space is left as it is. *)
Theorem generate_cache_key_case_insensitive platform1 platform2 q1 q2 :
  lower platform1 = lower platform2 -> lower q1 = lower q2 ->
  generate_cache_key q1 platform1 = generate_cache_key q2 platform2.
Proof.
  intros Hp Hq. unfold generate_cache_key.
  now rewrite !lower_app, Hp, Hq.
Qed.

Lemma generate_cache_key_case_insensitive_witness :
  lower "Amazon" = lower "amazon"
  /\ lower "Gaming Laptop" = lower "gaming laptop"
  /\ generate_cache_key "Gaming Laptop" "Amazon"
     = generate_cache_key "gaming laptop" "amazon".
Proof.
  split; [reflexivity|]. split; [reflexivity|].
  apply (generate_cache_key_case_insensitive "Amazon" "amazon"
           "Gaming Laptop" "gaming laptop"); reflexivity.
Defined.

(** Two queries that differ in a run of white space have the same
    normal form and different keys. *)
Lemma cache_key_whitespace :
  spec_normalize "gaming  laptop" = spec_normalize "gaming laptop"
  /\ generate_cache_key "gaming  laptop" "amazon"
     = "54d58df40aa44a87b2e0d7ee29c1e111"
  /\ generate_cache_key "gaming laptop" "amazon"
     = "7c05abb58d11626764ae6ab3eec47620".
Proof. vm_compute. repeat split. Qed.

(** The stated invariance fails on the two queries above. *)
Lemma cache_key_normalized_claim_fails : ~ cache_key_normalized_claim.
Proof.
  intros H.
  destruct cache_key_whitespace as (Hn & H1 & H2).
  specialize (H "amazon" "gaming  laptop" "gaming laptop" Hn).
  rewrite H1, H2 in H. clear Hn H1 H2. discriminate H.
Qed.

(* ================================================================== *)
(** ** Reading the cache *)
(* ================================================================== *)

Section CacheFacts.
Context {D : Type}.
Variable fromisoformat : string -> option datetime.
Variable now : Q.

(** What the code reports as a miss: no file, a file that cannot be
    read, text that is not JSON, an object without a timestamp (or with
    one that counts as false), and an entry older than the expiry. *)
Lemma get_cached_data_miss cache_key expiry_seconds (d : disk D) entries :
  match files d cache_key with
  | None => True
  | Some (Unreadable _) | Some (Malformed _) => True
  | Some (Object None _) | Some (Object (Some (TsText "")) _)
  | Some (Object (Some (TsOther false)) _) => True
  | Some (Object (Some (TsText s)) _) =>
      exists t, fromisoformat s = Some (Naive t)
                /\ (expiry_seconds < now - t)%Q
  | _ => False
  end ->
  snd (get_cached_data fromisoformat now cache_key expiry_seconds
         (mkState d entries))
  = Return None.
Proof.
  unfold get_cached_data, bind, read. cbn [store].
  destruct (files d cache_key) as [f|]; [|reflexivity].
  destruct f as [msg|msg|msg| |ts data]; try contradiction; try reflexivity.
  destruct ts as [[s|b]|]; [| |reflexivity].
  - destruct s as [|c s]; [reflexivity|].
    intros (t & Ht & Hexp).
    unfold try_except, read_cache_file. cbn [is_true is_empty negb].
    rewrite Ht.
    assert (E : Qle_bool (now - t) expiry_seconds = false).
    { destruct (Qle_bool (now - t) expiry_seconds) eqn:E; [|reflexivity].
      apply Qle_bool_iff in E. lra. }
    rewrite E. reflexivity.
  - destruct b; [contradiction | reflexivity].
Qed.

(** What escapes the [except (json.JSONDecodeError, IOError)]: JSON that
    is not an object, a timestamp that is not text, bytes that are not
    UTF-8, a timestamp that is text but no ISO date, and a timestamp
    with a UTC offset. *)
Lemma get_cached_data_escapes cache_key expiry_seconds (d : disk D) entries :
  match files d cache_key with
  | Some NotAnObject | Some (NotUtf8 _)
  | Some (Object (Some (TsOther true)) _) => True
  | Some (Object (Some (TsText (String c s))) _) =>
      fromisoformat (String c s) = None
      \/ exists t offset, fromisoformat (String c s) = Some (Aware t offset)
  | _ => False
  end ->
  exists e,
    get_cached_data fromisoformat now cache_key expiry_seconds (mkState d entries)
    = (mkState d entries, Raise e)
    /\ caught_by [JSONDecodeError; OSError] e = false.
Proof.
  unfold get_cached_data, bind, read. cbn [store].
  destruct (files d cache_key) as [f|]; [|contradiction].
  destruct f as [msg|msg|msg| |ts data]; try contradiction.
  - intros _. eexists. split; reflexivity.
  - intros _. eexists. split; reflexivity.
  - destruct ts as [[s|b]|]; try contradiction.
    + destruct s as [|c s]; [contradiction|].
      unfold try_except, read_cache_file. cbn [is_true is_empty negb].
      intros [Hiso | (t & offset & Hiso)]; rewrite Hiso;
        eexists; split; reflexivity.
    + destruct b; [|contradiction]. intros _. eexists. split; reflexivity.
Qed.

End CacheFacts.

(** C4 on a cache file that holds JSON which is not an object (the text
    [[]], say), and on one whose timestamp is a number: the call raises
    [AttributeError], respectively [TypeError], which the
    [except (json.JSONDecodeError, IOError)] does not catch. *)
Theorem get_cached_data_raises :
  forall (fromisoformat : string -> option datetime) (now expiry_seconds : Q),
    get_cached_data fromisoformat now "k" expiry_seconds
      (fresh (one_file "k" (@NotAnObject (list product))))
    = (fresh (one_file "k" NotAnObject),
       Raise (mkExn AttributeError "object has no attribute 'get'"))
    /\ get_cached_data fromisoformat now "k" expiry_seconds
         (fresh (one_file "k" (Object (Some (TsOther true)) (Some [phone]))))
       = (fresh (one_file "k" (Object (Some (TsOther true)) (Some [phone]))),
          Raise (mkExn TypeError "fromisoformat: argument must be str")).
Proof. intros. split; reflexivity. Qed.

Lemma get_cached_data_never_raises_fails : ~ get_cached_data_never_raises.
Proof.
  intros H.
  destruct (H (list product) (fun _ => None) 0%Q "k" 0%Q
              (fresh (one_file "k" NotAnObject))) as (st' & outcome & E).
  discriminate E.
Qed.

(* ================================================================== *)
(** ** Writing the cache from the collector *)
(* ================================================================== *)

Section CollectorFacts.
Variable cfg : config.
Variable fromisoformat : string -> option datetime.
Variable isoformat : Q -> string.
Variable now : Q.
Variable scrape_amazon : string -> result (list product).
Variable scrape_flipkart : string -> result (list product).
Variable mock_products_for : string -> list product.

Lemma save_to_cache_fails (data : list product) cache_key files0 failure
      entries :
  let st := save_to_cache isoformat now data cache_key
              (mkState (mkDisk files0 (Some failure)) entries) in
  snd st
  = Raise (mkExn CacheError
             ("Failed to save data to cache: " ++ failure_text failure))
  /\ log (fst st)
     = entries
       ++ [(ERROR, "Error saving to cache: " ++ failure_text failure)%string]
  /\ write_error (store (fst st)) = Some failure
  /\ files (store (fst st)) cache_key
     = match failure with
       | AtOpen _ => files0 cache_key
       | AfterOpen _ remains => Some remains
       end.
Proof.
  destruct failure; cbn; rewrite ?String.eqb_refl; repeat split.
Qed.

Lemma store_scraped_fails platform_name query cache_key products files failure
      entries :
  snd (store_scraped isoformat now mock_products_for platform_name query
         cache_key products (mkState (mkDisk files (Some failure)) entries))
  = Raise (mkExn CacheError
             ("Failed to save data to cache: " ++ failure_text failure)).
Proof.
  unfold store_scraped.
  destruct (_normalize_data products platform_name); destruct failure;
    reflexivity.
Qed.

(** With an empty cache and a disk on which writes fail, collecting from
    Amazon ends in [CacheError] whenever the scraper returns, and also
    when it raises a [ScrapingError]: the [except ScrapingError] does not
    catch the first, and the write in the handler is not guarded. *)
Lemma collect_from_amazon_write_failure query failure entries :
  (exists products, scrape_amazon query = Return products)
  \/ (exists e, scrape_amazon query = Raise e
                /\ caught_by [ScrapingError] e = true) ->
  snd (_collect_from_platform cfg fromisoformat isoformat now scrape_amazon
         scrape_flipkart mock_products_for "amazon" query
         (mkState (mkDisk (fun _ => None) (Some failure)) entries))
  = Raise (mkExn CacheError
             ("Failed to save data to cache: " ++ failure_text failure)).
Proof.
  intros H. unfold _collect_from_platform.
  set (key := generate_cache_key query "amazon"). clearbody key.
  rewrite String.eqb_refl.
  cbv beta iota zeta
      delta [bind logger get_cached_data read ret try_except scrape
             store log files fst snd].
  destruct H as [(products & ->) | (e & -> & He)].
  - match goal with
    | |- context [store_scraped ?i ?n ?m ?p ?q ?k ?ps ?st] =>
        pose proof (store_scraped_fails p q k ps (fun _ => None) failure
                      (log st)) as Hs;
        change (mkState (mkDisk (fun _ : string => None) (Some failure))
                  (log st))
          with st in Hs;
        destruct (store_scraped i n m p q k ps st) as [st' r]
    end.
    cbn [snd] in Hs. subst r.
    change (caught_by [ScrapingError]
              (mkExn CacheError
                 ("Failed to save data to cache: " ++ failure_text failure)))
      with false.
    reflexivity.
  - rewrite He. destruct failure; reflexivity.
Qed.

End CollectorFacts.

(** C3 on a disk without space.  The scraper finds a listing on Amazon;
    with a cache that can be written the collector returns it, with a
    write that fails the collector raises [CacheError].  On Flipkart the
    scraper fails, the handler falls back to the mock listings, and the
    write in the handler raises [CacheError] as well. *)
Theorem collect_from_platform_propagates_cache_error :
  forall (fromisoformat : string -> option datetime) (isoformat : Q -> string)
         (now : Q),
    let collect := _collect_from_platform default_config fromisoformat
                     isoformat now sample_scrape_amazon
                     sample_scrape_flipkart (fun _ => sample_products) in
    snd (collect "amazon" "laptop under 100" (fresh empty_disk))
    = Return (_normalize_data [listing "Alpha" 90 []] "amazon")
    /\ snd (collect "amazon" "laptop under 100" (fresh full_disk))
       = Raise (mkExn CacheError
                  "Failed to save data to cache: [Errno 28] No space left on device")
    /\ snd (collect "flipkart" "laptop under 100" (fresh empty_disk))
       = Return []
    /\ snd (collect "flipkart" "laptop under 100" (fresh full_disk))
       = Raise (mkExn CacheError
                  "Failed to save data to cache: [Errno 28] No space left on device").
Proof.
  intros. subst collect. repeat split; vm_compute; reflexivity.
Qed.

Lemma cache_write_failure_swallowed_fails : ~ cache_write_failure_swallowed.
Proof.
  intros H.
  specialize (H default_config (fun _ => None) (fun _ => "t") 0%Q
                sample_scrape_amazon sample_scrape_flipkart
                (fun _ => sample_products) "amazon" "laptop under 100"
                (fun _ => None)
                (AtOpen "[Errno 28] No space left on device") []).
  vm_compute in H. discriminate H.
Qed.

(* ================================================================== *)
(** ** The recommendation engine *)
(* ================================================================== *)

Section ComputationFacts.
Context {X : Type}.

Lemma returns_ret {A : Type} (a : A) : returns (@ret X A a).
Proof. intros st. now exists st, a. Qed.

Lemma returns_logger l msg : returns (@logger X l msg).
Proof. intros st. eexists. exists tt. reflexivity. Qed.

Lemma returns_bind {A B : Type} (m : comp X A) (f : A -> comp X B) :
  returns m -> (forall a, returns (f a)) -> returns (bind m f).
Proof.
  intros Hm Hf st. unfold bind.
  destruct (Hm st) as (st1 & a & ->). apply Hf.
Qed.

(** A [try] whose handler comes back comes back, whatever the body does. *)
Lemma returns_try_except_Exception {A : Type} (body : comp X A) handler :
  (forall e, returns (handler e)) -> returns (try_except_Exception body handler).
Proof.
  intros Hh st. unfold try_except_Exception.
  destruct (body st) as [st1 [a|e]]; [now exists st1, a | apply Hh].
Qed.

Lemma try_except_Exception_logs (body : comp X unit) prefix st s1 e :
  body st = (s1, Raise e) ->
  try_except_Exception body (fun e => logger ERROR (prefix ++ str e)) st
  = (mkState (store s1) (log s1 ++ [(ERROR, (prefix ++ str e)%string)]),
     Return tt).
Proof. intros H. unfold try_except_Exception. now rewrite H. Qed.

End ComputationFacts.

Section EngineFacts.
Context {P W : Type}.
Variable self_analyzer : analyzer P W.
Variable top_count : nat.
Variable format_currency : Q -> result string.
Variable collect_reviews : list P -> W -> W * result (list P).

Lemma returns_update f : returns (@update P W f).
Proof. intros st. eexists. exists tt. reflexivity. Qed.

Lemma returns_the_alternatives : returns (@the_alternatives P W).
Proof. intros st. eexists. eexists. reflexivity. Qed.

Lemma yields_the_alternatives : yields_alternatives (@the_alternatives P W).
Proof. intros st. now exists st. Qed.

Lemma yields_bind {A : Type} (m : comp (W * alternatives P) A) f :
  returns m -> (forall a, yields_alternatives (f a)) ->
  yields_alternatives (bind m f).
Proof.
  intros Hm Hf st. unfold bind.
  destruct (Hm st) as (st1 & a & ->). apply Hf.
Qed.

Lemma returns_increased_budget_block products budget preferences :
  returns (increased_budget_block self_analyzer format_currency products
             budget preferences).
Proof.
  unfold increased_budget_block.
  destruct (negb (Qle_bool budget 0)); [|apply returns_ret].
  apply returns_try_except_Exception. intros e. apply returns_logger.
Qed.

Lemma returns_reduced_preferences_block products budget preferences :
  returns (reduced_preferences_block self_analyzer products budget preferences).
Proof.
  unfold reduced_preferences_block.
  destruct preferences as [|first [|second rest]]; try apply returns_ret.
  apply returns_try_except_Exception. intros e. apply returns_logger.
Qed.

Lemma returns_general_suggestions : returns (@general_suggestions P W).
Proof.
  unfold general_suggestions.
  apply returns_bind; [apply returns_the_alternatives|]. intros current.
  destruct (increased_budget current), (alternative_products current);
    try apply returns_ret.
  apply returns_bind; intros; apply returns_update.
Qed.

(** C7.  Whatever the analyzer and [format_currency] do, raising
    included, [generate_alternatives] comes back with the dict
    [alternatives] from every state, for every product list, budget and
    preference list; and when the body of the increased-budget attempt or
    of the reduced-preference attempt raises, the statement around it
    comes back with the error written to the log. *)
Theorem generate_alternatives_never_raises products budget preferences :
  (forall st, exists st' result_value,
      generate_alternatives self_analyzer format_currency products budget
        preferences st
      = (st', Return result_value)
      /\ result_value = snd (store st'))
  /\ (forall st s1 e,
         (0 < budget)%Q ->
         increased_budget_attempt self_analyzer format_currency products budget
           (budget * (12 # 10)) preferences st
         = (s1, Raise e) ->
         increased_budget_block self_analyzer format_currency products budget
           preferences st
         = (mkState (store s1)
              (log s1 ++ [(ERROR,
                 ("Error generating increased budget alternatives: "
                  ++ str e)%string)]),
            Return tt))
  /\ (forall st s1 e first second rest,
         preferences = first :: second :: rest ->
         reduced_preferences_attempt self_analyzer products budget first st
         = (s1, Raise e) ->
         reduced_preferences_block self_analyzer products budget preferences st
         = (mkState (store s1)
              (log s1 ++ [(ERROR,
                 ("Error generating reduced preference alternatives: "
                  ++ str e)%string)]),
            Return tt)).
Proof.
  split; [|split].
  - assert (Hy : yields_alternatives
                   (generate_alternatives self_analyzer format_currency
                      products budget preferences)).
    { unfold generate_alternatives.
      apply yields_bind; [apply returns_logger|]. intros _.
      apply yields_bind; [apply returns_update|]. intros _.
      destruct products as [|p products'].
      - apply yields_bind; [apply returns_update|]. intros _.
        apply yields_the_alternatives.
      - apply yields_bind; [apply returns_increased_budget_block|]. intros _.
        apply yields_bind; [apply returns_reduced_preferences_block|]. intros _.
        apply yields_bind; [apply returns_general_suggestions|]. intros _.
        apply yields_bind; [apply returns_logger|]. intros _.
        apply yields_the_alternatives. }
    intros st. destruct (Hy st) as (st' & E). eauto.
  - intros st s1 e Hb Hraise. unfold increased_budget_block.
    assert (E : Qle_bool budget 0 = false).
    { destruct (Qle_bool budget 0) eqn:E; [|reflexivity].
      apply Qle_bool_iff in E. lra. }
    rewrite E. cbn [negb].
    now apply try_except_Exception_logs.
  - intros st s1 e first second rest -> Hraise.
    unfold reduced_preferences_block.
    now apply try_except_Exception_logs.
Qed.

(** C5.  [generate_recommendations] on the empty product list raises
    [NoResultsError] with the message that no products were found, having
    written its two log lines and nothing else: no method of the analyzer
    is called, whatever the analyzer is, and what the analyzer can change
    is as it was.  In [search] the empty product list is answered with the
    error text, never with alternatives, and again the analyzer is not
    called. *)
Theorem generate_recommendations_empty budget preferences :
  (forall (L : Type) (st : state (W * L)),
      generate_recommendations self_analyzer top_count [] budget preferences st
      = (mkState (store st)
           (log st ++ [(INFO, "Generating recommendations");
                       (WARNING, "No products to recommend")]),
         Raise (mkExn NoResultsError "No products found matching your criteria")))
  /\ (forall st, exists st',
         search self_analyzer top_count format_currency
           collect_reviews [] budget preferences st
         = (st', Return (FormatError "No products found matching your criteria."))
         /\ fst (store st') = fst (store st)).
Proof.
  split.
  - intros L st. unfold generate_recommendations, bind, logger, raise.
    cbn [store log]. now rewrite <- app_assoc.
  - intros st. eexists. split; reflexivity.
Qed.

End EngineFacts.

(** The engine does not call the counting analyzer on the empty list. *)
Example generate_recommendations_empty_counting :
  generate_recommendations counting_analyzer 5 [] 100 ["gaming"]
    (fresh (0, tt))
  = (mkState (0, tt)
       [(INFO, "Generating recommendations");
        (WARNING, "No products to recommend")],
     Raise (mkExn NoResultsError "No products found matching your criteria")).
Proof. reflexivity. Qed.

(** With an analyzer that always raises, both attempts are logged and the
    two general suggestions are returned. *)
Example generate_alternatives_failing_analyzer :
  generate_alternatives failing_analyzer (fun _ => Return "120.00")
    sample_products 100 ["gaming"; "lightweight"] (fresh (tt, no_alternatives))
  = (mkState
       (tt, mkAlternatives None None
              ["Try searching for a different product category or model.";
               "Consider waiting for sales or discounts if your budget is fixed."])
       [(INFO, "Generating alternatives");
        (ERROR, "Error generating increased budget alternatives: ranking failed");
        (ERROR, "Error generating reduced preference alternatives: ranking failed");
        (INFO, "Generated alternatives and suggestions")],
     Return (mkAlternatives None None
               ["Try searching for a different product category or model.";
                "Consider waiting for sales or discounts if your budget is fixed."])).
Proof. vm_compute. reflexivity. Qed.

(* ================================================================== *)
(** ** More on preference scoring *)
(* ================================================================== *)

Lemma subseq_app {A : Type} (a b c d : list A) :
  subseq a b -> subseq c d -> subseq (a ++ c) (b ++ d).
Proof.
  intros Hab Hcd. induction Hab; simpl; [exact Hcd | |]; now constructor.
Qed.

Lemma subseq_nil_l {A : Type} (l : list A) : subseq [] l.
Proof. induction l; now constructor. Qed.

(** What the loop over the preferences keeps true of its state. *)
Lemma preference_step_invariant text done score matched preference :
  subseq matched done
  /\ (inject_Z (Z.of_nat (length matched)) * (1 # 2) <= score)%Q
  /\ (score <= inject_Z (Z.of_nat (length matched)))%Q ->
  let st := preference_step text (score, matched) preference in
  subseq (snd st) (done ++ [preference])
  /\ (inject_Z (Z.of_nat (length (snd st))) * (1 # 2) <= fst st)%Q
  /\ (fst st <= inject_Z (Z.of_nat (length (snd st))))%Q.
Proof.
  intros (Hsub & Hlo & Hhi).
  assert (Hkeep : subseq matched (done ++ [preference])).
  { rewrite <- (app_nil_r matched). apply subseq_app; [exact Hsub|].
    apply subseq_nil_l. }
  assert (Htake : subseq (matched ++ [preference]) (done ++ [preference])).
  { apply subseq_app; [exact Hsub|]. apply subseq_take, subseq_nil. }
  assert (Hlen : inject_Z (Z.of_nat (length (matched ++ [preference])))
                 == inject_Z (Z.of_nat (length matched)) + 1).
  { rewrite length_app, Nat2Z.inj_add, inject_Z_plus. reflexivity. }
  unfold preference_step.
  destruct (contains (lower preference) text).
  - cbn [fst snd]. split; [exact Htake|]. rewrite Hlen. split; lra.
  - destruct (1 <? length (split (lower preference))).
    + destruct (Qle_bool _ _).
      * cbn [fst snd]. split; [exact Htake|]. rewrite Hlen. split; lra.
      * cbn [fst snd]. auto.
    + cbn [fst snd]. auto.
Qed.

Lemma preference_fold_invariant text preferences done score matched :
  subseq matched done
  /\ (inject_Z (Z.of_nat (length matched)) * (1 # 2) <= score)%Q
  /\ (score <= inject_Z (Z.of_nat (length matched)))%Q ->
  let st := fold_left (preference_step text) preferences (score, matched) in
  subseq (snd st) (done ++ preferences)
  /\ (inject_Z (Z.of_nat (length (snd st))) * (1 # 2) <= fst st)%Q
  /\ (fst st <= inject_Z (Z.of_nat (length (snd st))))%Q.
Proof.
  revert done score matched.
  induction preferences as [|pref rest IH]; intros done score matched Hinv.
  - cbn. now rewrite app_nil_r.
  - cbn [fold_left].
    pose proof (preference_step_invariant text done score matched pref Hinv)
      as Hstep.
    destruct (preference_step text (score, matched) pref) as [score' matched'].
    cbn [fst snd] in Hstep.
    specialize (IH (done ++ [pref]) score' matched' Hstep).
    now rewrite <- app_assoc in IH.
Qed.

(** A preference the text holds verbatim is recorded, and what is
    recorded stays. *)
Lemma preference_fold_records text preferences score matched preference :
  In preference matched
  \/ (In preference preferences /\ contains (lower preference) text = true) ->
  In preference
     (snd (fold_left (preference_step text) preferences (score, matched))).
Proof.
  revert score matched.
  induction preferences as [|pref rest IH]; intros score matched H.
  - cbn. destruct H as [H|[[] _]]. exact H.
  - cbn [fold_left].
    destruct (preference_step text (score, matched) pref)
      as [score' matched'] eqn:E.
    apply IH.
    assert (Hmono : forall x, In x matched -> In x matched').
    { intros x Hx. unfold preference_step in E.
      destruct (contains (lower pref) text);
        [inversion E; subst; apply in_or_app; now left|].
      destruct (1 <? length (split (lower pref)));
        [|now inversion E; subst].
      destruct (Qle_bool _ _); inversion E; subst;
        [apply in_or_app; now left | exact Hx]. }
    destruct H as [H|[[->|Hin] Hc]].
    + left. now apply Hmono.
    + left. unfold preference_step in E. rewrite Hc in E.
      inversion E; subst. apply in_or_app. right. now left.
    + right. now split.
Qed.

Lemma prefix_app sub a b :
  String.prefix sub a = true -> String.prefix sub (a ++ b) = true.
Proof.
  revert a. induction sub as [|c sub IH]; intros a H;
    [destruct (a ++ b)%string; reflexivity|].
  destruct a as [|c' a]; [discriminate|].
  cbn in H |- *. destruct (ascii_dec c c'); [now apply IH | discriminate].
Qed.

Lemma contains_app_l sub a b :
  contains sub a = true -> contains sub (a ++ b) = true.
Proof.
  induction a as [|c a IH]; intros H.
  - cbn in H. rewrite orb_false_r in H.
    destruct sub; [|discriminate]. destruct b; reflexivity.
  - cbn [contains] in H. apply orb_true_iff in H as [H|H].
    + cbn [append contains]. apply orb_true_iff. left.
      now apply (prefix_app sub (String c a) b).
    + cbn [append contains]. apply orb_true_iff. right. now apply IH.
Qed.

(** X1.  [score_by_preferences] keeps the products, their order and their
    listings; every product gets a preference score and a list of matched
    preferences; the matched preferences are preferences, in the order in
    which they were given; each counts 1 or 0.5, so that the score lies
    between half the number of matched preferences and that number. *)
Theorem score_by_preferences_invariants products preferences :
  map erase_derived (score_by_preferences products preferences)
  = map erase_derived products
  /\ Forall (fun p =>
               exists score matched,
                 preference_score p = Some score
                 /\ matched_preferences p = Some matched
                 /\ subseq matched preferences
                 /\ (inject_Z (Z.of_nat (length matched)) * (1 # 2) <= score)%Q
                 /\ (score <= inject_Z (Z.of_nat (length matched)))%Q)
            (score_by_preferences products preferences).
Proof.
  rewrite score_by_preferences_map. split.
  - rewrite map_map. apply map_ext. intros p.
    apply with_preferences_frame.
  - apply Forall_forall. intros q Hq. apply in_map_iff in Hq as (p & <- & _).
    unfold with_preferences. destruct preferences as [|pref rest].
    + exists 0%Q, []. split; [reflexivity|]. split; [reflexivity|].
      split; [constructor|]. split; unfold Qle; cbn; lia.
    + pose proof (preference_fold_invariant (product_text p) (pref :: rest)
                    [] 0%Q []) as H.
      destruct (fold_left _ _ _) as [score matched].
      exists score, matched. cbn [fst snd app] in H.
      split; [reflexivity|]. split; [reflexivity|].
      apply H. split; [constructor|]. split; unfold Qle; cbn; lia.
Qed.

(** X2.  A preference that occurs verbatim in the name of a product,
    upper and lower case taken as the same, is among its matched
    preferences. *)
Theorem score_by_preferences_verbatim products preferences p preference n :
  In p products -> In preference preferences ->
  name p = Some n -> contains (lower preference) (lower n) = true ->
  exists q matched,
    In q (score_by_preferences products preferences)
    /\ erase_derived q = erase_derived p
    /\ matched_preferences q = Some matched
    /\ In preference matched.
Proof.
  intros Hp Hpref Hn Hc.
  assert (Htext : contains (lower preference) (product_text p) = true).
  { unfold product_text. rewrite Hn. cbn [get]. now apply contains_app_l. }
  destruct preferences as [|pref rest]; [destruct Hpref|].
  pose proof (preference_fold_records (product_text p) (pref :: rest) 0%Q []
                preference (or_intror (conj Hpref Htext))) as Hrec.
  pose proof (with_preferences_frame (pref :: rest) p) as [_ Hframe].
  assert (Hin : In (with_preferences (pref :: rest) p)
                   (score_by_preferences products (pref :: rest))).
  { rewrite score_by_preferences_map. now apply in_map. }
  revert Hframe Hin. unfold with_preferences at 1 2.
  destruct (fold_left _ _ _) as [score matched]. cbn [snd] in Hrec.
  intros Hframe Hin.
  exists (set_preferences p score matched), matched. now repeat split.
Qed.

Lemma score_by_preferences_verbatim_witness :
  In (listing "Gaming Notebook" 68 []) tie_products
  /\ In "GAMING" ["lightweight"; "GAMING"]
  /\ name (listing "Gaming Notebook" 68 []) = Some "Gaming Notebook"
  /\ contains (lower "GAMING") (lower "Gaming Notebook") = true
  /\ exists q matched,
       In q (score_by_preferences tie_products ["lightweight"; "GAMING"])
       /\ erase_derived q = erase_derived (listing "Gaming Notebook" 68 [])
       /\ matched_preferences q = Some matched
       /\ In "GAMING" matched.
Proof.
  split; [left; reflexivity|]. split; [right; left; reflexivity|].
  split; [reflexivity|]. split; [reflexivity|].
  apply (score_by_preferences_verbatim tie_products ["lightweight"; "GAMING"]
           (listing "Gaming Notebook" 68 []) "GAMING" "Gaming Notebook");
    [left; reflexivity | right; left; reflexivity | reflexivity | reflexivity].
Defined.

(* ================================================================== *)
(** ** More on the review score and the price score *)
(* ================================================================== *)

(** X3.  The review score is 0 for a product without a rating or with
    fewer reviews than [MIN_REVIEWS]; otherwise it is the rating plus a
    bonus between 0 and 1, provided the logarithm of a count of at least
    one is not negative. *)
Theorem calculate_review_score_bounds cfg log10 p :
  (forall n, (1 <= n)%Z -> (0 <= log10 n)%Q) ->
  (rating p = None -> calculate_review_score cfg log10 p = 0%Q)
  /\ ((get (review_count p) 0 < MIN_REVIEWS cfg)%Z ->
      calculate_review_score cfg log10 p = 0%Q)
  /\ (forall r, rating p = Some r ->
        (MIN_REVIEWS cfg <= get (review_count p) 0)%Z ->
        (r <= calculate_review_score cfg log10 p)%Q
        /\ (calculate_review_score cfg log10 p <= r + 1)%Q).
Proof.
  intros Hlog. unfold calculate_review_score. split; [|split].
  - now intros ->.
  - intros Hlt. apply Z.ltb_lt in Hlt. rewrite Hlt. now destruct (rating p).
  - intros r -> Hge. apply Z.ltb_ge in Hge. rewrite Hge.
    destruct (0 <? get (review_count p) 0)%Z eqn:Hpos.
    + apply Z.ltb_lt in Hpos.
      assert (H0 : (0 <= log10 (get (review_count p) 0%Z))%Q)
        by (apply Hlog; lia).
      assert (Hb : (0 <= Qmin 1 (log10 (get (review_count p) 0%Z) / 3))%Q).
      { apply Q.min_glb; [lra|].
        apply Qle_shift_div_l; [reflexivity | lra]. }
      pose proof (Q.le_min_l 1 (log10 (get (review_count p) 0%Z) / 3)).
      split; lra.
    + split; lra.
Qed.

Lemma calculate_review_score_bounds_witness :
  (forall n, (1 <= n)%Z -> (0 <= inject_Z (Z.log2 n))%Q)
  /\ (rating phone = None ->
      calculate_review_score default_config (fun n => inject_Z (Z.log2 n)) phone
      = 0%Q).
Proof.
  assert (H : forall n, (1 <= n)%Z -> (0 <= inject_Z (Z.log2 n))%Q).
  { intros n _. change 0%Q with (inject_Z 0). rewrite <- Zle_Qle.
    apply Z.log2_nonneg. }
  split; [exact H|].
  apply (calculate_review_score_bounds default_config
           (fun n => inject_Z (Z.log2 n)) phone H).
Defined.

Lemma ratio_le pr1 pr2 budget :
  (0 < budget)%Q -> (pr1 <= pr2)%Q -> (pr1 / budget <= pr2 / budget)%Q.
Proof.
  intros Hb Hle. unfold Qdiv. apply Qmult_le_compat_r; [exact Hle|].
  apply Qlt_le_weak, Qinv_lt_0_compat, Hb.
Qed.

Lemma Qle_bool_false x y : Qle_bool x y = false <-> (y < x)%Q.
Proof.
  split.
  - intros H. apply Qnot_le_lt. intros Hle.
    apply Qle_bool_iff in Hle. congruence.
  - intros H. destruct (Qle_bool x y) eqn:E; [|reflexivity].
    apply Qle_bool_iff in E. lra.
Qed.

(** X4.  For a positive budget the price score lies between 0 and 1,
    and among products with a positive price a higher price never gets a
    higher price score. *)
Theorem price_score_of_range_antitone budget :
  (0 < budget)%Q ->
  (forall pr, (0 <= price_score_of pr budget)%Q
              /\ (price_score_of pr budget <= 1)%Q)
  /\ (forall pr1 pr2, (0 < pr1)%Q -> (pr1 <= pr2)%Q ->
        (price_score_of pr2 budget <= price_score_of pr1 budget)%Q).
Proof.
  intros Hb.
  assert (Hrange : forall pr, (0 <= price_score_of pr budget)%Q
                              /\ (price_score_of pr budget <= 1)%Q).
  { intros pr. unfold price_score_of.
    destruct (Qle_bool pr 0) eqn:H0; [split; lra|].
    apply Qle_bool_false in H0.
    assert (Hr : (0 < pr / budget)%Q)
      by (apply Qlt_shift_div_l; [exact Hb | lra]).
    destruct (Qle_bool (pr / budget) 1) eqn:H1.
    - apply Qle_bool_iff in H1. split; lra.
    - apply Qle_bool_false in H1. split; [apply Q.le_max_l|].
      apply Q.max_lub; lra. }
  split; [exact Hrange|].
  intros pr1 pr2 H1 H12.
  pose proof (ratio_le pr1 pr2 budget Hb H12) as Hr.
  unfold price_score_of.
  assert (E1 : Qle_bool pr1 0 = false) by (apply Qle_bool_false; exact H1).
  assert (E2 : Qle_bool pr2 0 = false) by (apply Qle_bool_false; lra).
  rewrite E1, E2.
  destruct (Qle_bool (pr2 / budget) 1) eqn:R2.
  - apply Qle_bool_iff in R2.
    assert (R1 : Qle_bool (pr1 / budget) 1 = true)
      by (apply Qle_bool_iff; lra).
    rewrite R1. lra.
  - apply Qle_bool_false in R2.
    destruct (Qle_bool (pr1 / budget) 1) eqn:R1.
    + apply Qle_bool_iff in R1. apply Q.max_lub; lra.
    + apply Q.max_le_compat_l. lra.
Qed.

Lemma price_score_of_range_antitone_witness :
  (0 < 100)%Q
  /\ (0 <= price_score_of 90 100)%Q /\ (price_score_of 90 100 <= 1)%Q.
Proof.
  split; [reflexivity|].
  apply (price_score_of_range_antitone 100); reflexivity.
Defined.

(* ================================================================== *)
(** ** When the ranking is empty, and what the key features are *)
(* ================================================================== *)

Lemma filter_nil_iff {A : Type} (P : A -> bool) l :
  filter P l = [] <-> forall x, In x l -> P x = false.
Proof.
  induction l as [|a l IH]; cbn [filter]; [now split|].
  destruct (P a) eqn:E.
  - split; [discriminate|]. intros H. rewrite (H a) in E; [discriminate|now left].
  - rewrite IH. split.
    + intros H x [<-|Hx]; [exact E | now apply H].
    + intros H x Hx. apply H. now right.
Qed.

(** X5.  The ranking has as many products as the budget filter lets
    through, never more than it was given, and it is empty exactly when no
    product is priced within the budget or within the flexibility above
    it. *)
Theorem rank_products_empty_iff cfg log10 products budget preferences :
  length (rank_products cfg log10 products budget preferences)
  = length (filter_by_budget cfg products budget)
  /\ length (rank_products cfg log10 products budget preferences)
     <= length products
  /\ (rank_products cfg log10 products budget preferences = [] <->
      forall p, In p products ->
        within budget p = false /\ within (max_price_of cfg budget) p = false).
Proof.
  assert (Hlen : length (rank_products cfg log10 products budget preferences)
                 = length (filter_by_budget cfg products budget)).
  { unfold rank_products. rewrite stable_sort_length, scored_products_map.
    apply length_map. }
  split; [exact Hlen|].
  set (prim := primary_pool products budget).
  set (sec := secondary_pool products budget (max_price_of cfg budget)).
  assert (Hf : length (filter_by_budget cfg products budget)
               = length prim + Nat.min (3 - length prim) (length sec)).
  { rewrite filter_by_budget_eq, length_app, length_firstn, stable_sort_length.
    reflexivity. }
  assert (Hpools : length prim + length sec <= length products).
  { unfold prim, sec, primary_pool, secondary_pool. rewrite length_map.
    clear. induction products as [|p l IH]; [cbn; lia|].
    cbn [filter]. unfold in_band at 1.
    destruct (within budget p); cbn [negb andb];
      [|destruct (within _ p)]; cbn [length]; lia. }
  split; [lia|].
  rewrite <- length_zero_iff_nil, Hlen, Hf.
  split.
  - intros H0 p Hp.
    assert (Hprim : prim = []) by (apply length_zero_iff_nil; lia).
    assert (Hsec : sec = []) by (apply length_zero_iff_nil; lia).
    unfold prim, primary_pool in Hprim.
    rewrite filter_nil_iff in Hprim. specialize (Hprim p Hp).
    split; [exact Hprim|].
    unfold sec, secondary_pool in Hsec. apply map_eq_nil in Hsec.
    rewrite filter_nil_iff in Hsec. specialize (Hsec p Hp).
    unfold in_band in Hsec. rewrite Hprim in Hsec. exact Hsec.
  - intros H.
    assert (Hprim : prim = []).
    { unfold prim, primary_pool. apply filter_nil_iff.
      intros p Hp. now apply H. }
    assert (Hsec : sec = []).
    { unfold sec, secondary_pool.
      replace (filter _ products) with (@nil product); [reflexivity|].
      symmetry. apply filter_nil_iff. intros p Hp.
      destruct (H p Hp) as [H1 H2]. unfold in_band. now rewrite H1, H2. }
    now rewrite Hprim, Hsec.
Qed.

Lemma mem_In x l : mem x l = true <-> In x l.
Proof.
  unfold mem. rewrite existsb_exists. split.
  - intros (y & Hy & E). apply String.eqb_eq in E. now subst.
  - intros H. exists x. split; [exact H | apply String.eqb_refl].
Qed.

Lemma unique_fold_invariant all acc :
  NoDup acc -> Forall (fun f => f <> "") acc ->
  let out := fold_left unique_step all acc in
  NoDup out /\ Forall (fun f => f <> "") out
  /\ (forall f, In f out -> In f acc \/ In f all)
  /\ (forall f, In f acc \/ (In f all /\ f <> "") -> In f out).
Proof.
  revert acc. induction all as [|a all IH]; intros acc Hnd Hne.
  - cbn. repeat split; auto. intros f [H|[[] _]]. exact H.
  - cbn [fold_left].
    assert (Hs : unique_step acc a
                 = if negb (is_empty a) && negb (mem a acc)
                   then acc ++ [a] else acc) by reflexivity.
    destruct (negb (is_empty a) && negb (mem a acc)) eqn:E; rewrite Hs.
    + apply andb_true_iff in E as [E1 E2].
      apply negb_true_iff in E1, E2.
      assert (Ha : a <> "") by (intros ->; discriminate).
      assert (Hnotin : ~ In a acc).
      { intros Hin. apply mem_In in Hin. congruence. }
      destruct (IH (acc ++ [a])) as (H1 & H2 & H3 & H4).
      * apply NoDup_app; [exact Hnd | repeat constructor; intros [] |].
        intros x Hx [<-|[]]. contradiction.
      * apply Forall_app. split; [exact Hne | now repeat constructor].
      * cbv zeta. repeat split; try assumption.
        -- intros f Hf. destruct (H3 f Hf) as [Hacc|Hall].
           ++ apply in_app_or in Hacc as [Hacc|[<-|[]]]; [now left|].
              right. now left.
           ++ right. now right.
        -- intros f [Hf|[[<-|Hf] Hn]]; apply H4.
           ++ left. apply in_or_app. now left.
           ++ left. apply in_or_app. right. now left.
           ++ right. now split.
    + destruct (IH acc Hnd Hne) as (H1 & H2 & H3 & H4).
      cbv zeta. repeat split; try assumption.
      * intros f Hf. destruct (H3 f Hf) as [Hacc|Hall]; [now left|].
        right. now right.
      * intros f [Hf|[[<-|Hf] Hn]]; apply H4.
        -- now left.
        -- left. apply andb_false_iff in E as [E|E].
           ++ apply negb_false_iff in E. destruct a; [contradiction | discriminate].
           ++ apply negb_false_iff in E. now apply mem_In.
        -- right. now split.
Qed.

Lemma NoDup_firstn {A : Type} n (l : list A) : NoDup l -> NoDup (firstn n l).
Proof.
  intros H. rewrite <- (firstn_skipn n l) in H.
  now apply NoDup_app_remove_r in H.
Qed.

(** X6.  [extract_key_features] returns at most five strings, none of
    them empty and no two of them equal, each of them a listed feature of
    the product, a technical detail or parenthesised word of its name, or
    one of its matched preferences; with fewer than six candidates no
    candidate is left out. *)
Theorem extract_key_features_result p preferences :
  let key := fst (extract_key_features p preferences) in
  let candidates := get (features p) [] ++ extensions p in
  length key <= 5
  /\ NoDup key
  /\ Forall (fun f => f <> "" /\ In f candidates) key
  /\ (length candidates <= 5 ->
      forall f, In f candidates -> f <> "" -> In f key).
Proof.
  intros key candidates. subst key. unfold extract_key_features. cbn [fst].
  fold candidates.
  destruct (unique_fold_invariant candidates [] (NoDup_nil _) (Forall_nil _))
    as (Hnd & Hne & Hsrc & Hall).
  cbv zeta in *.
  set (unique := fold_left unique_step candidates []) in *.
  set (sorted := match preferences with
                 | [] => unique
                 | _ :: _ => stable_sort (by_match_desc preferences) unique
                 end).
  assert (Hperm : Permutation sorted unique).
  { unfold sorted. destruct preferences; [reflexivity | apply stable_sort_perm]. }
  assert (Hlen : length unique <= length candidates).
  { unfold unique. clear.
    assert (G : forall all acc,
               length (fold_left unique_step all acc) <= length acc + length all).
    { induction all as [|a all IH]; intros acc; cbn [fold_left length]; [lia|].
      assert (Hs : unique_step acc a
                   = if negb (is_empty a) && negb (mem a acc)
                     then acc ++ [a] else acc) by reflexivity.
      rewrite Hs.
      destruct (negb (is_empty a) && negb (mem a acc)).
      - specialize (IH (acc ++ [a])). rewrite length_app in IH. cbn in IH. lia.
      - specialize (IH acc). lia. }
    apply (G candidates []). }
  split; [|split; [|split]].
  - rewrite length_firstn. lia.
  - apply NoDup_firstn. eapply Permutation_NoDup; [symmetry; exact Hperm|].
    exact Hnd.
  - apply Forall_forall. intros f Hf. apply In_firstn in Hf.
    apply (Permutation_in _ Hperm) in Hf. split.
    + rewrite Forall_forall in Hne. now apply Hne.
    + destruct (Hsrc f Hf) as [[]|H]. exact H.
  - intros H5 f Hf Hn.
    rewrite firstn_all2
      by (rewrite (Permutation_length Hperm); lia).
    apply (Permutation_in _ (Permutation_sym Hperm)).
    apply Hall. right. now split.
Qed.

(* ================================================================== *)
(** ** More on the cache *)
(* ================================================================== *)

Section CacheMoreFacts.
Context {D : Type}.
Variable fromisoformat : string -> option datetime.
Variable isoformat : Q -> string.

(** What a read returns depends on the file of its key alone. *)
Lemma get_cached_data_depends_on_file now cache_key expiry_seconds
      (st st' : state (disk D)) :
  files (store st) cache_key = files (store st') cache_key ->
  snd (get_cached_data fromisoformat now cache_key expiry_seconds st)
  = snd (get_cached_data fromisoformat now cache_key expiry_seconds st').
Proof.
  intros H. unfold get_cached_data, bind, read. rewrite <- H.
  destruct (files (store st) cache_key) as [f|]; [|reflexivity].
  unfold try_except, read_cache_file.
  destruct f as [msg|msg|msg| |ts data]; try reflexivity.
  destruct (negb (is_true ts)); [reflexivity|].
  destruct ts as [[s|b]|]; try reflexivity.
  destruct (fromisoformat s) as [[t|t offset]|]; try reflexivity.
  destruct (negb (Qle_bool (now - t) expiry_seconds)); reflexivity.
Qed.

(** X7.  A read never changes the cache directory, whatever it finds and
    also when it raises; it only adds to the log. *)
Theorem get_cached_data_read_only now cache_key expiry_seconds
        (st : state (disk D)) :
  store (fst (get_cached_data fromisoformat now cache_key expiry_seconds st))
  = store st
  /\ exists entries,
       log (fst (get_cached_data fromisoformat now cache_key expiry_seconds st))
       = log st ++ entries.
Proof.
  unfold get_cached_data, bind, read.
  destruct (files (store st) cache_key) as [f|];
    [|split; [reflexivity | exists []; now rewrite app_nil_r]].
  unfold try_except, read_cache_file.
  destruct f as [msg|msg|msg| |ts data];
    try (split; [reflexivity | eexists; reflexivity]);
    try (split; [reflexivity | exists []; now rewrite app_nil_r]).
  destruct (negb (is_true ts));
    [split; [reflexivity | exists []; now rewrite app_nil_r]|].
  destruct ts as [[s|b]|];
    try (split; [reflexivity | exists []; now rewrite app_nil_r]).
  destruct (fromisoformat s) as [[t|t offset]|];
    try (split; [reflexivity | exists []; now rewrite app_nil_r]).
  destruct (negb (Qle_bool (now - t) expiry_seconds));
    (split; [reflexivity | eexists; reflexivity]).
Qed.

(** X8.  Round trip and expiry.  On a disk that can be written, and with
    a clock text that [fromisoformat] reads back, a payload saved at
    [now] is returned unchanged by a read of the same key at any time
    [later] with [later - now <= expiry_seconds], and is reported absent by
    a read with [later - now > expiry_seconds], the file still being
    there. *)
Theorem cache_round_trip now later (data : D) cache_key expiry_seconds
        files0 entries :
  fromisoformat (isoformat now) = Some (Naive now) -> isoformat now <> "" ->
  let saved := save_to_cache isoformat now data cache_key
                 (mkState (mkDisk files0 None) entries) in
  snd saved = Return true
  /\ files (store (fst saved)) cache_key
     = Some (Object (Some (TsText (isoformat now))) (Some data))
  /\ ((later - now <= expiry_seconds)%Q ->
      snd (get_cached_data fromisoformat later cache_key expiry_seconds
             (fst saved))
      = Return (Some data))
  /\ ((expiry_seconds < later - now)%Q ->
      snd (get_cached_data fromisoformat later cache_key expiry_seconds
             (fst saved))
      = Return None).
Proof.
  intros Hiso Hne saved. subst saved.
  unfold save_to_cache, bind, read, write, logger, ret.
  cbn [store log files fst snd write_error].
  split; [reflexivity|].
  assert (Hfile : (if String.eqb cache_key cache_key
                   then Some (Object (Some (TsText (isoformat now))) (Some data))
                   else files0 cache_key)
                  = Some (Object (Some (TsText (isoformat now))) (Some data)))
    by now rewrite String.eqb_refl.
  split; [exact Hfile|].
  assert (Htrue : is_true (Some (TsText (isoformat now))) = true).
  { cbn. destruct (isoformat now); [contradiction | reflexivity]. }
  unfold get_cached_data, bind, read, try_except, read_cache_file.
  cbn [store log files fst snd].
  rewrite Hfile, Htrue, Hiso. cbn [negb].
  split; intros Ht.
  - apply Qle_bool_iff in Ht. rewrite Ht. reflexivity.
  - apply Qle_bool_false in Ht. rewrite Ht. reflexivity.
Qed.

(** X9.  A write under one key, whether it succeeds or fails, does not
    change what a read under another key returns. *)
Theorem save_to_cache_other_key now later (data : D) cache_key other
        expiry_seconds (st : state (disk D)) :
  other <> cache_key ->
  snd (get_cached_data fromisoformat later other expiry_seconds
         (fst (save_to_cache isoformat now data cache_key st)))
  = snd (get_cached_data fromisoformat later other expiry_seconds st).
Proof.
  intros Hneq. apply get_cached_data_depends_on_file.
  unfold save_to_cache, bind, read, write, logger, ret, raise.
  apply String.eqb_neq in Hneq.
  destruct (write_error (store st)) as [[msg|msg remains]|];
    cbn [store files fst]; rewrite ?Hneq; reflexivity.
Qed.

End CacheMoreFacts.

Lemma cache_round_trip_witness :
  (fun _ : string => Some (Naive 0)) ((fun _ : Q => "2024-01-01T00:00:00") 0%Q)
  = Some (Naive 0)
  /\ (fun _ : Q => "2024-01-01T00:00:00") 0%Q <> ""
  /\ snd (get_cached_data (fun _ => Some (Naive 0)) 3600 "k" 86400
            (fst (save_to_cache (fun _ => "2024-01-01T00:00:00") 0 [phone] "k"
                    (fresh empty_disk))))
     = Return (Some [phone]).
Proof.
  split; [reflexivity|]. split; [discriminate|].
  apply (cache_round_trip (fun _ => Some (Naive 0))
           (fun _ => "2024-01-01T00:00:00") 0 3600 [phone] "k" 86400
           (fun _ => None) []);
    [reflexivity | discriminate | discriminate].
Defined.

Lemma save_to_cache_other_key_witness :
  "other" <> "k"
  /\ snd (get_cached_data (fun _ => Some (Naive 0)) 0 "other" 86400
            (fst (save_to_cache (fun _ => "t") 0 [phone] "k" (fresh full_disk))))
     = snd (get_cached_data (fun _ => Some (Naive 0)) 0 "other" 86400
              (fresh full_disk)).
Proof.
  split; [discriminate|].
  apply (save_to_cache_other_key (fun _ => Some (Naive 0)) (fun _ => "t") 0 0
           [phone] "k" "other" 86400 (fresh full_disk)).
  discriminate.
Defined.

(* ================================================================== *)
(** ** The shape of a cache key *)
(* ================================================================== *)

Lemma le_bytes_length n x : length (MD5.le_bytes n x) = n.
Proof. revert x. induction n; intros x; cbn; [reflexivity | now rewrite IHn]. Qed.

Lemma digest_length msg : length (MD5.digest msg) = 16.
Proof.
  unfold MD5.digest.
  destruct (fold_left _ _ _) as [[[a b] c] d].
  now rewrite !length_app, !le_bytes_length.
Qed.

Lemma hex_length bytes : String.length (MD5.hex bytes) = 2 * length bytes.
Proof. induction bytes as [|b l IH]; cbn [MD5.hex String.length length]; lia. Qed.

Lemma hex_digit_hex x :
  In (MD5.hex_digit x) (list_ascii_of_string "0123456789abcdef").
Proof.
  unfold MD5.hex_digit.
  destruct (nth_in_or_default (Z.to_nat x)
              (list_ascii_of_string "0123456789abcdef") "0"%char) as [H|H].
  - exact H.
  - rewrite H. now left.
Qed.

Lemma hex_chars bytes :
  Forall (fun c => In c (list_ascii_of_string "0123456789abcdef"))
         (list_ascii_of_string (MD5.hex bytes)).
Proof.
  induction bytes as [|b l IH]; cbn [MD5.hex list_ascii_of_string];
    [constructor|].
  constructor; [apply hex_digit_hex|].
  constructor; [apply hex_digit_hex | exact IH].
Qed.

(** X10.  A cache key is always 32 characters long and made of the
    digits and the lower-case letters a to f, so that the file name
    [<key>.json] holds no separator, whatever the query and the platform
    are. *)
Theorem generate_cache_key_shape query platform_name :
  String.length (generate_cache_key query platform_name) = 32
  /\ Forall (fun c => In c (list_ascii_of_string "0123456789abcdef"))
            (list_ascii_of_string (generate_cache_key query platform_name)).
Proof.
  unfold generate_cache_key, MD5.hexdigest. split.
  - now rewrite hex_length, digest_length.
  - apply hex_chars.
Qed.

(* ================================================================== *)
(** ** More on the collector *)
(* ================================================================== *)

Lemma normalized_passes p :
  negb (is_empty (get (name p) ""))
  && match price p with
     | Some pr => negb (Qeq_bool pr 0)
     | None => false
     end = true ->
  exists n pr,
    name p = Some n /\ n <> "" /\ price p = Some pr /\ ~ (pr == 0)%Q.
Proof.
  intros H. apply andb_true_iff in H as [Hn Hp].
  destruct (name p) as [n|]; [|discriminate].
  destruct (price p) as [pr|]; [|discriminate].
  exists n, pr. repeat split.
  - intros ->. discriminate.
  - intros E. apply Qeq_bool_iff in E. rewrite E in Hp. discriminate.
Qed.

Lemma normalized_fails p :
  negb (is_empty (get (name p) ""))
  && match price p with
     | Some pr => negb (Qeq_bool pr 0)
     | None => false
     end = false ->
  ~ ((exists n, name p = Some n /\ n <> "")
     /\ (exists pr, price p = Some pr /\ ~ (pr == 0)%Q)).
Proof.
  intros H ((n & Hn & Hne) & (pr & Hpr & Hnz)).
  rewrite Hn, Hpr in H. cbn [get] in H.
  destruct n as [|c n]; [now apply Hne|]. cbn in H.
  destruct (Qeq_bool pr 0) eqn:E; [|discriminate].
  apply Qeq_bool_iff in E. contradiction.
Qed.

(** X11.  [_normalize_data] returns, in the order of the input and one
    for one, the listings that have a name that is not empty and a price
    that is not 0, and drops the others; a listing it returns has the
    name, the price and the rating of the listing it was made from, its
    review count or 0, its feature list or the empty one, the given
    platform and none of the keys of the analyzer; normalizing twice is
    normalizing once. *)
Theorem normalize_data_invariants products platform_name :
  (exists keep : product -> bool,
     (forall p, keep p = true <->
                (exists n, name p = Some n /\ n <> "")
                /\ (exists pr, price p = Some pr /\ ~ (pr == 0)%Q))
     /\ Forall2 (fun p q =>
                   name q = name p /\ price q = price p
                   /\ rating q = rating p
                   /\ review_count q = Some (get (review_count p) 0%Z)
                   /\ features q = Some (get (features p) [])
                   /\ platform q = Some platform_name
                   /\ erase_derived q = q)
                (filter keep products)
                (_normalize_data products platform_name))
  /\ length (_normalize_data products platform_name) <= length products
  /\ Forall (fun p =>
               (exists n, name p = Some n /\ n <> "")
               /\ (exists pr, price p = Some pr /\ ~ (pr == 0)%Q)
               /\ review_count p <> None /\ features p <> None
               /\ platform p = Some platform_name
               /\ erase_derived p = p)
            (_normalize_data products platform_name)
  /\ _normalize_data (_normalize_data products platform_name) platform_name
     = _normalize_data products platform_name.
Proof.
  unfold _normalize_data.
  split; [|split; [|split]].
  - eexists. split.
    + intros p. split.
      * intros H. destruct (normalized_passes p H)
          as (n & pr & Hn & Hne & Hpr & Hnz). eauto 6.
      * intros H.
        match goal with
        | |- ?f p = true => destruct (f p) eqn:E; [reflexivity|]
        end.
        cbv beta in E. now apply normalized_fails in E.
    + induction products as [|p l IH]; [constructor|].
      cbn [filter].
      destruct (negb (is_empty (get (name p) "")) && _) eqn:E; [|exact IH].
      destruct (normalized_passes p E)
        as (n & pr & Hn & Hne & Hpr & Hnz).
      cbn [map]. constructor; [|exact IH].
      cbn. rewrite Hn, Hpr. cbn [get]. repeat split.
  - rewrite length_map. apply filter_length_le.
  - apply Forall_forall. intros q Hq.
    apply in_map_iff in Hq as (p & <- & Hp). apply filter_In in Hp as [_ Hp].
    destruct (normalized_passes p Hp)
      as (n & pr & Hn & Hne & Hpr & Hnz).
    cbn. rewrite Hn, Hpr. cbn [get].
    repeat split; eauto; discriminate.
  - induction products as [|p l IH]; [reflexivity|].
    cbn [filter].
    destruct (negb (is_empty (get (name p) "")) && _) eqn:E; [|exact IH].
    destruct (normalized_passes p E)
      as (n & pr & Hn & Hne & Hpr & Hnz).
    cbn [map filter]. cbn [name price get]. rewrite Hn, Hpr. cbn [get].
    assert (E' : negb (is_empty n) && negb (Qeq_bool pr 0) = true).
    { rewrite Hn, Hpr in E. exact E. }
    rewrite E'. cbn [map]. f_equal. exact IH.
Qed.

Section CollectorMoreFacts.
Variable cfg : config.
Variable fromisoformat : string -> option datetime.
Variable isoformat : Q -> string.
Variable now : Q.
Variable scrape_amazon : string -> result (list product).
Variable scrape_flipkart : string -> result (list product).
Variable mock_products_for : string -> list product.

Let collect := _collect_from_platform cfg fromisoformat isoformat now
                 scrape_amazon scrape_flipkart mock_products_for.

Lemma collect_from_platform_hit platform_name query st s t p l :
  files (store st) (generate_cache_key query platform_name)
  = Some (Object (Some (TsText s)) (Some (p :: l))) ->
  s <> "" -> fromisoformat s = Some (Naive t) ->
  (now - t <= CACHE_EXPIRY cfg)%Q ->
  collect platform_name query st
  = (mkState (store st)
       (log st
        ++ [(INFO, ("Collecting data from " ++ platform_name
                    ++ " with query: " ++ query)%string);
            (DEBUG, ("Cache hit for key: "
                     ++ generate_cache_key query platform_name)%string);
            (INFO, ("Using cached data for " ++ platform_name)%string)]),
     Return (p :: l)).
Proof.
  intros Hfile Hs Hiso Hfresh. subst collect.
  destruct st as [d entries]. cbn [store log] in *.
  unfold _collect_from_platform.
  set (key := generate_cache_key query platform_name) in *. clearbody key.
  cbv beta iota zeta
      delta [bind logger get_cached_data read ret try_except
             read_cache_file store log fst snd].
  rewrite Hfile.
  assert (Htrue : is_true (Some (TsText s)) = true).
  { cbn. destruct s; [contradiction | reflexivity]. }
  rewrite Htrue, Hiso. cbn [negb].
  apply Qle_bool_iff in Hfresh. rewrite Hfresh. cbn [negb].
  rewrite <- !app_assoc. reflexivity.
Qed.

(** X12.  When the cache holds, under the key of the request, a list of
    products that is not empty, with a timestamp without a UTC offset
    (as the program writes them) that is not older than [CACHE_EXPIRY],
    the collector returns that list as it is, whatever the scrapers would
    do, and leaves the cache directory alone.  With a timestamp that
    carries a UTC offset the collector raises [TypeError] instead, the
    cache directory again left alone. *)
Theorem collect_from_platform_cache_hit platform_name query st s p l :
  files (store st) (generate_cache_key query platform_name)
  = Some (Object (Some (TsText s)) (Some (p :: l))) ->
  s <> "" ->
  (forall t,
     fromisoformat s = Some (Naive t) ->
     (now - t <= CACHE_EXPIRY cfg)%Q ->
     collect platform_name query st
     = (mkState (store st)
          (log st
           ++ [(INFO, ("Collecting data from " ++ platform_name
                       ++ " with query: " ++ query)%string);
               (DEBUG, ("Cache hit for key: "
                        ++ generate_cache_key query platform_name)%string);
               (INFO, ("Using cached data for " ++ platform_name)%string)]),
        Return (p :: l)))
  /\ (forall t offset,
        fromisoformat s = Some (Aware t offset) ->
        collect platform_name query st
        = (mkState (store st)
             (log st
              ++ [(INFO, ("Collecting data from " ++ platform_name
                          ++ " with query: " ++ query)%string)]),
           Raise (mkExn TypeError
                    "can't subtract offset-naive and offset-aware datetimes"))).
Proof.
  intros Hfile Hs. split.
  - intros t Hiso Hfresh. now apply collect_from_platform_hit with s t.
  - intros t offset Hiso. subst collect.
    destruct st as [d entries]. cbn [store log] in *.
    unfold _collect_from_platform.
    set (key := generate_cache_key query platform_name) in *. clearbody key.
    cbv beta iota zeta
        delta [bind logger get_cached_data read ret try_except
               read_cache_file store log fst snd].
    rewrite Hfile.
    assert (Htrue : is_true (Some (TsText s)) = true).
    { cbn. destruct s; [contradiction | reflexivity]. }
    rewrite Htrue, Hiso. reflexivity.
Qed.

(** X13.  With no file under the key of the request, an exception of the
    Amazon scraper that is no [ScrapingError] leaves the collector as it
    is, and nothing is written. *)
Theorem collect_from_platform_other_error query st e :
  files (store st) (generate_cache_key query "amazon") = None ->
  scrape_amazon query = Raise e ->
  caught_by [ScrapingError] e = false ->
  snd (collect "amazon" query st) = Raise e
  /\ store (fst (collect "amazon" query st)) = store st.
Proof.
  intros Hfile Hscrape He. subst collect.
  destruct st as [d entries]. cbn [store log] in *.
  unfold _collect_from_platform.
  set (key := generate_cache_key query "amazon") in *. clearbody key.
  rewrite String.eqb_refl.
  cbv beta iota zeta
      delta [bind logger get_cached_data read ret try_except scrape
             store log fst snd].
  rewrite Hfile, Hscrape, He. split; reflexivity.
Qed.

(** X14.  With no file under the key of the request and a disk that can
    be written, a [ScrapingError] of the Amazon scraper (a [NetworkError]
    or [ParsingError] included) is answered with the mock listings of the
    platform, which are returned and saved under the key. *)
Theorem collect_from_platform_mock_fallback query files0 entries e :
  files0 (generate_cache_key query "amazon") = None ->
  scrape_amazon query = Raise e ->
  caught_by [ScrapingError] e = true ->
  let st := mkState (mkDisk files0 None) entries in
  snd (collect "amazon" query st)
  = Return (on_platform "amazon" (mock_products_for query))
  /\ files (store (fst (collect "amazon" query st)))
           (generate_cache_key query "amazon")
     = Some (Object (Some (TsText (isoformat now)))
                    (Some (on_platform "amazon" (mock_products_for query)))).
Proof.
  intros Hfile Hscrape He st. subst collect st.
  unfold _collect_from_platform.
  set (key := generate_cache_key query "amazon") in *. clearbody key.
  rewrite String.eqb_refl.
  cbv beta iota zeta
      delta [bind logger get_cached_data read ret try_except scrape
             save_to_cache write store log files write_error fst snd].
  rewrite Hfile, Hscrape, He. cbn [fst snd store files].
  now rewrite String.eqb_refl.
Qed.

(** X15.  A platform other than "amazon" and "flipkart" gets the empty
    list, without a call of a scraper and without a write, when the cache
    has no file for the request. *)
Theorem collect_from_platform_unsupported platform_name query st :
  platform_name <> "amazon" -> platform_name <> "flipkart" ->
  files (store st) (generate_cache_key query platform_name) = None ->
  snd (collect platform_name query st) = Return []
  /\ store (fst (collect platform_name query st)) = store st.
Proof.
  intros Ha Hf Hfile. subst collect.
  destruct st as [d entries]. cbn [store log] in *.
  unfold _collect_from_platform.
  set (key := generate_cache_key query platform_name) in *. clearbody key.
  apply String.eqb_neq in Ha, Hf. rewrite Ha, Hf.
  cbv beta iota zeta
      delta [bind logger get_cached_data read ret try_except
             store log fst snd].
  rewrite Hfile. split; reflexivity.
Qed.

End CollectorMoreFacts.

(** X16.  Collecting twice.  With no file under the key, a disk that can
    be written and a clock text that [fromisoformat] reads back, a scrape
    of Amazon that yields at least one listing with a name and a price
    returns the normalized listings and saves them; a second request for
    the same query within [CACHE_EXPIRY] returns the same listings from
    the cache, whatever the scrapers and the mock provider then do. *)
Theorem collect_from_platform_twice cfg fromisoformat isoformat now later
        scrape_amazon scrape_flipkart mock_products_for
        scrape_amazon' scrape_flipkart' mock_products_for'
        query files0 entries products n ns :
  files0 (generate_cache_key query "amazon") = None ->
  scrape_amazon query = Return products ->
  _normalize_data products "amazon" = n :: ns ->
  fromisoformat (isoformat now) = Some (Naive now) -> isoformat now <> "" ->
  (later - now <= CACHE_EXPIRY cfg)%Q ->
  let first := _collect_from_platform cfg fromisoformat isoformat now
                 scrape_amazon scrape_flipkart mock_products_for
                 "amazon" query (mkState (mkDisk files0 None) entries) in
  snd first = Return (n :: ns)
  /\ snd (_collect_from_platform cfg fromisoformat isoformat later
            scrape_amazon' scrape_flipkart' mock_products_for'
            "amazon" query (fst first))
     = Return (n :: ns).
Proof.
  intros Hfile Hscrape Hnorm Hiso Hne Hfresh first.
  assert (Hfirst :
            snd first = Return (n :: ns)
            /\ files (store (fst first)) (generate_cache_key query "amazon")
               = Some (Object (Some (TsText (isoformat now))) (Some (n :: ns)))).
  { subst first. unfold _collect_from_platform.
    set (key := generate_cache_key query "amazon") in *. clearbody key.
    rewrite String.eqb_refl. unfold store_scraped.
    cbv beta iota zeta
        delta [bind logger get_cached_data read ret try_except scrape
               save_to_cache write store log files write_error fst snd].
    rewrite Hfile, Hscrape, Hnorm. cbn [fst snd store files].
    now rewrite String.eqb_refl. }
  destruct Hfirst as [Hret Hsaved]. split; [exact Hret|].
  rewrite (collect_from_platform_hit cfg fromisoformat isoformat later
             scrape_amazon' scrape_flipkart' mock_products_for'
             "amazon" query (fst first) (isoformat now) now n ns
             Hsaved Hne Hiso Hfresh).
  reflexivity.
Qed.

Lemma collect_from_platform_twice_witness :
  (fun _ : string => @None (cache_file (list product)))
    (generate_cache_key "laptop" "amazon") = None
  /\ sample_scrape_amazon "laptop" = Return [listing "Alpha" 90 []]
  /\ _normalize_data [listing "Alpha" 90 []] "amazon"
     = [mkProduct (Some "Alpha") (Some 90%Q) None (Some 0%Z) (Some [])
          (Some "amazon") None None None None None None]
  /\ (fun _ : string => Some (Naive 0)) ((fun _ : Q => "2024-01-01") 0%Q)
     = Some (Naive 0)
  /\ (fun _ : Q => "2024-01-01") 0%Q <> ""
  /\ (3600 - 0 <= CACHE_EXPIRY default_config)%Q
  /\ snd (_collect_from_platform default_config (fun _ => Some (Naive 0))
            (fun _ => "2024-01-01") 3600
            sample_scrape_flipkart sample_scrape_flipkart (fun _ => [])
            "amazon" "laptop"
            (fst (_collect_from_platform default_config (fun _ => Some (Naive 0))
                    (fun _ => "2024-01-01") 0
                    sample_scrape_amazon sample_scrape_flipkart
                    (fun _ => sample_products) "amazon" "laptop"
                    (mkState (mkDisk (fun _ => None) None) []))))
     = Return [mkProduct (Some "Alpha") (Some 90%Q) None (Some 0%Z) (Some [])
                 (Some "amazon") None None None None None None].
Proof.
  split; [reflexivity|]. split; [reflexivity|]. split; [reflexivity|].
  split; [reflexivity|]. split; [discriminate|]. split; [discriminate|].
  apply (collect_from_platform_twice default_config (fun _ => Some (Naive 0))
           (fun _ => "2024-01-01") 0 3600
           sample_scrape_amazon sample_scrape_flipkart (fun _ => sample_products)
           sample_scrape_flipkart sample_scrape_flipkart (fun _ => [])
           "laptop" (fun _ => None) [] [listing "Alpha" 90 []]);
    try reflexivity; discriminate.
Defined.

Lemma collect_from_platform_cache_hit_witness :
  let key := generate_cache_key "laptop" "amazon" in
  let st := fresh (one_file key (Object (Some (TsText "2024-01-01"))
                                        (Some [phone]))) in
  files (store st) key
  = Some (Object (Some (TsText "2024-01-01")) (Some [phone]))
  /\ "2024-01-01" <> ""
  /\ (fun _ : string => Some (Naive 0)) "2024-01-01" = Some (Naive 0)
  /\ (10 - 0 <= CACHE_EXPIRY default_config)%Q
  /\ snd (_collect_from_platform default_config (fun _ => Some (Naive 0))
            (fun _ => "t") 10 sample_scrape_flipkart sample_scrape_flipkart
            (fun _ => []) "amazon" "laptop" st)
     = Return [phone].
Proof.
  intros key st.
  assert (Hfile : files (store st) key
                  = Some (Object (Some (TsText "2024-01-01")) (Some [phone]))).
  { subst st. unfold one_file, fresh. cbn [store files].
    now rewrite String.eqb_refl. }
  split; [exact Hfile|]. split; [discriminate|]. split; [reflexivity|].
  split; [discriminate|].
  destruct (collect_from_platform_cache_hit default_config
              (fun _ => Some (Naive 0)) (fun _ => "t") 10
              sample_scrape_flipkart sample_scrape_flipkart
              (fun _ => []) "amazon" "laptop" st "2024-01-01" phone []
              Hfile) as [Hhit _]; [discriminate|].
  rewrite (Hhit 0%Q); [reflexivity | reflexivity | discriminate].
Defined.

Lemma collect_from_platform_other_error_witness :
  files (store (fresh empty_disk)) (generate_cache_key "laptop" "amazon") = None
  /\ (fun _ : string => @Raise (list product) (mkExn KeyError "price"))
       "laptop" = Raise (mkExn KeyError "price")
  /\ caught_by [ScrapingError] (mkExn KeyError "price") = false
  /\ snd (_collect_from_platform default_config (fun _ => None) (fun _ => "t") 0
            (fun _ => Raise (mkExn KeyError "price")) sample_scrape_flipkart
            (fun _ => sample_products) "amazon" "laptop" (fresh empty_disk))
     = Raise (mkExn KeyError "price").
Proof.
  split; [reflexivity|]. split; [reflexivity|]. split; [reflexivity|].
  apply (collect_from_platform_other_error default_config (fun _ => None)
           (fun _ => "t") 0 (fun _ => Raise (mkExn KeyError "price"))
           sample_scrape_flipkart (fun _ => sample_products) "laptop"
           (fresh empty_disk) (mkExn KeyError "price"));
    reflexivity.
Defined.

Lemma collect_from_platform_mock_fallback_witness :
  (fun _ : string => @None (cache_file (list product)))
    (generate_cache_key "laptop" "amazon") = None
  /\ (fun _ : string => @Raise (list product) (mkExn NetworkError "timeout"))
       "laptop" = Raise (mkExn NetworkError "timeout")
  /\ caught_by [ScrapingError] (mkExn NetworkError "timeout") = true
  /\ snd (_collect_from_platform default_config (fun _ => None) (fun _ => "t") 0
            (fun _ => Raise (mkExn NetworkError "timeout"))
            sample_scrape_flipkart (fun _ => sample_products) "amazon" "laptop"
            (mkState (mkDisk (fun _ => None) None) []))
     = Return (on_platform "amazon" sample_products).
Proof.
  split; [reflexivity|]. split; [reflexivity|]. split; [reflexivity|].
  apply (collect_from_platform_mock_fallback default_config (fun _ => None)
           (fun _ => "t") 0 (fun _ => Raise (mkExn NetworkError "timeout"))
           sample_scrape_flipkart (fun _ => sample_products) "laptop"
           (fun _ => None) [] (mkExn NetworkError "timeout"));
    reflexivity.
Defined.

Lemma collect_from_platform_unsupported_witness :
  "ebay" <> "amazon" /\ "ebay" <> "flipkart"
  /\ files (store (fresh empty_disk)) (generate_cache_key "laptop" "ebay") = None
  /\ snd (_collect_from_platform default_config (fun _ => None) (fun _ => "t") 0
            sample_scrape_amazon sample_scrape_flipkart
            (fun _ => sample_products) "ebay" "laptop" (fresh empty_disk))
     = Return [].
Proof.
  split; [discriminate|]. split; [discriminate|]. split; [reflexivity|].
  apply (collect_from_platform_unsupported default_config (fun _ => None)
           (fun _ => "t") 0 sample_scrape_amazon sample_scrape_flipkart
           (fun _ => sample_products) "ebay" "laptop" (fresh empty_disk));
    [discriminate | discriminate | reflexivity].
Defined.

(* ================================================================== *)
(** ** More on the recommendation engine *)
(* ================================================================== *)

Section EngineMoreFacts.
Context {P W : Type}.
Variable self_analyzer : analyzer P W.
Variable top_count : nat.
Variable format_currency : Q -> result string.
Variable collect_reviews : list P -> W -> W * result (list P).

(** The loop over the top products leaves the log and the local object
    alone, and what it returns is one recommendation for each product, in
    order. *)
Lemma recommend_each_spec {L : Type} top_products budget preferences
      (st st' : state (W * L)) r :
  recommend_each self_analyzer top_products budget preferences st = (st', r) ->
  log st' = log st /\ snd (store st') = snd (store st)
  /\ (forall recs, r = Return recs -> map product_of recs = top_products).
Proof.
  revert st st' r. induction top_products as [|p rest IH]; intros st st' r H.
  - cbn in H. inversion H; subst. repeat split. intros recs E.
    now inversion E.
  - cbn [recommend_each] in H. unfold bind, call in H.
    destruct (store st) as [w l] eqn:Est.
    destruct (extract_key_features_of self_analyzer p preferences w)
      as [w1 [key|e]].
    + cbn [store log] in H.
      destruct (explain_recommendation_of self_analyzer p budget preferences w1)
        as [w2 [text|e]].
      * destruct (recommend_each self_analyzer rest budget preferences
                    (mkState (w2, l) (log st))) as [st2 [recs|e]] eqn:Erest.
        -- apply IH in Erest as (Hlog & Hloc & Hmap).
           cbn in H. inversion H; subst. cbn [store log snd] in *.
           repeat split; try assumption.
           intros recs' E. inversion E; subst. cbn [map product_of].
           f_equal. now apply Hmap.
        -- apply IH in Erest as (Hlog & Hloc & _).
           inversion H; subst. cbn [store log snd] in *.
           repeat split; try assumption. intros recs E. discriminate E.
      * inversion H; subst. cbn. repeat split. intros recs E. discriminate E.
    + inversion H; subst. cbn. repeat split. intros recs E. discriminate E.
Qed.

Lemma recommend_each_returns {L : Type} top_products budget preferences
      (st : state (W * L)) :
  methods_return self_analyzer ->
  exists st' recs,
    recommend_each self_analyzer top_products budget preferences st
    = (st', Return recs).
Proof.
  intros [Hkey Htext]. revert st.
  induction top_products as [|p rest IH]; intros st.
  - eexists. eexists. reflexivity.
  - cbn [recommend_each]. unfold bind, call.
    destruct (store st) as [w l].
    destruct (Hkey p preferences w) as (w1 & key & ->). cbn [store log].
    destruct (Htext p budget preferences w1) as (w2 & text & ->).
    destruct (IH (mkState (w2, l) (log st))) as (st2 & recs & ->).
    eexists. eexists. reflexivity.
Qed.

(** X17.  When the ranking of a product list that is not empty comes
    back with the list [ranked], every result of
    [generate_recommendations] is one recommendation for each of the first
    [top_count] ranked products, in the order of the ranking; and with an
    analyzer whose other two methods always come back, and a ranking that
    is not empty, there is such a result. *)
Theorem generate_recommendations_top {L : Type} product products budget
        preferences (st : state (W * L)) w1 ranked :
  rank_products_of self_analyzer (product :: products) budget preferences
    (fst (store st))
  = (w1, Return ranked) ->
  (forall st' recs,
      generate_recommendations self_analyzer top_count (product :: products)
        budget preferences st
      = (st', Return recs) ->
      ranked <> []
      /\ map product_of recs = firstn top_count ranked
      /\ length recs <= top_count)
  /\ (methods_return self_analyzer -> ranked <> [] ->
      exists st' recs,
        generate_recommendations self_analyzer top_count (product :: products)
          budget preferences st
        = (st', Return recs)).
Proof.
  intros Hrank. unfold generate_recommendations, bind, logger, call.
  cbn [store log]. destruct (store st) as [w l]. cbn [fst] in Hrank.
  rewrite Hrank. cbn [store log].
  destruct ranked as [|r0 ranked'].
  - split; [intros st' recs H; discriminate H | intros _ H; now destruct H].
  - set (top := firstn top_count (r0 :: ranked')).
    split.
    + intros st' recs H.
      destruct (recommend_each self_analyzer top budget preferences _)
        as [st2 [recs'|e]] eqn:E; [|discriminate H].
      apply recommend_each_spec in E as (_ & _ & Hmap).
      inversion H; subst. specialize (Hmap recs eq_refl).
      split; [discriminate|]. split; [exact Hmap|].
      rewrite <- (length_map product_of), Hmap. apply firstn_le_length.
    + intros Hm _.
      destruct (recommend_each_returns top budget preferences
                  (mkState (w1, l)
                     (log st ++ [(INFO, "Generating recommendations")])) Hm)
        as (st2 & recs & ->).
      eexists. eexists. reflexivity.
Qed.

Lemma generate_alternatives_yields products budget preferences :
  yields_alternatives
    (generate_alternatives self_analyzer format_currency products budget
       preferences).
Proof.
  unfold generate_alternatives.
  apply yields_bind; [apply returns_logger|]. intros _.
  apply yields_bind; [apply returns_update|]. intros _.
  destruct products as [|p products'].
  - apply yields_bind; [apply returns_update|]. intros _.
    apply yields_the_alternatives.
  - apply yields_bind; [apply returns_increased_budget_block|]. intros _.
    apply yields_bind; [apply returns_reduced_preferences_block|]. intros _.
    apply yields_bind; [apply returns_general_suggestions|]. intros _.
    apply yields_bind; [apply returns_logger|]. intros _.
    apply yields_the_alternatives.
Qed.

(** X18.  [search] never ends in a [NoResultsError]: the error of
    [generate_recommendations] is answered with alternatives.  For a
    product list that is not empty, when the review collection comes back
    and the ranking of what it returns is empty, the answer of [search] is
    the formatted alternatives. *)
Theorem search_no_results products budget preferences :
  (forall st st' e,
      search self_analyzer top_count format_currency collect_reviews products
        budget preferences st
      = (st', Raise e) ->
      caught_by [NoResultsError] e = false)
  /\ (forall st w1 w2 products_with_reviews,
         products <> [] ->
         collect_reviews products (fst (store st))
         = (w1, Return products_with_reviews) ->
         rank_products_of self_analyzer products_with_reviews budget
           preferences w1
         = (w2, Return []) ->
         exists st' a,
           search self_analyzer top_count format_currency collect_reviews
             products budget preferences st
           = (st', Return (FormatAlternatives a))).
Proof.
  assert (Hhandler : forall e st, exists st' a,
             (logger WARNING ("No results: " ++ str e) ;;;
              a <- generate_alternatives self_analyzer format_currency
                     products budget preferences ;;
              ret (FormatAlternatives a))%comp st
             = (st', Return (FormatAlternatives a))).
  { intros e st. unfold bind at 1. cbn [logger].
    unfold bind.
    destruct (generate_alternatives_yields products budget preferences
                (mkState (store st)
                   (log st ++ [(WARNING, ("No results: " ++ str e)%string)])))
      as (st1 & ->).
    eexists. eexists. reflexivity. }
  split.
  - intros st st' e H. unfold search, try_except in H.
    match type of H with
    | match ?body with _ => _ end = _ => destruct body as [st1 [a|e1]]
    end; [discriminate H|].
    destruct (caught_by [NoResultsError] e1) eqn:Ec.
    + destruct (Hhandler e1 st1) as (st2 & a & E). rewrite E in H.
      discriminate H.
    + now inversion H; subst.
  - intros st w1 w2 pwr Hne Hcollect Hrank.
    destruct products as [|p0 products']; [contradiction|].
    unfold search, try_except.
    assert (Hbody : exists st1 msg,
               (logger INFO "Collecting reviews for products" ;;;
                products_with_reviews <-
                  call (collect_reviews (p0 :: products')) ;;
                recommendations <-
                  generate_recommendations self_analyzer top_count
                    products_with_reviews budget preferences ;;
                logger INFO "Search completed successfully" ;;;
                ret (FormatRecommendations recommendations))%comp st
               = (st1, Raise (mkExn NoResultsError msg))).
    { destruct st as [[w l] entries]. cbn [store fst] in Hcollect.
      unfold generate_recommendations.
      cbv beta iota zeta delta [bind logger call raise ret store log].
      rewrite Hcollect.
      destruct pwr as [|q pwr']; [eexists; eexists; reflexivity|].
      rewrite Hrank. eexists. eexists. reflexivity. }
    destruct Hbody as (st1 & msg & ->).
    change (caught_by [NoResultsError] (mkExn NoResultsError msg)) with true.
    cbv iota. apply Hhandler.
Qed.

Section Keeping.
Variable I : alternatives P -> Prop.

Lemma keeps_ret {A : Type} (a : A) : keeps I (@ret (W * alternatives P) A a).
Proof. intros st st' r H. now inversion H. Qed.

Lemma keeps_logger l msg : keeps I (@logger (W * alternatives P) l msg).
Proof. intros st st' r H. now inversion H. Qed.

Lemma keeps_eval {A : Type} (x : result A) :
  keeps I (@eval W (alternatives P) A x).
Proof. intros st st' r H. now inversion H. Qed.

Lemma keeps_call {A : Type} (method : W -> W * result A) :
  keeps I (@call W (alternatives P) A method).
Proof.
  intros st st' r H. unfold call in H.
  destruct (store st) as [w l]. destruct (method w) as [w' r'].
  now inversion H.
Qed.

Lemma keeps_the_alternatives : keeps I (@the_alternatives P W).
Proof. intros st st' r H. now inversion H. Qed.

Lemma keeps_update f : (forall a, I a -> I (f a)) -> keeps I (@update P W f).
Proof. intros Hf st st' r H. inversion H; subst. cbn. now apply Hf. Qed.

Lemma keeps_bind_post {A B : Type} (Q : A -> Prop)
      (m : comp (W * alternatives P) A) (f : A -> comp (W * alternatives P) B) :
  (forall st st' a, m st = (st', Return a) -> Q a) ->
  keeps I m -> (forall a, Q a -> keeps I (f a)) -> keeps I (bind m f).
Proof.
  intros HQ Hm Hf st st' r H. unfold bind in H.
  destruct (m st) as [st1 [a|e]] eqn:E.
  - intros Hi. eapply Hf; eauto.
  - inversion H; subst. eapply Hm; eauto.
Qed.

Lemma keeps_bind {A B : Type} (m : comp (W * alternatives P) A)
      (f : A -> comp (W * alternatives P) B) :
  keeps I m -> (forall a, keeps I (f a)) -> keeps I (bind m f).
Proof.
  intros Hm Hf. apply (keeps_bind_post (fun _ => True)); auto.
Qed.

Lemma keeps_try {A : Type} (body : comp (W * alternatives P) A) handler :
  keeps I body -> (forall e, keeps I (handler e)) ->
  keeps I (try_except_Exception body handler).
Proof.
  intros Hb Hh st st' r H. unfold try_except_Exception in H.
  destruct (body st) as [st1 [a|e]] eqn:E.
  - inversion H; subst. eapply Hb; eauto.
  - intros Hi. eapply Hh; eauto.
Qed.

Lemma keeps_recommend_each top_products budget preferences :
  keeps I (recommend_each self_analyzer top_products budget preferences).
Proof.
  intros st st' r H. apply recommend_each_spec in H as (_ & -> & _). auto.
Qed.

End Keeping.

Lemma recommend_each_at_most_three ranked budget preferences
      (st st' : state (W * alternatives P)) recs :
  recommend_each self_analyzer (firstn 3 ranked) budget preferences st
  = (st', Return recs) ->
  length recs <= 3.
Proof.
  intros H. apply recommend_each_spec in H as (_ & _ & Hmap).
  rewrite <- (length_map product_of), (Hmap recs eq_refl).
  apply firstn_le_length.
Qed.

Lemma blocks_ok_append budget preferences text (a : alternatives P) :
  blocks_ok budget preferences a ->
  blocks_ok budget preferences (append_suggestion text a).
Proof. intros H. exact H. Qed.

Lemma keeps_blocks_increased products budget preferences :
  keeps (blocks_ok budget preferences)
        (increased_budget_block self_analyzer format_currency products budget
           preferences).
Proof.
  unfold increased_budget_block.
  destruct (negb (Qle_bool budget 0)) eqn:Hb; [|apply keeps_ret].
  apply negb_true_iff, Qle_bool_false in Hb.
  apply keeps_try; [|intros e; apply keeps_logger].
  unfold increased_budget_attempt.
  apply keeps_bind; [apply keeps_call|]. intros ranked.
  destruct ranked as [|r0 ranked']; [apply keeps_ret|].
  apply (keeps_bind_post _ (fun recs => length recs <= 3)).
  - intros st st' recs. apply recommend_each_at_most_three.
  - apply keeps_recommend_each.
  - intros recs Hlen.
    apply keeps_bind.
    + apply keeps_update. intros a [Hinc Halt]. split; [|exact Halt].
      intros b Hb'. cbn in Hb'. inversion Hb'; subst. cbn. auto.
    + intros _. apply keeps_bind; [apply keeps_eval|]. intros amount.
      apply keeps_update. intros a. apply blocks_ok_append.
Qed.

Lemma keeps_blocks_reduced products budget preferences :
  keeps (blocks_ok budget preferences)
        (reduced_preferences_block self_analyzer products budget preferences).
Proof.
  unfold reduced_preferences_block.
  destruct preferences as [|first [|second rest]]; try apply keeps_ret.
  apply keeps_try; [|intros e; apply keeps_logger].
  unfold reduced_preferences_attempt.
  apply keeps_bind; [apply keeps_call|]. intros ranked.
  destruct ranked as [|r0 ranked']; [apply keeps_ret|].
  apply (keeps_bind_post _ (fun recs => length recs <= 3)).
  - intros st st' recs. apply recommend_each_at_most_three.
  - apply keeps_recommend_each.
  - intros recs Hlen.
    apply keeps_bind.
    + apply keeps_update. intros a [Hinc Halt]. split; [exact Hinc|].
      intros b Hb'. cbn in Hb'. inversion Hb'; subst. cbn.
      exists first, second, rest. auto.
    + intros _. apply keeps_update. intros a. apply blocks_ok_append.
Qed.

Lemma keeps_blocks_general budget preferences :
  keeps (blocks_ok budget preferences) (@general_suggestions P W).
Proof.
  unfold general_suggestions.
  apply keeps_bind; [apply keeps_the_alternatives|]. intros current.
  destruct (increased_budget current), (alternative_products current);
    try apply keeps_ret.
  apply keeps_bind; [|intros _]; apply keeps_update; intros a;
    apply blocks_ok_append.
Qed.

(** X19.  The dict that [generate_alternatives] returns.  For an empty
    product list it holds the one suggestion to try another search term
    and no block.  Otherwise a block for the increased budget is there only
    for a positive budget, names 1.2 times the budget and holds at most
    three recommendations; a block for reduced preferences is there only
    when at least two preferences were given, names the first of them
    alone and holds at most three recommendations.  This is so whatever
    the analyzer does. *)
Theorem generate_alternatives_blocks products budget preferences st :
  exists st' a,
    generate_alternatives self_analyzer format_currency products budget
      preferences st
    = (st', Return a)
    /\ blocks_ok budget preferences a
    /\ (products = [] ->
        a = mkAlternatives None None
              ["No products found. Try a different search term or check your spelling."]).
Proof.
  destruct (generate_alternatives_yields products budget preferences st)
    as (st' & Hrun).
  exists st', (snd (store st')). split; [exact Hrun|].
  assert (Hempty : blocks_ok budget preferences (@mkAlternatives P None None []))
    by (split; intros b Hb; discriminate Hb).
  unfold generate_alternatives in Hrun.
  unfold bind at 1 in Hrun. cbn [logger] in Hrun.
  unfold bind at 1 in Hrun. cbn [update store log fst snd] in Hrun.
  destruct products as [|p products'].
  - cbv in Hrun. inversion Hrun; subst. cbn. split; [exact Hempty | auto].
  - split; [|discriminate].
    revert Hrun.
    match goal with
    | |- ?m ?st0 = _ -> _ =>
        intros Hrun;
        assert (Hk : keeps (blocks_ok budget preferences) m)
    end.
    { apply keeps_bind; [apply keeps_blocks_increased|]. intros _.
      apply keeps_bind; [apply keeps_blocks_reduced|]. intros _.
      apply keeps_bind; [apply keeps_blocks_general|]. intros _.
      apply keeps_bind; [apply keeps_logger|]. intros _.
      apply keeps_the_alternatives. }
    apply (Hk _ _ _ Hrun). exact Hempty.
Qed.

Lemma app_one_not_nil {A : Type} (l : list A) x : l ++ [x] <> [].
Proof. destruct l; discriminate. Qed.

Lemma keeps_suggested_increased products budget preferences :
  keeps (suggested (format_currency (budget * (12 # 10))%Q))
        (increased_budget_block self_analyzer format_currency products budget
           preferences).
Proof.
  unfold increased_budget_block.
  destruct (negb (Qle_bool budget 0)); [|apply keeps_ret].
  apply keeps_try; [|intros e; apply keeps_logger].
  unfold increased_budget_attempt.
  apply keeps_bind; [apply keeps_call|]. intros ranked.
  destruct ranked as [|r0 ranked']; [apply keeps_ret|].
  apply keeps_bind; [apply keeps_recommend_each|]. intros recs.
  intros st st' r H [Halt Hinc]. unfold bind, update, eval in H.
  cbn [store log fst snd] in H.
  destruct (format_currency (budget * (12 # 10))%Q) as [text|e] eqn:Etext;
    inversion H; subst; cbn; split.
  - intros _. apply app_one_not_nil.
  - intros _. left. apply app_one_not_nil.
  - exact Halt.
  - intros _. right. now exists e.
Qed.

Lemma keeps_suggested_reduced amount products budget preferences :
  keeps (suggested amount)
        (reduced_preferences_block self_analyzer products budget preferences).
Proof.
  unfold reduced_preferences_block.
  destruct preferences as [|first [|second rest]]; try apply keeps_ret.
  apply keeps_try; [|intros e; apply keeps_logger].
  unfold reduced_preferences_attempt.
  apply keeps_bind; [apply keeps_call|]. intros ranked.
  destruct ranked as [|r0 ranked']; [apply keeps_ret|].
  apply keeps_bind; [apply keeps_recommend_each|]. intros recs.
  intros st st' r H _. unfold bind, update in H.
  cbn [store log fst snd] in H. inversion H; subst. cbn.
  split; intros _; [|left]; apply app_one_not_nil.
Qed.

Lemma general_suggestions_post amount
      (st st' : state (W * alternatives P)) r :
  general_suggestions st = (st', r) ->
  suggested amount (snd (store st)) ->
  suggestions (snd (store st')) = [] ->
  increased_budget (snd (store st')) <> None
  /\ alternative_products (snd (store st')) = None
  /\ exists e, amount = Raise e.
Proof.
  unfold general_suggestions, bind, the_alternatives, update, ret.
  intros H [Halt Hinc] Hnil.
  destruct (increased_budget (snd (store st))) as [b|] eqn:Ei.
  - inversion H; subst. rewrite Ei.
    split; [discriminate|]. split.
    + destruct (alternative_products (snd (store st'))) eqn:Ea;
        [|reflexivity].
      exfalso. apply Halt; [discriminate | exact Hnil].
    + destruct Hinc as [Hs|He]; [congruence| |exact He].
      contradiction.
  - destruct (alternative_products (snd (store st))) as [b|] eqn:Ea.
    + inversion H; subst. exfalso. apply Halt; [congruence | exact Hnil].
    + inversion H; subst. cbn in Hnil.
      now apply app_one_not_nil in Hnil.
Qed.

(** X20.  [generate_alternatives] always returns a dict, whatever the
    analyzer does, and the dict holds at least one suggestion unless
    [format_currency] raised on the increased budget, 1.2 times the
    budget: only then, and only with the block for the increased budget
    in the dict and no block for reduced preferences, is the list of
    suggestions empty.  When [format_currency] comes back with a text for
    that amount, there is a suggestion. *)
Theorem generate_alternatives_suggests products budget preferences st :
  exists st' a,
    generate_alternatives self_analyzer format_currency products budget
      preferences st
    = (st', Return a)
    /\ (suggestions a = [] ->
        increased_budget a <> None
        /\ alternative_products a = None
        /\ exists e, format_currency (budget * (12 # 10))%Q = Raise e)
    /\ ((exists text, format_currency (budget * (12 # 10))%Q = Return text) ->
        suggestions a <> []).
Proof.
  assert (Hmain :
    exists st' a,
      generate_alternatives self_analyzer format_currency products budget
        preferences st
      = (st', Return a)
      /\ (suggestions a = [] ->
          increased_budget a <> None
          /\ alternative_products a = None
          /\ exists e, format_currency (budget * (12 # 10))%Q = Raise e)).
  { unfold generate_alternatives.
    unfold bind at 1. cbn [logger].
    unfold bind at 1. cbn [update store log fst snd].
    destruct products as [|p products'].
    - eexists. eexists. split; [reflexivity|]. discriminate.
    - set (st0 := mkState (fst (store st), @mkAlternatives P None None [])
                    (log st ++ [(INFO, "Generating alternatives")])).
      assert (H0 : suggested (format_currency (budget * (12 # 10))%Q)
                             (snd (store st0)))
        by (split; intros H; now destruct H).
      unfold bind at 1.
      destruct (returns_increased_budget_block self_analyzer format_currency
                  (p :: products') budget preferences st0) as (st1 & [] & E1).
      rewrite E1.
      pose proof (keeps_suggested_increased (p :: products') budget
                    preferences st0 st1 _ E1 H0) as H1.
      unfold bind at 1.
      destruct (returns_reduced_preferences_block self_analyzer
                  (p :: products') budget preferences st1) as (st2 & [] & E2).
      rewrite E2.
      pose proof (keeps_suggested_reduced _ (p :: products') budget
                    preferences st1 st2 _ E2 H1) as H2.
      unfold bind at 1.
      destruct (@returns_general_suggestions P W st2) as (st3 & [] & E3).
      rewrite E3.
      pose proof (general_suggestions_post _ st2 st3 _ E3 H2) as H3.
      eexists. eexists. split; [reflexivity|]. exact H3. }
  destruct Hmain as (st' & a & Erun & Hnil).
  exists st', a. split; [exact Erun|]. split; [exact Hnil|].
  intros (text & Etext) Hempty.
  destruct (Hnil Hempty) as (_ & _ & e & He). congruence.
Qed.

End EngineMoreFacts.

Lemma generate_recommendations_top_witness :
  rank_products_of counting_analyzer sample_products 100 []
    (fst (store (fresh (0, tt))))
  = (1, Return sample_products)
  /\ (forall st' recs,
         generate_recommendations counting_analyzer 5 sample_products 100 []
           (fresh (0, tt))
         = (st', Return recs) ->
         sample_products <> []
         /\ map product_of recs = firstn 5 sample_products
         /\ length recs <= 5).
Proof.
  split; [reflexivity|].
  apply (generate_recommendations_top counting_analyzer 5
           (listing "Alpha" 90 []) (tl sample_products) 100 []
           (fresh (0, tt)) 1 sample_products).
  reflexivity.
Defined.


Lemma search_no_results_witness :
  sample_products <> []
  /\ (fun (l : list product) (w : nat) => (w, Return (firstn 5 l)))
       sample_products (fst (store (fresh (0, no_alternatives))))
     = (0, Return (firstn 5 sample_products))
  /\ rank_products_of
       (mkAnalyzer product nat (fun _ _ _ w => (S w, Return []))
          (fun p _ w => (w, Return []))
          (fun _ _ _ w => (w, Return "")))
       (firstn 5 sample_products) 100 ["gaming"] 0
     = (1, Return [])
  /\ exists st' a,
       search
         (mkAnalyzer product nat (fun _ _ _ w => (S w, Return []))
            (fun p _ w => (w, Return []))
            (fun _ _ _ w => (w, Return "")))
         5 (fun _ => Return "120.00")
         (fun l w => (w, Return (firstn 5 l)))
         sample_products 100 ["gaming"] (fresh (0, no_alternatives))
       = (st', Return (FormatAlternatives a)).
Proof.
  split; [discriminate|]. split; [reflexivity|]. split; [reflexivity|].
  apply (proj2 (search_no_results
                  (mkAnalyzer product nat (fun _ _ _ w => (S w, Return []))
                     (fun p _ w => (w, Return []))
                     (fun _ _ _ w => (w, Return "")))
                  5 (fun _ => Return "120.00")
                  (fun l w => (w, Return (firstn 5 l)))
                  sample_products 100 ["gaming"])
           (fresh (0, no_alternatives)) 0 1 (firstn 5 sample_products));
    [discriminate | reflexivity | reflexivity].
Defined.

(* ================================================================== *)
(** ** [sanitize_query] *)
(* ================================================================== *)

Lemma word_not_space c : is_word c = true -> is_space c = false.
Proof.
  destruct c as [b0 b1 b2 b3 b4 b5 b6 b7].
  destruct b0, b1, b2, b3, b4, b5, b6, b7; cbv; congruence.
Qed.

Lemma space_is_space : is_space " "%char = true.
Proof. reflexivity. Qed.

Lemma not_space_not_blank c : is_space c = false -> Ascii.eqb c " "%char = false.
Proof.
  intros H. destruct (Ascii.eqb c " "%char) eqn:E; [|reflexivity].
  apply Ascii.eqb_eq in E. subst. discriminate.
Qed.

Lemma spaced_squeeze b s : spaced b (squeeze_from b (blank_special s)) = true.
Proof.
  revert b. induction s as [|c s IH]; intros b; [reflexivity|].
  cbn [blank_special squeeze_from].
  destruct (is_word c || is_space c) eqn:Hallowed.
  - destruct (is_space c) eqn:Hs.
    + destruct b; [apply IH|].
      cbn [spaced]. rewrite Ascii.eqb_refl. cbn. apply IH.
    + rewrite orb_false_r in Hallowed.
      cbn [spaced]. rewrite (not_space_not_blank c Hs), Hallowed. apply IH.
  - rewrite space_is_space. destruct b; [apply IH|].
    cbn [spaced]. rewrite Ascii.eqb_refl. cbn. apply IH.
Qed.

Lemma spaced_weaken b s : spaced b s = true -> spaced false s = true.
Proof.
  destruct s as [|c s]; [reflexivity|]. cbn [spaced].
  destruct (Ascii.eqb c " "%char); [|auto].
  intros H. apply andb_true_iff in H as [_ H]. exact H.
Qed.

Lemma spaced_lstrip b s : spaced b s = true -> spaced true (lstrip s) = true.
Proof.
  revert b. induction s as [|c s IH]; intros b H; [reflexivity|].
  cbn [lstrip]. cbn [spaced] in H.
  destruct (Ascii.eqb c " "%char) eqn:E.
  - apply Ascii.eqb_eq in E. subst c. rewrite space_is_space.
    apply andb_true_iff in H as [_ H]. now apply (IH true).
  - apply andb_true_iff in H as [Hw H].
    rewrite (word_not_space c Hw). cbn [spaced]. now rewrite E, Hw.
Qed.

Lemma spaced_rstrip b s : spaced b s = true -> spaced b (rstrip s) = true.
Proof.
  revert b. induction s as [|c s IH]; intros b H; [reflexivity|].
  cbn [rstrip]. cbn [spaced] in H.
  destruct (Ascii.eqb c " "%char) eqn:E.
  - apply andb_true_iff in H as [Hb H].
    destruct (is_empty (rstrip s) && is_space c); [reflexivity|].
    cbn [spaced]. rewrite E, Hb. cbn. now apply IH.
  - apply andb_true_iff in H as [Hw H].
    rewrite (word_not_space c Hw), andb_false_r.
    cbn [spaced]. rewrite E, Hw. cbn. now apply IH.
Qed.

Lemma rstrip_no_space_end s : ends_with_space (rstrip s) = false.
Proof.
  induction s as [|c s IH]; [reflexivity|].
  cbn [rstrip].
  destruct (rstrip s) as [|c' kept] eqn:Ek.
  - cbn [is_empty andb]. destruct (is_space c) eqn:Hs; [reflexivity|].
    cbn. now apply not_space_not_blank.
  - cbn [is_empty andb]. exact IH.
Qed.

Lemma blank_special_fix b s : spaced b s = true -> blank_special s = s.
Proof.
  revert b. induction s as [|c s IH]; intros b H; [reflexivity|].
  cbn [blank_special]. cbn [spaced] in H.
  destruct (Ascii.eqb c " "%char) eqn:E.
  - apply Ascii.eqb_eq in E. subst c. apply andb_true_iff in H as [_ H].
    cbn. f_equal. now apply (IH true).
  - apply andb_true_iff in H as [Hw H]. rewrite Hw. cbn.
    f_equal. now apply (IH false).
Qed.

Lemma squeeze_from_fix b s : spaced b s = true -> squeeze_from b s = s.
Proof.
  revert b. induction s as [|c s IH]; intros b H; [reflexivity|].
  cbn [squeeze_from]. cbn [spaced] in H.
  destruct (Ascii.eqb c " "%char) eqn:E.
  - apply Ascii.eqb_eq in E. subst c. rewrite space_is_space.
    apply andb_true_iff in H as [Hb H]. apply negb_true_iff in Hb. subst b.
    f_equal. now apply IH.
  - apply andb_true_iff in H as [Hw H].
    rewrite (word_not_space c Hw). f_equal. now apply IH.
Qed.

Lemma lstrip_fix s : spaced true s = true -> lstrip s = s.
Proof.
  destruct s as [|c s]; [reflexivity|]. cbn [spaced lstrip].
  destruct (Ascii.eqb c " "%char); [discriminate|].
  intros H. apply andb_true_iff in H as [Hw _].
  now rewrite (word_not_space c Hw).
Qed.

Lemma rstrip_fix b s :
  spaced b s = true -> ends_with_space s = false -> rstrip s = s.
Proof.
  revert b. induction s as [|c s IH]; intros b H He; [reflexivity|].
  cbn [rstrip]. cbn [spaced] in H.
  destruct s as [|c' s'].
  - cbn in He. cbn. rewrite He in H.
    apply andb_true_iff in H as [Hw _].
    now rewrite (word_not_space c Hw).
  - assert (Hs : exists b', spaced b' (String c' s') = true).
    { destruct (Ascii.eqb c " "%char);
        apply andb_true_iff in H as [_ H]; eauto. }
    destruct Hs as (b' & Hs).
    rewrite (IH b' Hs He). reflexivity.
Qed.

Lemma sanitize_query_tidy_all query : tidy (sanitize_query query) = true.
Proof.
  unfold tidy, sanitize_query, strip, squeeze.
  rewrite rstrip_no_space_end, andb_true_r.
  apply spaced_rstrip. apply (spaced_lstrip false). apply spaced_squeeze.
Qed.

(** X21.  [sanitize_query] always gives words of letters, digits and
    underscores with one space between two of them and none at either
    end; it leaves such a text as it is, so that sanitizing twice is
    sanitizing once. *)
Theorem sanitize_query_tidy query :
  tidy (sanitize_query query) = true
  /\ (tidy query = true -> sanitize_query query = query)
  /\ sanitize_query (sanitize_query query) = sanitize_query query.
Proof.
  assert (Htidy : forall q, tidy (sanitize_query q) = true).
  { intros q. unfold tidy, sanitize_query, strip, squeeze.
    rewrite rstrip_no_space_end, andb_true_r.
    apply spaced_rstrip. apply (spaced_lstrip false). apply spaced_squeeze. }
  assert (Hfix : forall q, tidy q = true -> sanitize_query q = q).
  { intros q H. unfold tidy in H. apply andb_true_iff in H as [Hs He].
    apply negb_true_iff in He.
    unfold sanitize_query, strip, squeeze.
    rewrite (blank_special_fix true q Hs).
    rewrite (squeeze_from_fix false q (spaced_weaken true q Hs)).
    rewrite (lstrip_fix q Hs). now apply (rstrip_fix true). }
  split; [apply Htidy|]. split; [apply Hfix|]. apply Hfix, Htidy.
Qed.

(* ================================================================== *)
(** ** [extract_price] *)
(* ================================================================== *)

Lemma span_digits_all s : all_digits (fst (span is_digit s)) = true.
Proof.
  induction s as [|c s IH]; [reflexivity|]. cbn [span].
  destruct (is_digit c) eqn:E; [|reflexivity].
  destruct (span is_digit s) as [taken rest]. cbn [fst] in *.
  cbn [all_digits]. now rewrite E, IH.
Qed.

Lemma span_all f s :
  (forall c, In c (list_ascii_of_string s) -> f c = true) ->
  span f s = (s, EmptyString).
Proof.
  induction s as [|c s IH]; intros H; [reflexivity|]. cbn [span].
  rewrite (H c) by now left.
  rewrite IH; [reflexivity|]. intros c' Hc'. apply H. now right.
Qed.

Lemma all_digits_In s :
  all_digits s = true <->
  forall c, In c (list_ascii_of_string s) -> is_digit c = true.
Proof.
  induction s as [|c s IH]; cbn [all_digits list_ascii_of_string].
  - split; [intros _ c [] | reflexivity].
  - rewrite andb_true_iff, IH. split.
    + intros [Hc Hs] c' [<-|H]; auto.
    + intros H. split; [apply H; now left | intros c' Hc'; apply H; now right].
Qed.

Lemma digit_value_nonneg c :
  is_digit c = true -> (0 <= Z.of_nat (nat_of_ascii c) - 48)%Z.
Proof.
  unfold is_digit. intros H. apply andb_true_iff in H as [H _].
  apply Nat.leb_le in H. lia.
Qed.

Lemma digits_value_nonneg s acc :
  all_digits s = true -> (0 <= acc)%Z -> (0 <= digits_value acc s)%Z.
Proof.
  revert acc. induction s as [|c s IH]; intros acc H Hacc; [exact Hacc|].
  cbn [all_digits] in H. apply andb_true_iff in H as [Hc Hs].
  cbn [digits_value]. apply IH; [exact Hs|].
  pose proof (digit_value_nonneg c Hc). lia.
Qed.

Lemma decimal_value_nonneg text q :
  decimal_value text = Some q -> (0 <= q)%Q.
Proof.
  unfold decimal_value.
  pose proof (span_digits_all text) as Hw.
  destruct (span is_digit text) as [whole rest]. cbn [fst] in Hw.
  assert (H0 : (0 <= inject_Z (digits_value 0 whole))%Q).
  { change 0%Q with (inject_Z 0). rewrite <- Zle_Qle.
    apply digits_value_nonneg; [exact Hw | lia]. }
  destruct rest as [|c fraction].
  - destruct (is_empty whole); [discriminate|]. intros E. now inversion E.
  - destruct (Ascii.eqb c "."%char) eqn:Ec.
    + apply Ascii.eqb_eq in Ec. subst c.
      destruct (all_digits fraction) eqn:Hf; [|discriminate].
      destruct (negb _); [|discriminate]. cbn [andb]. intros E.
      inversion E; subst. clear E.
      assert (H1 : (0 <= inject_Z (digits_value 0 fraction))%Q).
      { change 0%Q with (inject_Z 0). rewrite <- Zle_Qle.
        apply digits_value_nonneg; [exact Hf | lia]. }
      assert (H2 : (0 < inject_Z (10 ^ Z.of_nat (String.length fraction)))%Q).
      { change 0%Q with (inject_Z 0). rewrite <- Zlt_Qlt.
        apply Z.pow_pos_nonneg; lia. }
      assert (H3 : (0 <= inject_Z (digits_value 0 fraction)
                         / inject_Z (10 ^ Z.of_nat (String.length fraction)))%Q).
      { apply Qle_shift_div_l; [exact H2 | lra]. }
      lra.
    + destruct c as [b0 b1 b2 b3 b4 b5 b6 b7].
      destruct b0, b1, b2, b3, b4, b5, b6, b7;
        try discriminate Ec; discriminate.
Qed.

Lemma price_match_none s :
  (forall c, In c (list_ascii_of_string s) -> is_digit_or_comma c = false) ->
  price_match s = None.
Proof.
  induction s as [|c s IH]; intros H; [reflexivity|].
  cbn [price_match]. rewrite (H c) by now left.
  apply IH. intros c' Hc'. apply H. now right.
Qed.

Lemma remove_commas_digits s : all_digits s = true -> remove_commas s = s.
Proof.
  induction s as [|c s IH]; intros H; [reflexivity|].
  cbn [all_digits] in H. apply andb_true_iff in H as [Hc Hs].
  cbn [remove_commas].
  destruct (Ascii.eqb c ","%char) eqn:E.
  - apply Ascii.eqb_eq in E. subst c. discriminate Hc.
  - now rewrite IH.
Qed.

Lemma round_half_even_floor n d :
  (0 <= n)%Z -> (0 < d)%Z -> (n / d <= round_half_even n d)%Z.
Proof.
  intros Hn Hd. unfold round_half_even.
  destruct (2 * (n mod d) ?= d)%Z; [destruct (Z.even (n / d))| |]; lia.
Qed.

Lemma round_half_even_nonneg n d :
  (0 <= n)%Z -> (0 < d)%Z -> (0 <= round_half_even n d)%Z.
Proof.
  intros Hn Hd. pose proof (round_half_even_floor n d Hn Hd).
  pose proof (Z.div_pos n d Hn Hd). lia.
Qed.

Lemma round_half_even_one n : round_half_even n 1 = n.
Proof.
  unfold round_half_even. rewrite Z.mod_1_r, Z.div_1_r. reflexivity.
Qed.

Lemma scaled_round_nonneg n d shift :
  (0 <= n)%Z -> (0 < d)%Z -> (0 <= scaled_round n d shift)%Z.
Proof.
  intros Hn Hd. unfold scaled_round.
  destruct (0 <=? shift)%Z eqn:E; apply round_half_even_nonneg.
  - exact Hn.
  - apply Z.leb_le in E. apply Z.mul_pos_pos; [lia|].
    apply Z.pow_pos_nonneg; lia.
  - apply Z.mul_nonneg_nonneg; [lia|]. apply Z.pow_nonneg. lia.
  - exact Hd.
Qed.

Lemma scaled_sign m shift :
  ((0 <= m)%Z -> (0 <= scaled m shift)%Q)
  /\ ((0 < m)%Z -> (0 < scaled m shift)%Q).
Proof.
  unfold scaled.
  split; intros Hm; rewrite Qred_correct;
    destruct (0 <=? shift)%Z eqn:E.
  - change 0%Q with (inject_Z 0). rewrite <- Zle_Qle.
    apply Z.mul_nonneg_nonneg; [lia | apply Z.pow_nonneg; lia].
  - unfold Qle. cbn. lia.
  - change 0%Q with (inject_Z 0). rewrite <- Zlt_Qlt.
    apply Z.leb_le in E.
    apply Z.mul_pos_pos; [lia | apply Z.pow_pos_nonneg; lia].
  - unfold Qlt. cbn. lia.
Qed.

Lemma nearest_double_nonneg n d :
  (0 < n)%Z -> (0 < d)%Z -> float_nonneg (nearest_double n d).
Proof.
  intros Hn Hd. unfold nearest_double.
  destruct (_ || _); [exact I|].
  apply scaled_sign. apply scaled_round_nonneg; lia.
Qed.

Lemma float_of_Q_nonneg x : (0 <= x)%Q -> float_nonneg (float_of_Q x).
Proof.
  intros Hx. unfold float_of_Q. destruct x as [n d]. cbn [Qnum Qden].
  destruct n as [|n|n].
  - apply Qle_refl.
  - apply nearest_double_nonneg; reflexivity.
  - exfalso. unfold Qle in Hx. cbn in Hx. lia.
Qed.

(** The double nearest to an integer: the exponent is the binary
    logarithm of the integer. *)
Lemma nearest_double_int n :
  (0 < n)%Z ->
  let shift := (Z.log2 n - 52)%Z in
  nearest_double n 1
  = if (971 <? shift)%Z
       || ((shift =? 971)%Z && (scaled_round n 1 shift =? 2 ^ 53)%Z)
    then PosInf
    else Real (scaled (scaled_round n 1 shift) shift).
Proof.
  intros Hn shift. unfold nearest_double.
  change (Z.log2 1) with 0%Z. rewrite Z.sub_0_r.
  pose proof (Z.log2_nonneg n) as Hlog.
  pose proof (Z.log2_spec n Hn) as [Hlo _].
  assert (E : scaled_lt n 1 (Z.log2 n) = false).
  { unfold scaled_lt. rewrite (proj2 (Z.leb_le 0 (Z.log2 n)) Hlog).
    apply Z.ltb_ge. lia. }
  rewrite E.
  replace (Z.max (Z.log2 n - 52) (-1074)) with shift by (subst shift; lia).
  reflexivity.
Qed.

Lemma scaled_exact v k :
  (0 <= k)%Z -> scaled (v * 2 ^ k) (- k) = inject_Z v.
Proof.
  intros Hk. unfold scaled.
  rewrite <- (Qcanon.Qred_identity (inject_Z v)) by apply Z.gcd_1_r.
  apply Qred_complete.
  destruct (0 <=? - k)%Z eqn:E.
  - apply Z.leb_le in E. assert (k = 0%Z) by lia. subst k.
    cbn. rewrite !Z.mul_1_r. reflexivity.
  - rewrite Z.opp_involutive. unfold Qeq. cbn [Qnum Qden inject_Z].
    rewrite Z2Pos.id by (apply Z.pow_pos_nonneg; lia). lia.
Qed.

(** An integer below [2 ^ 53] is a double. *)
Lemma float_of_int_exact v :
  (0 <= v < 2 ^ 53)%Z -> float_of_Q (inject_Z v) = Real (inject_Z v).
Proof.
  intros [Hlo Hhi]. unfold float_of_Q. cbn [inject_Z Qnum Qden].
  destruct v as [|p|p]; [reflexivity| |lia].
  rewrite nearest_double_int by lia. cbv zeta.
  assert (Hlog : (Z.log2 (Z.pos p) < 53)%Z)
    by (apply Z.log2_lt_pow2; lia).
  pose proof (Z.log2_nonneg (Z.pos p)) as Hnn.
  set (e := Z.log2 (Z.pos p)) in *. clearbody e.
  assert (Hround : scaled_round (Z.pos p) 1 (e - 52)
                   = (Z.pos p * 2 ^ (52 - e))%Z).
  { unfold scaled_round. destruct (0 <=? e - 52)%Z eqn:E.
    - apply Z.leb_le in E. assert (e = 52%Z) by lia. subst e.
      change (1 * 2 ^ (52 - 52))%Z with 1%Z. rewrite round_half_even_one.
      change (2 ^ (52 - 52))%Z with 1%Z. lia.
    - replace (- (e - 52))%Z with (52 - e)%Z by lia.
      apply round_half_even_one. }
  rewrite Hround.
  assert (E1 : (971 <? e - 52)%Z = false) by (apply Z.ltb_ge; lia).
  assert (E2 : (e - 52 =? 971)%Z = false) by (apply Z.eqb_neq; lia).
  rewrite E1, E2. cbn [orb andb].
  replace (e - 52)%Z with (- (52 - e))%Z by lia.
  rewrite scaled_exact by lia. reflexivity.
Qed.

(** The float of a positive int is positive, where there is one. *)
Lemma float_of_int_positive n :
  (0 < n)%Z ->
  match float_of_Q (inject_Z n) with
  | Real q => (0 < q)%Q
  | PosInf => True
  | _ => False
  end.
Proof.
  intros Hn. unfold float_of_Q. cbn [inject_Z Qnum Qden].
  destruct n as [|p|p]; try lia.
  rewrite nearest_double_int by lia. cbv zeta.
  destruct (_ || _); [exact I|].
  apply scaled_sign.
  pose proof (Z.log2_nonneg (Z.pos p)) as Hnn.
  pose proof (Z.log2_spec (Z.pos p) Hn) as [Hlo _].
  set (e := Z.log2 (Z.pos p)) in *. clearbody e.
  unfold scaled_round. destruct (0 <=? e - 52)%Z eqn:E.
  - apply Z.leb_le in E.
    assert (Hd : (0 < 1 * 2 ^ (e - 52))%Z)
      by (rewrite Z.mul_1_l; apply Z.pow_pos_nonneg; lia).
    pose proof (round_half_even_floor (Z.pos p) (1 * 2 ^ (e - 52))
                  ltac:(lia) Hd) as Hfloor.
    assert (1 <= Z.pos p / (1 * 2 ^ (e - 52)))%Z; [|lia].
    apply Z.div_le_lower_bound; [exact Hd|].
    rewrite Z.mul_1_r, Z.mul_1_l.
    apply Z.le_trans with (2 ^ e)%Z; [|exact Hlo].
    apply Z.pow_le_mono_r; lia.
  - rewrite round_half_even_one.
    apply Z.mul_pos_pos; [lia|]. apply Z.pow_pos_nonneg; lia.
Qed.

(** An int of at most 1023 bits has a float. *)
Lemma float_of_int_finite n :
  (0 < n)%Z -> (Z.log2 n < 1023)%Z ->
  exists q, float_of_Q (inject_Z n) = Real q.
Proof.
  intros Hn Hlog. unfold float_of_Q. cbn [inject_Z Qnum Qden].
  destruct n as [|p|p]; try lia.
  rewrite nearest_double_int by lia. cbv zeta.
  assert (E1 : (971 <? Z.log2 (Z.pos p) - 52)%Z = false)
    by (apply Z.ltb_ge; lia).
  assert (E2 : (Z.log2 (Z.pos p) - 52 =? 971)%Z = false)
    by (apply Z.eqb_neq; lia).
  rewrite E1, E2. cbn [orb andb]. eauto.
Qed.

Lemma float_of_decimal_nonneg text x :
  float_of_decimal text = Some x -> float_nonneg x.
Proof.
  unfold float_of_decimal.
  destruct (decimal_value text) as [q|] eqn:E; [|discriminate].
  cbn [option_map]. intros H. inversion H; subst.
  apply float_of_Q_nonneg. now apply decimal_value_nonneg with text.
Qed.

(** The rounding at work: twenty digits are read as the nearest double,
    four hundred nines as infinity. *)
Example extract_price_rounds :
  extract_price (Some "12345678901234567890")
  = Some (Real (inject_Z 12345678901234567168))
  /\ extract_price (Some "0.1")
     = Some (Real (3602879701896397 # 36028797018963968))
  /\ extract_price
       (Some (String.concat "" (repeat "9999999999" 40)))
     = Some PosInf.
Proof. repeat split; vm_compute; reflexivity. Qed.

(** X22.  [extract_price] never returns a negative price (a sign in
    front of the digits is skipped) and never NaN; it returns nothing for
    a missing or empty text and for a text without a digit and without a
    comma; and for a text that is a run of digits it returns the double
    nearest to the number they spell, which is that number itself when
    it is below [2 ^ 53]. *)
Theorem extract_price_behaviour :
  (forall price_str x, extract_price price_str = Some x -> float_nonneg x)
  /\ extract_price None = None /\ extract_price (Some "") = None
  /\ (forall s,
        (forall c, In c (list_ascii_of_string s) ->
                   is_digit_or_comma c = false) ->
        extract_price (Some s) = None)
  /\ (forall c digits,
        all_digits (String c digits) = true ->
        let number := digits_value 0 (String c digits) in
        extract_price (Some (String c digits))
        = Some (float_of_Q (inject_Z number))
        /\ ((number < 2 ^ 53)%Z ->
            extract_price (Some (String c digits))
            = Some (Real (inject_Z number)))).
Proof.
  split; [|split; [reflexivity|split; [reflexivity|split]]].
  - intros [s|] x; [|discriminate]. unfold extract_price.
    destruct (is_empty s); [discriminate|].
    destruct (price_match s) as [found|]; [|discriminate].
    apply float_of_decimal_nonneg.
  - intros s H. unfold extract_price.
    destruct (is_empty s); [reflexivity|].
    now rewrite price_match_none.
  - intros c digits H number.
    assert (Hprice : extract_price (Some (String c digits))
                     = Some (float_of_Q (inject_Z number))).
    { unfold extract_price. cbn [is_empty].
      assert (Hall : forall c', In c' (list_ascii_of_string (String c digits)) ->
                                is_digit c' = true)
        by now apply all_digits_In.
      assert (Hc : is_digit_or_comma c = true).
      { unfold is_digit_or_comma. rewrite (Hall c) by now left. reflexivity. }
      cbn [price_match]. rewrite Hc.
      rewrite (span_all is_digit_or_comma (String c digits)).
      2:{ intros c' Hc'. unfold is_digit_or_comma. now rewrite (Hall c' Hc'). }
      rewrite (remove_commas_digits _ H).
      unfold float_of_decimal, decimal_value.
      rewrite (span_all is_digit (String c digits) Hall).
      reflexivity. }
    split; [exact Hprice|]. intros Hsmall.
    rewrite Hprice. f_equal. apply float_of_int_exact.
    split; [|exact Hsmall].
    subst number. apply digits_value_nonneg; [exact H | lia].
Qed.

(* ================================================================== *)
(** ** [format_currency] *)
(* ================================================================== *)

Lemma split_points_length piece s :
  length (split_points_from piece s) = S (count_points s).
Proof.
  revert piece. induction s as [|c s IH]; intros piece; [reflexivity|].
  cbn [split_points_from count_points].
  destruct (Ascii.eqb c "."%char); cbn [length]; now rewrite IH.
Qed.

(** X23.  [format_currency] gives "N/A" for a missing amount; for an
    amount it comes back with a text exactly when the text Python gives
    the rounded float holds exactly one point, and raises [ValueError]
    otherwise, as for "inf", "nan" and "1e+22". *)
Theorem format_currency_returns float_text :
  format_currency float_text None = Return "N/A"
  /\ forall amount,
       ((exists s, format_currency float_text (Some amount) = Return s)
        <-> count_points (float_text amount) = 1)
       /\ (count_points (float_text amount) <> 1 ->
           exists e, format_currency float_text (Some amount) = Raise e
                     /\ class_of e = ValueError).
Proof.
  split; [reflexivity|]. intros amount. cbn [format_currency].
  unfold format_currency_text, split_points.
  pose proof (split_points_length "" (float_text amount)) as Hlen.
  destruct (split_points_from "" (float_text amount)) as [|x [|y [|z l]]];
    cbn [length] in Hlen.
  - discriminate Hlen.
  - split; [split; [intros (s & E); discriminate E | intros E; lia]|].
    intros _. eexists. split; reflexivity.
  - split; [split; [intros _; lia | intros _; eexists; reflexivity]|].
    intros H. lia.
  - split; [split; [intros (s & E); discriminate E | intros E; lia]|].
    intros _. eexists. split; reflexivity.
Qed.

Lemma digit_not_point c : is_digit c = true -> Ascii.eqb c "."%char = false.
Proof.
  intros H. destruct (Ascii.eqb c "."%char) eqn:E; [|reflexivity].
  apply Ascii.eqb_eq in E. subst c. discriminate H.
Qed.

Lemma split_points_digits piece x s :
  all_digits x = true ->
  split_points_from piece (x ++ s) = split_points_from (piece ++ x) s.
Proof.
  revert piece. induction x as [|c x IH]; intros piece H.
  - cbn. f_equal. clear. induction piece; cbn; [reflexivity | now f_equal].
  - cbn [all_digits] in H. apply andb_true_iff in H as [Hc Hx].
    cbn [append split_points_from]. rewrite (digit_not_point c Hc).
    rewrite (IH _ Hx). f_equal.
    clear. induction piece; cbn; [reflexivity | now f_equal].
Qed.

Lemma append_nil_r_local s : (s ++ "")%string = s.
Proof. induction s; cbn; [reflexivity | now f_equal]. Qed.

Lemma split_points_amount x y :
  all_digits x = true -> all_digits y = true ->
  split_points (x ++ "." ++ y) = [x; y].
Proof.
  intros Hx Hy. unfold split_points.
  rewrite (split_points_digits "" x _ Hx). cbn [append split_points_from].
  cbn. f_equal.
  rewrite <- (append_nil_r_local y) at 1.
  rewrite (split_points_digits "" y "" Hy). reflexivity.
Qed.

Lemma format_currency_digits x y :
  all_digits x = true -> all_digits y = true ->
  format_currency_text (x ++ "." ++ y)
  = let lastthree := py_slice x (-3) (Z.of_nat (String.length x)) in
    let other := py_slice x 0 (-3) in
    Return (rupee
            ++ (if is_empty other then lastthree
                else String.concat ""
                       (map (fun i => py_slice other (Z.of_nat i - 2)
                                               (Z.of_nat i) ++ ",")
                            (down_by_two (String.length other)))
                     ++ lastthree)
            ++ "." ++ ljust2 y)%string.
Proof.
  intros Hx Hy. unfold format_currency_text.
  rewrite (split_points_amount x y Hx Hy).
  now rewrite (remove_commas_digits x Hx).
Qed.

(** X24.  Amounts below one lakh are grouped as they should be: when
    the text of the amount has one to three digits in front of the point
    they are written as they are, and with four or five digits a comma
    stands in front of the last three; the digits behind the point are
    filled up to two. *)
Theorem format_currency_below_lakh x y :
  all_digits x = true -> all_digits y = true ->
  1 <= String.length x <= 5 ->
  format_currency_text (x ++ "." ++ y)
  = Return (rupee
            ++ (if (String.length x <=? 3)%nat then x
                else substring 0 (String.length x - 3)%nat x ++ ","
                     ++ substring (String.length x - 3)%nat 3 x)
            ++ "." ++ ljust2 y)%string.
Proof.
  intros Hx Hy Hlen. rewrite (format_currency_digits x y Hx Hy).
  destruct x as [|a [|b [|c [|d [|e [|f x']]]]]];
    cbn [String.length] in Hlen; try lia; reflexivity.
Qed.

Lemma format_currency_below_lakh_witness :
  all_digits "50000" = true /\ all_digits "0" = true
  /\ 1 <= String.length "50000" <= 5
  /\ format_currency_text "50000.0" = Return (rupee ++ "50,000.00")%string.
Proof.
  split; [reflexivity|]. split; [reflexivity|]. split; [cbn; lia|].
  apply (format_currency_below_lakh "50000" "0");
    [reflexivity | reflexivity | cbn; lia].
Defined.

(** X25.  From one lakh on the groups come out wrong: with six digits
    [abcdef] in front of the point the text is [bc,,def], the first digit
    lost, and with seven digits [abcdefg] it is [cd,ab,efg], the two
    leading groups in reverse order. *)
Theorem format_currency_from_lakh a b c d e f g y :
  all_digits (String a (String b (String c (String d (String e
     (String f (String g ""))))))) = true ->
  all_digits y = true ->
  format_currency_text
    (String a (String b (String c (String d (String e (String f "")))))
     ++ "." ++ y)
  = Return (rupee
            ++ String b (String c (String "," (String ","
                 (String d (String e (String f "")))))) ++ "." ++ ljust2 y)%string
  /\ format_currency_text
       (String a (String b (String c (String d (String e (String f
          (String g "")))))) ++ "." ++ y)
     = Return (rupee
               ++ String c (String d (String "," (String a (String b
                    (String "," (String e (String f (String g ""))))))))
               ++ "." ++ ljust2 y)%string.
Proof.
  intros Hx Hy.
  assert (H6 : all_digits (String a (String b (String c (String d (String e
                 (String f "")))))) = true).
  { cbn [all_digits] in Hx |- *.
    destruct (is_digit a), (is_digit b), (is_digit c), (is_digit d),
      (is_digit e), (is_digit f); try discriminate Hx; reflexivity. }
  split.
  - rewrite (format_currency_digits _ y H6 Hy). reflexivity.
  - rewrite (format_currency_digits _ y Hx Hy). reflexivity.
Qed.

Lemma format_currency_from_lakh_witness :
  all_digits "1234567" = true /\ all_digits "0" = true
  /\ format_currency_text "123456.0" = Return (rupee ++ "23,,456.00")%string
  /\ format_currency_text "1234567.0" = Return (rupee ++ "34,12,567.00")%string.
Proof.
  split; [reflexivity|]. split; [reflexivity|].
  apply (format_currency_from_lakh "1" "2" "3" "4" "5" "6" "7" "0");
    reflexivity.
Defined.

(* ================================================================== *)
(** ** [retry_with_backoff] *)
(* ================================================================== *)

Section RetryFacts.
Context {W A : Type}.
Variable func : W -> W * result A.
Variable backoff_factor : Q.

Variable step : W -> W.
Variable error : W -> exn.

Lemma next_delay_nonneg delay :
  (0 <= delay)%Q -> (0 <= backoff_factor)%Q -> (0 <= delay * backoff_factor)%Q.
Proof. apply Qmult_le_0_compat. Qed.

Lemma retry_loop_recovers max_retries k :
  (0 <= backoff_factor)%Q ->
  forall fuel retries delay w w' a sleeps entries,
  (0 <= delay)%Q ->
  retries + fuel = max_retries -> k < fuel ->
  (forall i, i < k ->
     func (Nat.iter i step w)
     = (step (Nat.iter i step w), Raise (error (Nat.iter i step w)))) ->
  func (Nat.iter k step w) = (w', Return a) ->
  exists more,
    retry_loop func max_retries backoff_factor fuel retries delay
      (mkState (w, sleeps) entries)
    = (mkState (w', sleeps ++ backoff_delays backoff_factor k delay)
         (entries ++ more),
       Return (Some a))
    /\ length more = k.
Proof.
  intros Hfactor.
  induction k as [|k IH];
    intros fuel retries delay w w' a sleeps entries Hdelay Hsum Hk Hfail Hok;
    (destruct fuel as [|fuel]; [lia|]); cbn [retry_loop];
    assert (E1 : (retries <? max_retries) = true) by (apply Nat.ltb_lt; lia);
    rewrite E1.
  - exists []. split; [|reflexivity].
    unfold try_except_Exception, bind, call_func. cbn [store log fst snd].
    cbn [Nat.iter nat_rect] in Hok. rewrite Hok.
    cbn. now rewrite !app_nil_r.
  - assert (E2 : (max_retries <=? S retries) = false)
      by (apply Nat.leb_gt; lia).
    assert (E3 : Qle_bool 0 delay = true) by now apply Qle_bool_iff.
    unfold try_except_Exception at 1, bind at 1, call_func at 1.
    cbn [store log fst snd].
    assert (H0 := Hfail 0 ltac:(lia)). cbn [Nat.iter nat_rect] in H0.
    rewrite H0, E2.
    unfold bind at 1. cbn [logger]. unfold bind at 1, sleep at 1.
    rewrite E3. cbn [store log fst snd].
    destruct (IH fuel (S retries) (delay * backoff_factor)%Q (step w) w' a
                (sleeps ++ [delay])
                (entries ++ [(WARNING,
                   ("Retry " ++ str_of_nat (S retries) ++ "/"
                    ++ str_of_nat max_retries ++ " after error: "
                    ++ str (error w))%string)]))
      as (more & Hrun & Hlen);
      [now apply next_delay_nonneg|lia|lia| | |].
    + intros i Hi. rewrite <- !Nat.iter_succ_r. apply Hfail. lia.
    + rewrite <- Nat.iter_succ_r. exact Hok.
    + rewrite Hrun. eexists. split.
      * cbn [backoff_delays]. rewrite <- !app_assoc. reflexivity.
      * cbn [length app]. now rewrite Hlen.
Qed.

(** X26.  With [max_retries = 0] the function returns [None] and does
    not call [func].  With an initial delay and a backoff factor that are
    not negative, when [func] raises [k] times, with [k] less than
    [max_retries], and then comes back with a value, that value is the
    result; the function has slept [k] times, first [initial_delay] and
    then each time [backoff_factor] times as long, and has written one
    warning for each sleep. *)
Theorem retry_with_backoff_recovers max_retries initial_delay k w w' a
        sleeps entries :
  (0 <= initial_delay)%Q -> (0 <= backoff_factor)%Q ->
  k < max_retries ->
  (forall i, i < k ->
     func (Nat.iter i step w)
     = (step (Nat.iter i step w), Raise (error (Nat.iter i step w)))) ->
  func (Nat.iter k step w) = (w', Return a) ->
  retry_with_backoff func 0 backoff_factor initial_delay
    (mkState (w, sleeps) entries)
  = (mkState (w, sleeps) entries, Return None)
  /\ exists more,
       retry_with_backoff func max_retries backoff_factor initial_delay
         (mkState (w, sleeps) entries)
       = (mkState (w', sleeps ++ backoff_delays backoff_factor k initial_delay)
            (entries ++ more),
          Return (Some a))
       /\ length more = k.
Proof.
  intros Hdelay Hfactor Hk Hfail Hok. split; [reflexivity|].
  unfold retry_with_backoff.
  apply (retry_loop_recovers max_retries k); auto.
Qed.

Hypothesis func_fails : forall w, func w = (step w, Raise (error w)).

Lemma retry_loop_all_fail max_retries fuel retries delay w sleeps entries :
  (0 <= backoff_factor)%Q -> (0 <= delay)%Q ->
  retries + S fuel = max_retries ->
  exists more,
    retry_loop func max_retries backoff_factor (S fuel) retries delay
      (mkState (w, sleeps) entries)
    = (mkState (Nat.iter (S fuel) step w,
                sleeps ++ backoff_delays backoff_factor fuel delay)
         (entries ++ more),
       Raise (error (Nat.iter fuel step w)))
    /\ length more = fuel.
Proof.
  intros Hfactor. revert retries delay w sleeps entries.
  induction fuel as [|fuel IH];
    intros retries delay w sleeps entries Hdelay Hsum.
  - exists []. split; [|reflexivity]. cbn [retry_loop].
    assert (E1 : (retries <? max_retries) = true) by (apply Nat.ltb_lt; lia).
    assert (E2 : (max_retries <=? S retries) = true) by (apply Nat.leb_le; lia).
    rewrite E1. unfold try_except_Exception, bind, call_func.
    cbn [store log fst snd]. rewrite func_fails, E2.
    cbn. now rewrite !app_nil_r.
  - cbn [retry_loop].
    assert (E1 : (retries <? max_retries) = true) by (apply Nat.ltb_lt; lia).
    assert (E2 : (max_retries <=? S retries) = false) by (apply Nat.leb_gt; lia).
    assert (E3 : Qle_bool 0 delay = true) by now apply Qle_bool_iff.
    rewrite E1. unfold try_except_Exception at 1, bind at 1, call_func at 1.
    cbn [store log fst snd]. rewrite func_fails, E2.
    unfold bind at 1. cbn [logger]. unfold bind at 1, sleep at 1.
    rewrite E3. cbn [store log fst snd].
    destruct (IH (S retries) (delay * backoff_factor)%Q (step w)
                (sleeps ++ [delay])
                (entries ++ [(WARNING,
                   ("Retry " ++ str_of_nat (S retries) ++ "/"
                    ++ str_of_nat max_retries ++ " after error: "
                    ++ str (error w))%string)]))
      as (more & Hrun & Hlen); [now apply next_delay_nonneg|lia|].
    cbn [retry_loop] in Hrun. rewrite Hrun.
    eexists. split.
    + rewrite <- !Nat.iter_succ_r. cbn [backoff_delays].
      rewrite <- !app_assoc. reflexivity.
    + cbn [length app]. now rewrite Hlen.
Qed.

(** With a negative delay the first retry ends in the [ValueError] of
    [time.sleep]: [func] is called once, a warning is written, and the
    error of [func] is lost. *)
Lemma retry_with_backoff_negative_delay max_retries initial_delay w sleeps
      entries :
  1 < max_retries -> (initial_delay < 0)%Q ->
  retry_with_backoff func max_retries backoff_factor initial_delay
    (mkState (w, sleeps) entries)
  = (mkState (step w, sleeps)
       (entries ++ [(WARNING,
          ("Retry 1/" ++ str_of_nat max_retries ++ " after error: "
           ++ str (error w))%string)]),
     Raise (mkExn ValueError "sleep length must be non-negative")).
Proof.
  intros Hmax Hneg. unfold retry_with_backoff.
  destruct max_retries as [|n]; [lia|]. cbn [retry_loop].
  assert (E1 : (0 <? S n) = true) by (apply Nat.ltb_lt; lia).
  assert (E2 : (S n <=? 1) = false) by (apply Nat.leb_gt; lia).
  assert (E3 : Qle_bool 0 initial_delay = false)
    by now apply Qle_bool_false.
  rewrite E1. unfold try_except_Exception at 1, bind at 1, call_func at 1.
  cbn [store log fst snd]. rewrite func_fails, E2.
  unfold bind at 1. cbn [logger]. unfold bind at 1, sleep at 1.
  rewrite E3. reflexivity.
Qed.

(** X27.  With an initial delay and a backoff factor that are not
    negative, when every call of [func] raises, [retry_with_backoff]
    calls it exactly [max_retries] times and raises the error of the last
    call; in between it sleeps [max_retries - 1] times, first
    [initial_delay] and then each time [backoff_factor] times as long,
    and writes one warning for each sleep; it does not sleep after the
    last failure. *)
Theorem retry_with_backoff_all_fail max_retries initial_delay w sleeps entries :
  0 < max_retries ->
  (0 <= initial_delay)%Q -> (0 <= backoff_factor)%Q ->
  exists more,
    retry_with_backoff func max_retries backoff_factor initial_delay
      (mkState (w, sleeps) entries)
    = (mkState (Nat.iter max_retries step w,
                sleeps ++ backoff_delays backoff_factor (max_retries - 1)
                            initial_delay)
         (entries ++ more),
       Raise (error (Nat.iter (max_retries - 1) step w)))
    /\ length more = max_retries - 1.
Proof.
  intros Hmax Hdelay Hfactor. unfold retry_with_backoff.
  destruct max_retries as [|n]; [lia|].
  replace (S n - 1) with n by lia.
  apply retry_loop_all_fail; [exact Hfactor | exact Hdelay | lia].
Qed.

End RetryFacts.

Lemma retry_with_backoff_recovers_witness :
  let func := fun w : nat =>
    if w <? 2 then (S w, @Raise nat (mkExn NetworkError "timeout"))
    else (w, Return 7) in
  (0 <= 1)%Q /\ (0 <= 2)%Q /\ 2 < 3
  /\ (retry_with_backoff func 0 2 1 (mkState (0, []) [])
      = (mkState (0, []) [], Return None)
      /\ exists more,
           retry_with_backoff func 3 2 1 (mkState (0, []) [])
           = (mkState (2, [] ++ backoff_delays 2 2 1) ([] ++ more),
              Return (Some 7))
           /\ length more = 2).
Proof.
  intros func. split; [discriminate|]. split; [discriminate|].
  split; [lia|].
  apply (retry_with_backoff_recovers func 2 S
           (fun _ => mkExn NetworkError "timeout") 3 1 2 0 2 7 [] []).
  - discriminate.
  - discriminate.
  - lia.
  - intros [|[|i]] Hi; [reflexivity|reflexivity|lia].
  - reflexivity.
Defined.

Lemma retry_with_backoff_all_fail_witness :
  (forall w : nat,
      (fun w : nat => (S w, @Raise nat (mkExn NetworkError "timeout"))) w
      = (S w, Raise ((fun _ : nat => mkExn NetworkError "timeout") w)))
  /\ 0 < 3 /\ (0 <= 1)%Q /\ (0 <= 2)%Q
  /\ exists more,
       retry_with_backoff
         (fun w : nat => (S w, @Raise nat (mkExn NetworkError "timeout")))
         3 2 1 (mkState (0, []) [])
       = (mkState (Nat.iter 3 S 0, [] ++ backoff_delays 2 (3 - 1) 1)
            ([] ++ more),
          Raise (mkExn NetworkError "timeout"))
       /\ length more = 3 - 1.
Proof.
  split; [reflexivity|]. split; [lia|].
  split; [discriminate|]. split; [discriminate|].
  apply (retry_with_backoff_all_fail
           (fun w : nat => (S w, @Raise nat (mkExn NetworkError "timeout")))
           2 S (fun _ => mkExn NetworkError "timeout")
           (fun w => eq_refl) 3 1 0 [] []).
  - lia.
  - discriminate.
  - discriminate.
Defined.

(* ================================================================== *)
(** ** Forum text: relevance and sentiment *)
(* ================================================================== *)

Lemma sentiment_bounds p n :
  let sentiment :=
    if p + n =? 0 then 0%Q
    else ((inject_Z (Z.of_nat p) - inject_Z (Z.of_nat n))
          / inject_Z (Z.of_nat (p + n)))%Q in
  let rating := Qmax 1 (Qmin 5 (3 + sentiment * 2)) in
  (-1 <= sentiment)%Q /\ (sentiment <= 1)%Q
  /\ (1 <= rating)%Q /\ (rating <= 5)%Q
  /\ (rating == 3 + 2 * sentiment)%Q
  /\ (p = n -> (rating == 3)%Q).
Proof.
  intros sentiment rating.
  assert (Hs : (-1 <= sentiment)%Q /\ (sentiment <= 1)%Q
               /\ (p = n -> (sentiment == 0)%Q)).
  { subst sentiment. destruct (p + n =? 0) eqn:E.
    - repeat split; try lra; intros; reflexivity.
    - apply Nat.eqb_neq in E.
      assert (Ht : (0 < inject_Z (Z.of_nat (p + n)))%Q).
      { change 0%Q with (inject_Z 0). rewrite <- Zlt_Qlt. lia. }
      assert (Hsum : inject_Z (Z.of_nat (p + n))
                     == inject_Z (Z.of_nat p) + inject_Z (Z.of_nat n))
        by (rewrite Nat2Z.inj_add, inject_Z_plus; reflexivity).
      assert (Hp : (0 <= inject_Z (Z.of_nat p))%Q)
        by (change 0%Q with (inject_Z 0); rewrite <- Zle_Qle; lia).
      assert (Hn : (0 <= inject_Z (Z.of_nat n))%Q)
        by (change 0%Q with (inject_Z 0); rewrite <- Zle_Qle; lia).
      split; [|split].
      + apply Qle_shift_div_l; [exact Ht | lra].
      + apply Qle_shift_div_r; [exact Ht | lra].
      + intros <-. unfold Qdiv.
        setoid_replace (inject_Z (Z.of_nat p) - inject_Z (Z.of_nat p))%Q
          with 0%Q by ring.
        ring. }
  destruct Hs as (Hlo & Hhi & Hzero).
  assert (Hclamp : (rating == 3 + 2 * sentiment)%Q).
  { subst rating. rewrite Q.min_r by lra. rewrite Q.max_r by lra. ring. }
  repeat split; try assumption; try (rewrite Hclamp; lra).
  intros E. rewrite Hclamp, (Hzero E). reflexivity.
Qed.

(** X28.  The sentiment of a text lies between -1 and 1, the rating
    estimated from it lies between 1 and 5 and is [3 + 2 * sentiment], so
    that the clamp never cuts; a text with as many positive as negative
    key words, none at all included, is rated 3. *)
Theorem analyze_sentiment_bounds text :
  let (sentiment, rating) := _analyze_sentiment text in
  (-1 <= sentiment)%Q /\ (sentiment <= 1)%Q
  /\ (1 <= rating)%Q /\ (rating <= 5)%Q
  /\ (rating == 3 + 2 * sentiment)%Q
  /\ (count_words positive_words (lower text)
      = count_words negative_words (lower text) -> (rating == 3)%Q).
Proof.
  exact (sentiment_bounds (count_words positive_words (lower text))
                          (count_words negative_words (lower text))).
Qed.

Lemma contains_lower_twice sub text :
  contains (lower (lower sub)) (lower (lower text))
  = contains (lower sub) (lower text).
Proof. now rewrite !lower_idempotent. Qed.

Lemma contains_app_r sub a b :
  contains sub b = true -> contains sub (a ++ b) = true.
Proof.
  intros H. induction a as [|c a IH]; [exact H|].
  cbn [append contains]. rewrite IH. apply orb_true_r.
Qed.

Lemma contains_inside sub before text after :
  contains sub text = true ->
  contains sub (before ++ text ++ after) = true.
Proof. intros H. now apply contains_app_r, contains_app_l. Qed.

Lemma filter_length_mono {A : Type} (f g : A -> bool) (l : list A) :
  (forall x, f x = true -> g x = true) ->
  length (filter f l) <= length (filter g l).
Proof.
  intros Hfg. induction l as [|x l IH]; [constructor|]. cbn [filter].
  destruct (f x) eqn:Ef.
  - rewrite (Hfg x Ef). cbn [length]. lia.
  - destruct (g x); cbn [length]; lia.
Qed.

(** X29.  A text is relevant to a product when it holds the name of the
    product, upper and lower case taken as the same; for a name of one
    word (or none) that is the only way; relevance does not depend on
    the case of the text or of the name; and a relevant text stays
    relevant with any text put before and after it. *)
Theorem is_relevant_behaviour text product_name :
  (contains (lower product_name) (lower text) = true ->
   _is_relevant text product_name = true)
  /\ (length (split (lower product_name)) <= 1 ->
      _is_relevant text product_name
      = contains (lower product_name) (lower text))
  /\ _is_relevant (lower text) (lower product_name)
     = _is_relevant text product_name
  /\ (forall before after,
        _is_relevant text product_name = true ->
        _is_relevant (before ++ text ++ after) product_name = true).
Proof.
  unfold _is_relevant. split; [|split; [|split]].
  - now intros ->.
  - intros H. destruct (contains _ _); [reflexivity|].
    apply Nat.leb_le in H. rewrite Nat.ltb_antisym, H. reflexivity.
  - now rewrite !lower_idempotent.
  - intros before after. rewrite !lower_app.
    destruct (contains (lower product_name) (lower text)) eqn:E.
    + intros _. now rewrite (contains_inside _ _ _ _ E).
    + intros H.
      destruct (contains (lower product_name)
                  (lower before ++ lower text ++ lower after));
        [reflexivity|].
      destruct (1 <? _); [|discriminate H].
      apply Nat.leb_le in H. apply Nat.leb_le.
      etransitivity; [exact H|].
      apply filter_length_mono. intros part. apply contains_inside.
Qed.

(* ================================================================== *)
(** ** [InputProcessor.process_input] *)
(* ================================================================== *)

Lemma sanitize_each_tidy pref_list sanitized :
  sanitize_each pref_list = Return sanitized ->
  Forall (fun p => tidy p = true) sanitized.
Proof.
  revert sanitized.
  induction pref_list as [|v rest IH]; intros sanitized H.
  - inversion H. constructor.
  - cbn [sanitize_each] in H.
    destruct v; try discriminate.
    destruct (sanitize_each rest) as [r|e]; [|discriminate].
    inversion H; subst. constructor; [apply sanitize_query_tidy_all|].
    now apply IH.
Qed.

Lemma sanitize_each_raises pref_list e :
  sanitize_each pref_list = Raise e ->
  class_of e = TypeError
  /\ exists v, In v pref_list /\ forall s, v <> PyText s.
Proof.
  induction pref_list as [|v rest IH]; intros H; [discriminate|].
  cbn [sanitize_each] in H.
  destruct v;
    try (inversion H; subst; split; [reflexivity|];
         eexists; split; [now left | discriminate]).
  destruct (sanitize_each rest) as [r|e'] eqn:E; [discriminate|].
  inversion H; subst.
  destruct (IH eq_refl) as (Hclass & v & Hin & Hv).
  split; [exact Hclass|]. exists v. split; [now right | exact Hv].
Qed.

Lemma sanitize_each_texts l :
  sanitize_each (map PyText l) = Return (map sanitize_query l).
Proof.
  induction l as [|s l IH]; [reflexivity|].
  cbn [map sanitize_each]. now rewrite IH.
Qed.

(** X30.  Handed [None], bools, ints, floats (the infinities and NaN
    among them), strings, lists of any of these, or other built-in
    values, [process_input] raises an [InputError], or an
    [OverflowError], which it does only for an int budget of more than
    1023 bits, or a [TypeError], which it does only for a list of
    preferences that holds something that is no string; or it returns a
    product that is the sanitized text it was given, preferences that are
    all words with single spaces, and a budget that is greater than zero
    or is the NaN that it was handed as a float.  A text budget is read
    from its digits and points alone, so that a sign in front does not
    make it negative. *)
Theorem process_input_checked product budget preferences :
  match process_input product budget preferences with
  | Raise e =>
      class_of e = InputError
      \/ (class_of e = OverflowError
          /\ exists n, budget = PyInt n /\ (1023 <= Z.log2 n)%Z)
      \/ (class_of e = TypeError
          /\ exists l v, preferences = PyList l /\ In v l
                         /\ forall s, v <> PyText s)
  | Return r =>
      (float_positive (input_budget r)
       \/ (budget = PyFloat NaN /\ input_budget r = NaN))
      /\ (exists s, product = PyText s
                    /\ 2 <= String.length (strip s)
                    /\ input_product r = sanitize_query s)
      /\ tidy (input_product r) = true
      /\ Forall (fun p => tidy p = true) (input_preferences r)
  end.
Proof.
  unfold process_input.
  destruct (_validate_product product) as [[]|e] eqn:Hp.
  2:{ left. unfold _validate_product in Hp.
      destruct (falsy product); [now inversion Hp|].
      destruct product; try (now inversion Hp).
      destruct (_ <? 2); now inversion Hp. }
  assert (Hprod : exists s, product = PyText s /\ 2 <= String.length (strip s)).
  { unfold _validate_product in Hp.
    destruct (falsy product); [discriminate|].
    destruct product as [|b|n|x|s|l|t]; try discriminate.
    destruct (String.length (strip s) <? 2) eqn:E; [discriminate|].
    apply Nat.ltb_ge in E. eauto. }
  destruct Hprod as (s & -> & Hlen).
  assert (Hbudget :
    match _validate_budget budget with
    | Raise e =>
        class_of e = InputError
        \/ (class_of e = OverflowError
            /\ exists n, budget = PyInt n /\ (1023 <= Z.log2 n)%Z)
    | Return b =>
        float_positive b \/ (budget = PyFloat NaN /\ b = NaN)
    end).
  { unfold _validate_budget.
    destruct (falsy budget); [now left|].
    destruct budget as [|b|n|x|t|l|o]; try (now left).
    - destruct b; cbn; [left; reflexivity | now left].
    - cbn [at_most_zero]. destruct (n <=? 0)%Z eqn:En; [now left|].
      apply Z.leb_gt in En. unfold float_of_int.
      pose proof (float_of_int_positive n En) as Hpos.
      destruct (float_of_Q (inject_Z n)) as [q| | |] eqn:Ef;
        try contradiction.
      + left. exact Hpos.
      + right. split; [reflexivity|]. exists n. split; [reflexivity|].
        destruct (Z_lt_le_dec (Z.log2 n) 1023) as [Hlt|Hge]; [|exact Hge].
        destruct (float_of_int_finite n En Hlt) as (q & Eq). congruence.
    - destruct x as [q| | |]; cbn [at_most_zero].
      + destruct (Qle_bool q 0) eqn:Eq; [now left|].
        left. now apply Qle_bool_false.
      + left. exact I.
      + now left.
      + right. now split.
    - destruct (float_of_decimal (keep_digits_and_points t)) as [x|] eqn:Ex;
        [|now left].
      pose proof (float_of_decimal_nonneg _ _ Ex) as Hnn.
      destruct x as [q| | |]; cbn [at_most_zero]; try contradiction.
      + destruct (Qle_bool q 0) eqn:Eq; [now left|].
        left. now apply Qle_bool_false.
      + left. exact I. }
  destruct (_validate_budget budget) as [b|e] eqn:Hb.
  2:{ destruct Hbudget as [H|H]; [now left | right; now left]. }
  assert (Hprefs :
    match _process_preferences preferences with
    | Raise e =>
        class_of e = InputError
        \/ (class_of e = TypeError
            /\ exists l v, preferences = PyList l /\ In v l
                           /\ forall s, v <> PyText s)
    | Return prefs => Forall (fun p => tidy p = true) prefs
    end).
  { unfold _process_preferences.
    destruct (falsy preferences); [constructor|].
    destruct preferences as [|b'|n|x|t|l|o]; try (now left).
    - rewrite sanitize_each_texts. apply Forall_forall. intros p Hin.
      apply in_map_iff in Hin as (y & <- & _). apply sanitize_query_tidy_all.
    - destruct (sanitize_each l) as [prefs|e] eqn:El.
      + now apply sanitize_each_tidy with l.
      + right. destruct (sanitize_each_raises l e El) as (Hc & v & Hin & Hv).
        split; [exact Hc|]. now exists l, v. }
  destruct (_process_preferences preferences) as [prefs|e] eqn:Hpr.
  2:{ destruct Hprefs as [H|H]; [now left | right; now right]. }
  cbn [input_budget input_product input_preferences].
  split; [exact Hbudget|]. split; [eauto|].
  split; [apply sanitize_query_tidy_all | exact Hprefs].
Qed.
